(** * render-table: a shallow embedding of [scripts/render-table.py]

    The script turns a delimited text file into LaTeX table rows.  This
    development embeds the script's functions as executable Rocq
    definitions and proves the properties stated about them.

    Conventions of the embedding:
    - a Python [str] is a [string]; each [ascii] is read as the code point
      of the same number (U+0000 .. U+00FF), so [isspace] below is Python's
      [str.isspace] on that range;
    - a Python [int] is a [Z];
    - a call that may raise returns a [result]; printing is recorded by the
      [run] monad, which keeps what was written before an exception;
    - library calls the script relies on ([str] methods, [int], [re.match]
      on the two patterns used, [decimal.Decimal] under the default context,
      [csv.DictReader] in the default dialect) are modelled next to the
      script's own code, each in a module of its own, as CPython 3.11 and
      later behave. *)

From Stdlib Require Import String Ascii List ZArith NArith Lia Bool.
From Stdlib Require Import Permutation Sorted.
Import ListNotations.
Open Scope list_scope.
Open Scope string_scope.

(** ** Exceptions and results *)

Inductive exn : Type :=
| ValueError | KeyError | AssertionError | AttributeError | TypeError
| StopIteration | InvalidOperation | DivisionByZero | DecimalOverflow
| CsvError.

Inductive result (A : Type) : Type :=
| Ok (a : A)
| Raise (e : exn).
Arguments Ok {A} a.
Arguments Raise {A} e.

Definition bind {A B} (r : result A) (k : A -> result B) : result B :=
  match r with
  | Ok a => k a
  | Raise e => Raise e
  end.

Notation "x <- r ;; k" := (bind r (fun x => k))
  (at level 61, r at next level, right associativity).

Definition is_ok {A} (r : result A) : bool :=
  match r with Ok _ => true | Raise _ => false end.

(** [mapM f l]: a list comprehension whose body may raise; the first
    exception, in list order, wins. *)
Fixpoint mapM {A B} (f : A -> result B) (l : list A) : result (list B) :=
  match l with
  | [] => Ok []
  | a :: l' => b <- f a ;; bs <- mapM f l' ;; Ok (b :: bs)
  end.

(** ** Python string methods *)

Module Str.

Definition ord (c : ascii) : N := N_of_ascii c.

(** [str.isspace] on one code point below 256. *)
Definition isspace (c : ascii) : bool :=
  let n := ord c in
  (((9 <=? n) && (n <=? 13)) || ((28 <=? n) && (n <=? 32))
   || (n =? 133) || (n =? 160))%N.

Definition isdigit (c : ascii) : bool :=
  let n := ord c in ((48 <=? n) && (n <=? 57))%N.

(** [c.isalnum()] for an ASCII letter or digit. *)
Definition isalnum (c : ascii) : bool :=
  let n := ord c in
  (((48 <=? n) && (n <=? 57)) || ((65 <=? n) && (n <=? 90))
   || ((97 <=? n) && (n <=? 122)))%N.

Definition is_empty (s : string) : bool :=
  match s with EmptyString => true | String _ _ => false end.

Fixpoint lstrip_by (p : ascii -> bool) (s : string) : string :=
  match s with
  | EmptyString => EmptyString
  | String c s' => if p c then lstrip_by p s' else s
  end.

Fixpoint rstrip_by (p : ascii -> bool) (s : string) : string :=
  match s with
  | EmptyString => EmptyString
  | String c s' =>
      let r := rstrip_by p s' in
      if is_empty r && p c then EmptyString else String c r
  end.

(** [s.strip()] *)
Definition strip (s : string) : string :=
  rstrip_by isspace (lstrip_by isspace s).

Fixpoint mem_char (c : ascii) (cs : string) : bool :=
  match cs with
  | EmptyString => false
  | String d cs' => Ascii.eqb c d || mem_char c cs'
  end.

(** [s.strip(chars)] *)
Definition strip_chars (chars s : string) : string :=
  rstrip_by (fun c => mem_char c chars) (lstrip_by (fun c => mem_char c chars) s).

Definition startswith (p s : string) : bool := prefix p s.

Fixpoint all_chars (p : ascii -> bool) (s : string) : bool :=
  match s with
  | EmptyString => true
  | String c s' => p c && all_chars p s'
  end.

Definition endswith (suf s : string) : bool :=
  let n := String.length s in
  let m := String.length suf in
  (m <=? n)%nat && String.eqb (substring (n - m) m s) suf.

(** [s[1:-1]] *)
Definition slice_1_m1 (s : string) : string :=
  substring 1 (String.length s - 2) s.

(** [s.replace(old, new)]: every non-overlapping occurrence, leftmost
    first.  [skip] counts the characters of a matched occurrence that are
    still to be dropped. *)
Fixpoint replace_go (old new : string) (skip : nat) (s : string) : string :=
  match s with
  | EmptyString => if is_empty old then new else EmptyString
  | String c s' =>
      match skip with
      | S k => replace_go old new k s'
      | O =>
          if prefix old s
          then new ++ replace_go old new (String.length old - 1) s'
          else String c (replace_go old new 0 s')
      end
  end.

Definition replace (old new s : string) : string := replace_go old new 0 s.

(** [s.split(sep)] for a non-empty [sep]: the first piece and the later
    pieces. *)
Fixpoint split_go (sep : string) (skip : nat) (s : string)
  : string * list string :=
  match s with
  | EmptyString => (EmptyString, [])
  | String c s' =>
      match skip with
      | S k => split_go sep k s'
      | O =>
          if prefix sep s
          then let '(p, ps) := split_go sep (String.length sep - 1) s' in
               (EmptyString, p :: ps)
          else let '(p, ps) := split_go sep 0 s' in (String c p, ps)
      end
  end.

Definition split (sep s : string) : list string :=
  let '(p, ps) := split_go sep 0 s in p :: ps.

(** [s.split(sep, maxsplit)] for a non-empty [sep]: at most [n] cuts. *)
Fixpoint splitn_go (sep : string) (n skip : nat) (s : string)
  : string * list string :=
  match s with
  | EmptyString => (EmptyString, [])
  | String c s' =>
      match skip with
      | S k => splitn_go sep n k s'
      | O =>
          match n with
          | O => (s, [])
          | S n' =>
              if prefix sep s
              then let '(p, ps) := splitn_go sep n' (String.length sep - 1) s' in
                   (EmptyString, p :: ps)
              else let '(p, ps) := splitn_go sep n 0 s' in (String c p, ps)
          end
      end
  end.

Definition splitn (sep : string) (maxsplit : nat) (s : string) : list string :=
  let '(p, ps) := splitn_go sep maxsplit 0 s in p :: ps.

(** [s.partition(sep)] for a non-empty [sep]. *)
Fixpoint partition (sep s : string) : string * string * string :=
  match s with
  | EmptyString => (EmptyString, EmptyString, EmptyString)
  | String c s' =>
      if prefix sep s
      then (EmptyString, sep,
            substring (String.length sep) (String.length s - String.length sep) s)
      else let '(a, b, r) := partition sep s' in (String c a, b, r)
  end.

(** [sep.join(l)] *)
Definition join (sep : string) (l : list string) : string := String.concat sep l.

(** ["0" * n] and the like *)
Fixpoint repeat_char (c : ascii) (n : nat) : string :=
  match n with
  | O => EmptyString
  | S k => String c (repeat_char c k)
  end.

(** How an f-string renders a value that may be [None]. *)
Definition fmt (v : option string) : string :=
  match v with Some s => s | None => "None" end.

End Str.

(** ** [int(text)] *)

Module PyInt.

Definition digit_val (c : ascii) : Z := Z.of_N (Str.ord c) - 48.

(** Digits, with single underscores allowed between two digits. *)
Fixpoint int_digits (s : string) (acc : Z) (after_digit : bool) : option Z :=
  match s with
  | EmptyString => if after_digit then Some acc else None
  | String c s' =>
      if Str.isdigit c then int_digits s' (10 * acc + digit_val c) true
      else if Ascii.eqb c "_" && after_digit then int_digits s' acc false
      else None
  end.

Fixpoint digits_value (s : string) (acc : Z) : Z :=
  match s with
  | EmptyString => acc
  | String c s' => digits_value s' (10 * acc + digit_val c)
  end.

(** An optional leading sign, and the rest. *)
Definition split_sign (t : string) : bool * string :=
  match t with
  | String c r =>
      if Ascii.eqb c "-" then (true, r)
      else if Ascii.eqb c "+" then (false, r)
      else (false, t)
  | EmptyString => (false, t)
  end.

Fixpoint count_digits (s : string) : nat :=
  match s with
  | EmptyString => O
  | String c s' => (if Str.isdigit c then 1 else 0) + count_digits s'
  end.

(** The interpreter's default bound on the digits of a decimal text
    ([sys.int_info.default_max_str_digits]). *)
Definition max_str_digits : nat := 4300.

(** The white space [int] skips around a number: the ASCII white space
    and, of the code points from 128 on, those of [str.isspace].  The
    separators U+001C to U+001F, which [str.strip] removes, are not among
    them. *)
Definition isspace (c : ascii) : bool :=
  let n := Str.ord c in
  (((9 <=? n) && (n <=? 13)) || (n =? 32) || (n =? 133) || (n =? 160))%N.

Definition strip (s : string) : string :=
  Str.rstrip_by isspace (Str.lstrip_by isspace s).

(** [int(s)] in base ten: surrounding white space, an optional sign, then
    digits; anything else is a [ValueError]. *)
Definition int (s : string) : result Z :=
  let '(neg, body) := split_sign (strip s) in
  if (max_str_digits <? count_digits body)%nat then Raise ValueError
  else match int_digits body 0 false with
       | Some n => Ok (if neg then (- n)%Z else n)
       | None => Raise ValueError
       end.

End PyInt.

(** ** [re.match] on anchored patterns *)

Module Re.

Inductive regex : Type :=
| Empty
| Eps
| Cls (p : ascii -> bool)
| Seq (r1 r2 : regex)
| Alt (r1 r2 : regex)
| Star (r : regex).

Definition Chr (c : ascii) : regex := Cls (Ascii.eqb c).
Definition Opt (r : regex) : regex := Alt r Eps.
Definition Plus (r : regex) : regex := Seq r (Star r).

Fixpoint nullable (r : regex) : bool :=
  match r with
  | Empty => false
  | Eps => true
  | Cls _ => false
  | Seq r1 r2 => nullable r1 && nullable r2
  | Alt r1 r2 => nullable r1 || nullable r2
  | Star _ => true
  end.

Fixpoint deriv (c : ascii) (r : regex) : regex :=
  match r with
  | Empty => Empty
  | Eps => Empty
  | Cls p => if p c then Eps else Empty
  | Seq r1 r2 =>
      if nullable r1
      then Alt (Seq (deriv c r1) r2) (deriv c r2)
      else Seq (deriv c r1) r2
  | Alt r1 r2 => Alt (deriv c r1) (deriv c r2)
  | Star r1 => Seq (deriv c r1) (Star r1)
  end.

(** The whole of [s] is a word of [r]. *)
Fixpoint fullmatch (r : regex) (s : string) : bool :=
  match s with
  | EmptyString => nullable r
  | String c s' => fullmatch (deriv c r) s'
  end.

Definition nl : string := String "010" EmptyString.

(** [s] without its last character. *)
Definition chop (s : string) : string := substring 0 (String.length s - 1) s.

(** [re.match("^" r "$", s)] is not [None]: without [re.MULTILINE] the
    [$] also matches just before a newline that ends the text. *)
Definition match_anchored (r : regex) (s : string) : bool :=
  fullmatch r s || (Str.endswith nl s && fullmatch r (chop s)).

(** The words of a pattern. *)
Inductive lang : regex -> string -> Prop :=
| lang_eps : lang Eps EmptyString
| lang_cls p c : p c = true -> lang (Cls p) (String c EmptyString)
| lang_seq r1 r2 s1 s2 :
    lang r1 s1 -> lang r2 s2 -> lang (Seq r1 r2) (s1 ++ s2)
| lang_alt_l r1 r2 s : lang r1 s -> lang (Alt r1 r2) s
| lang_alt_r r1 r2 s : lang r2 s -> lang (Alt r1 r2) s
| lang_star_nil r : lang (Star r) EmptyString
| lang_star_cons r s1 s2 :
    lang r s1 -> lang (Star r) s2 -> lang (Star r) (s1 ++ s2).

End Re.

(** ** [decimal.Decimal] under the default context *)

Module Dec.

Open Scope Z_scope.

(** A finite decimal: [(-1)^sign * coeff * 10^exp], with [0 <= coeff]. *)
Record t : Type := mk { sign : bool; coeff : Z; exp : Z }.

Inductive rounding : Type := ROUND_HALF_EVEN | ROUND_DOWN.

(** The default context: 28 digits, round half to even, exponents within
    [Emin .. Emax], no clamping; [InvalidOperation], [DivisionByZero] and
    [Overflow] are trapped, the other signals only set flags. *)
Definition prec : Z := 28.
Definition Emax : Z := 999999.
Definition Emin : Z := -999999.
Definition Etiny : Z := Emin - prec + 1.
Definition Etop : Z := Emax - prec + 1.

Fixpoint ndigits_go (fuel : nat) (c : Z) : Z :=
  match fuel with
  | O => 1
  | S f => if c <? 10 then 1 else 1 + ndigits_go f (c / 10)
  end.

(** [len(self._int)]: the number of decimal digits of the coefficient. *)
Definition ndigits (c : Z) : Z := ndigits_go (S (Z.to_nat (Z.log2 c))) c.

Definition digit_char (d : Z) : ascii := ascii_of_N (Z.to_N (48 + d)).

Fixpoint digits_go (fuel : nat) (c : Z) (acc : string) : string :=
  match fuel with
  | O => acc
  | S f =>
      let acc' := String (digit_char (c mod 10)) acc in
      if c <? 10 then acc' else digits_go f (c / 10) acc'
  end.

(** [self._int]: the coefficient's decimal digits, no leading zero. *)
Definition digits (c : Z) : string :=
  digits_go (S (Z.to_nat (Z.log2 c))) c EmptyString.

(** ["%+d" % n] *)
Definition signed_digits (n : Z) : string :=
  ((if (n <? 0)%Z then "-" else "+") ++ digits (Z.abs n))%string.

Definition adjusted (d : t) : Z := exp d + ndigits (coeff d) - 1.

(** The quotient of [c] by [10^m] ([0 < m]), rounded as [mode] says. *)
Definition round_quot (mode : rounding) (c m : Z) : Z :=
  let p := 10 ^ m in
  let q := c / p in
  let r := c mod p in
  match mode with
  | ROUND_DOWN => q
  | ROUND_HALF_EVEN =>
      if (p <? 2 * r) || ((2 * r =? p) && Z.odd q) then q + 1 else q
  end.

(** The integer nearest to [n / p], the even one of the two when [n / p]
    is half way between them ([0 <= n], [0 < p]). *)
Definition half_even_div (n p : Z) : Z :=
  let q := n / p in
  let r := n mod p in
  if 2 * r <? p then q
  else if p <? 2 * r then q + 1
  else if Z.even q then q else q + 1.

(** Rounding to the context ([Decimal._fix]). *)
Definition fix_ (d : t) : result t :=
  if coeff d =? 0 then
    Ok (mk (sign d) 0 (Z.min (Z.max (exp d) Etiny) Emax))
  else
    let exp_min0 := ndigits (coeff d) + exp d - prec in
    if Etop <? exp_min0 then Raise DecimalOverflow
    else
      let exp_min := if exp_min0 <? Etiny then Etiny else exp_min0 in
      if exp d <? exp_min then
        let kept := ndigits (coeff d) + exp d - exp_min in
        let '(c1, e1) :=
          if kept <? 0 then (1, exp_min - 1) else (coeff d, exp d) in
        let c2 := round_quot ROUND_HALF_EVEN c1 (exp_min - e1) in
        if prec <? ndigits c2 then
          if Etop <? exp_min + 1 then Raise DecimalOverflow
          else Ok (mk (sign d) (c2 / 10) (exp_min + 1))
        else Ok (mk (sign d) c2 exp_min)
      else Ok d.

(** [Decimal("1.")] *)
Definition one : t := mk false 1 0.

(** [Decimal._rescale]: the same number at exponent [e]. *)
Definition rescale (d : t) (e : Z) (mode : rounding) : t :=
  if coeff d =? 0 then mk (sign d) 0 e
  else if e <=? exp d then mk (sign d) (coeff d * 10 ^ (exp d - e)) e
  else
    let kept := ndigits (coeff d) + exp d - e in
    let '(c1, e1) := if kept <? 0 then (1, e - 1) else (coeff d, exp d) in
    mk (sign d) (round_quot mode c1 (e - e1)) e.

(** [d.quantize(q, rounding=mode)]: [d] at the exponent of [q]. *)
Definition quantize (d q : t) (mode : rounding) : result t :=
  let e := exp q in
  if negb ((Etiny <=? e) && (e <=? Emax)) then Raise InvalidOperation
  else if coeff d =? 0 then fix_ (mk (sign d) 0 e)
  else if Emax <? adjusted d then Raise InvalidOperation
  else if prec <? adjusted d - e + 1 then Raise InvalidOperation
  else
    let ans := rescale d e mode in
    if Emax <? adjusted ans then Raise InvalidOperation
    else if prec <? ndigits (coeff ans) then Raise InvalidOperation
    else fix_ ans.

(** Dividing out trailing zeros while the exponent is below the ideal
    one; [n] bounds the number of steps. *)
Fixpoint strip_zeros (n : nat) (c e : Z) : Z * Z :=
  match n with
  | O => (c, e)
  | S k => if c mod 10 =? 0 then strip_zeros k (c / 10) (e + 1) else (c, e)
  end.

(** [a / b] ([Decimal.__truediv__]). *)
Definition div (a b : t) : result t :=
  let s := xorb (sign a) (sign b) in
  if coeff b =? 0 then
    Raise (if coeff a =? 0 then InvalidOperation else DivisionByZero)
  else if coeff a =? 0 then fix_ (mk s 0 (exp a - exp b))
  else
    let shift := ndigits (coeff b) - ndigits (coeff a) + prec + 1 in
    let e := exp a - exp b - shift in
    let '(q, r) :=
      if 0 <=? shift
      then Z.div_eucl (coeff a * 10 ^ shift) (coeff b)
      else Z.div_eucl (coeff a) (coeff b * 10 ^ (- shift)) in
    let '(c, e') :=
      if r =? 0
      then strip_zeros (Z.to_nat (exp a - exp b - e)) q e
      else (if q mod 5 =? 0 then q + 1 else q, e) in
    fix_ (mk s c e').

(** [a * b] ([Decimal.__mul__]). *)
Definition mul (a b : t) : result t :=
  fix_ (mk (xorb (sign a) (sign b)) (coeff a * coeff b) (exp a + exp b)).

(** [Decimal(n)] for an [int]. *)
Definition of_int (n : Z) : t := mk (n <? 0) (Z.abs n) 0.

Fixpoint span_digits (s : string) : string * string :=
  match s with
  | EmptyString => (EmptyString, EmptyString)
  | String c s' =>
      if Str.isdigit c
      then let '(ds, r) := span_digits s' in (String c ds, r)
      else (EmptyString, s)
  end.

(** [Decimal(text)] on the texts the script passes: white space around,
    an optional sign, digits with at most one point and at least one digit.
    The constructor's exponent part, infinities and NaNs all need a letter,
    which neither numeric pattern of the script admits. *)
Definition of_string (text : string) : result t :=
  let '(neg, body) := PyInt.split_sign (Str.replace "_" EmptyString (Str.strip text)) in
  let '(ip, rest) := span_digits body in
  let '(fp, rest') :=
    match rest with
    | String c r => if Ascii.eqb c "." then span_digits r else (EmptyString, rest)
    | EmptyString => (EmptyString, rest)
    end in
  if negb (Str.is_empty rest') || (Str.is_empty ip && Str.is_empty fp)
  then Raise InvalidOperation
  else Ok (mk neg (PyInt.digits_value (ip ++ fp) 0)
              (- Z.of_nat (String.length fp))).

(** [str(d)] ([Decimal.__str__], scientific notation where the exponent is
    positive or the number is below [1E-6]). *)
Definition to_str (d : t) : string :=
  let ds := digits (coeff d) in
  let len := Z.of_nat (String.length ds) in
  let leftdigits := exp d + len in
  let dotplace := if (exp d <=? 0) && (-6 <? leftdigits) then leftdigits else 1 in
  let body :=
    if dotplace <=? 0 then
      ("0." ++ Str.repeat_char "0" (Z.to_nat (- dotplace)) ++ ds)%string
    else if len <=? dotplace then
      (ds ++ Str.repeat_char "0" (Z.to_nat (dotplace - len)))%string
    else
      (substring 0 (Z.to_nat dotplace) ds ++ "."
       ++ substring (Z.to_nat dotplace) (Z.to_nat (len - dotplace)) ds)%string in
  let e_part :=
    if leftdigits =? dotplace then EmptyString
    else ("E" ++ signed_digits (leftdigits - dotplace))%string in
  ((if sign d then "-" else EmptyString) ++ body ++ e_part)%string.

End Dec.

(** ** Printing: the output written so far and how the call ended *)

Record run (A : Type) : Type := mkRun { output : string; outcome : result A }.
Arguments mkRun {A} output outcome.
Arguments output {A} r.
Arguments outcome {A} r.

Definition ret {A} (a : A) : run A := mkRun EmptyString (Ok a).
Definition lift {A} (r : result A) : run A := mkRun EmptyString r.

Definition bind_run {A B} (m : run A) (k : A -> run B) : run B :=
  match outcome m with
  | Ok a => let m' := k a in mkRun (output m ++ output m') (outcome m')
  | Raise e => mkRun (output m) (Raise e)
  end.

Notation "x <~ m ;; k" := (bind_run m (fun x => k))
  (at level 61, m at next level, right associativity).

(** [print(text)] with an empty [end]: no newline is added. *)
Definition print (text : string) : run unit := mkRun text (Ok tt).

(** The status the interpreter exits with: an uncaught exception gives 1. *)
Definition exit_status {A} (m : run A) : Z :=
  match outcome m with Ok _ => 0%Z | Raise _ => 1%Z end.

(** ** [csv.reader] and [csv.DictReader], default dialect *)

Module Csv.

Inductive state : Type :=
| START_RECORD | START_FIELD | IN_FIELD | IN_QUOTED_FIELD
| QUOTE_IN_QUOTED_FIELD | EAT_CRNL.

Record parser : Type :=
  mkParser { st : state; field : string; fields : list string }.

Definition reset : parser := mkParser START_RECORD EmptyString [].

Definition save_field (s : state) (p : parser) : parser :=
  mkParser s EmptyString (fields p ++ [field p])%list.

(** [csv.field_size_limit()], as the module sets it. *)
Definition field_limit : N := 131072.

(** One more character of the field: an error once the field has reached
    the limit. *)
Definition add_char (s : state) (c : ascii) (p : parser) : result parser :=
  if (field_limit <=? N.of_nat (String.length (field p)))%N then Raise CsvError
  else Ok (mkParser s (field p ++ String c EmptyString) (fields p)).

Definition set_state (s : state) (p : parser) : parser :=
  mkParser s (field p) (fields p).

Definition is_newline (c : ascii) : bool :=
  Ascii.eqb c "010" || Ascii.eqb c "013".

(** One step of the reader's automaton; [None] is the end of a line. *)
Definition process_char (delimiter : ascii) (p : parser) (c : option ascii)
  : result parser :=
  let start_field :=
    match c with
    | None => Ok (save_field START_RECORD p)
    | Some ch =>
        if is_newline ch then Ok (save_field EAT_CRNL p)
        else if Ascii.eqb ch "034" then Ok (set_state IN_QUOTED_FIELD p)
        else if Ascii.eqb ch delimiter then Ok (save_field START_FIELD p)
        else add_char IN_FIELD ch p
    end in
  match st p with
  | START_RECORD =>
      match c with
      | None => Ok p
      | Some ch => if is_newline ch then Ok (set_state EAT_CRNL p) else start_field
      end
  | START_FIELD => start_field
  | IN_FIELD =>
      match c with
      | None => Ok (save_field START_RECORD p)
      | Some ch =>
          if is_newline ch then Ok (save_field EAT_CRNL p)
          else if Ascii.eqb ch delimiter then Ok (save_field START_FIELD p)
          else add_char IN_FIELD ch p
      end
  | IN_QUOTED_FIELD =>
      match c with
      | None => Ok p
      | Some ch =>
          if Ascii.eqb ch "034" then Ok (set_state QUOTE_IN_QUOTED_FIELD p)
          else add_char IN_QUOTED_FIELD ch p
      end
  | QUOTE_IN_QUOTED_FIELD =>
      match c with
      | None => Ok (save_field START_RECORD p)
      | Some ch =>
          if Ascii.eqb ch "034" then add_char IN_QUOTED_FIELD ch p
          else if Ascii.eqb ch delimiter then Ok (save_field START_FIELD p)
          else if is_newline ch then Ok (save_field EAT_CRNL p)
          else add_char IN_FIELD ch p
      end
  | EAT_CRNL =>
      match c with
      | None => Ok (set_state START_RECORD p)
      | Some ch => if is_newline ch then Ok p else Raise CsvError
      end
  end.

(** A whole line, then the end-of-line step. *)
Fixpoint feed (delimiter : ascii) (p : parser) (line : string) : result parser :=
  match line with
  | EmptyString => process_char delimiter p None
  | String c line' =>
      p' <- process_char delimiter p (Some c) ;; feed delimiter p' line'
  end.

(** The lines of a text file as iteration yields them, each with its
    newline (the text is what Python sees after newline translation). *)
Fixpoint lines_go (cur : string) (s : string) : list string :=
  match s with
  | EmptyString => if Str.is_empty cur then [] else [cur]
  | String c s' =>
      if Ascii.eqb c "010"
      then (cur ++ String c EmptyString) :: lines_go EmptyString s'
      else lines_go (cur ++ String c EmptyString) s'
  end.

Definition lines (text : string) : list string := lines_go EmptyString text.

(** What a reader will yield: the records read before the first error,
    and that error if there is one.  Reading is lazy in Python; consumers
    below take records from the front and meet the error only after them. *)
Definition reader : Type := (list (list string) * option exn)%type.

Fixpoint records (delimiter : ascii) (p : parser) (ls : list string) : reader :=
  match ls with
  | [] =>
      match st p with
      | IN_QUOTED_FIELD => ([fields p ++ [field p]]%list, None)
      | _ => ([], None)
      end
  | l :: ls' =>
      match feed delimiter p l with
      | Raise e => ([], Some e)
      | Ok p' =>
          match st p' with
          | START_RECORD =>
              let '(rs, e) := records delimiter reset ls' in (fields p' :: rs, e)
          | _ => records delimiter p' ls'
          end
      end
  end.

Definition open_reader (delimiter : ascii) (text : string) : reader :=
  records delimiter reset (lines text).

(** [next(reader)] *)
Definition next (r : reader) : result (list string * reader) :=
  match r with
  | (rec :: rs, e) => Ok (rec, (rs, e))
  | ([], Some e) => Raise e
  | ([], None) => Raise StopIteration
  end.

(** A row of a [DictReader]: column name to value, [None] where the
    record was short.  Insertion keeps one binding per key, as a [dict]. *)
Definition pydict : Type := list (string * option string).

Fixpoint dict_set (k : string) (v : option string) (d : pydict) : pydict :=
  match d with
  | [] => [(k, v)]
  | (k', v') :: d' =>
      if String.eqb k k' then (k, v) :: d' else (k', v') :: dict_set k v d'
  end.

Fixpoint dict_get (k : string) (d : pydict) : result (option string) :=
  match d with
  | [] => Raise KeyError
  | (k', v) :: d' => if String.eqb k k' then Ok v else dict_get k d'
  end.

(** [dict(zip(fieldnames, row))], with [restval = None] for missing
    values; values beyond the field names go under the key [None], which
    no column name can reach, and are left out. *)
Fixpoint zip_row (names row : list string) (d : pydict) : pydict :=
  match names with
  | [] => d
  | n :: ns =>
      match row with
      | [] => zip_row ns [] (dict_set n None d)
      | v :: vs => zip_row ns vs (dict_set n (Some v) d)
      end
  end.

Definition is_blank (rec : list string) : bool :=
  match rec with [] => true | _ => false end.

(** The rows a [DictReader] yields after its header: blank records are
    skipped, and a pending error comes after the rows before it. *)
Definition dict_rows (names : list string) (r : reader)
  : list pydict * option exn :=
  (map (fun rec => zip_row names rec [])
       (filter (fun rec => negb (is_blank rec)) (fst r)), snd r).

End Csv.

(** ** The script: spans *)

Definition nonempty (s : string) : bool := negb (Str.is_empty s).

Module Span.

(** [Span(start, end)]; [None] is an open bound. *)
Record t : Type := mk { start : option Z; end_ : option Z }.

(** [Span.parse(s)] *)
Definition parse (s : string) : result t :=
  if Str.is_empty s then Raise AssertionError
  else
    let '(start_text, sep, end_text) := Str.partition "-" s in
    start <- (if nonempty start_text
              then n <- PyInt.int start_text ;; Ok (Some n)
              else Ok None) ;;
    end0 <- (if nonempty end_text
             then n <- PyInt.int end_text ;; Ok (Some (n + 1)%Z)
             else Ok None) ;;
    match end0, Str.is_empty sep, start with
    | None, true, Some a => Ok (mk start (Some (a + 1)%Z))
    | None, true, None => Raise TypeError
    | _, _, _ => Ok (mk start end0)
    end.

(** [i in span] *)
Definition contains (sp : t) (i : Z) : bool :=
  match start sp, end_ sp with
  | None, None => true
  | None, Some e => (i <? e)%Z
  | Some a, None => (a <=? i)%Z
  | Some a, Some e => ((a <=? i) && (i <? e))%Z
  end.

End Span.

Module Spans.

(** [Spans(spans)]: the plain class, addressed by one index. *)
Definition t : Type := list Span.t.

Definition all : t := [Span.mk None None].

(** [Spans.parse(v)]: the empty pieces between commas are dropped. *)
Definition parse (v : string) : result t :=
  mapM Span.parse (List.filter nonempty (Str.split "," v)).

(** [i in spans] *)
Definition contains (s : t) (i : Z) : bool :=
  existsb (fun sp => Span.contains sp i) s.

Fixpoint filter_from {A} (s : t) (i : Z) (xs : list A) : list A :=
  match xs with
  | [] => []
  | x :: xs' =>
      if contains s i then x :: filter_from s (i + 1) xs'
      else filter_from s (i + 1) xs'
  end.

(** [spans.filter(iterable)], as the list of what the generator yields. *)
Definition filter {A} (s : t) (xs : list A) : list A := filter_from s 0%Z xs.

End Spans.

(** A cell coordinate [(row, col)]; a row-level test passes [(row, None)]. *)
Definition coord : Type := (option Z * option Z)%type.

(** The two subclasses that are addressed by a coordinate. *)
Inductive spans_cls : Type := RowSpans | ColSpans.

Record CellSpans : Type := mkCellSpans { cls : spans_cls; spans_of : Spans.t }.

Definition cell_spans_parse (c : spans_cls) (v : string) : result CellSpans :=
  l <- Spans.parse v ;; Ok (mkCellSpans c l).

Definition cell_spans_all (c : spans_cls) : CellSpans := mkCellSpans c Spans.all.

(** [cell in spans] for [RowSpans] and [ColSpans] *)
Definition cell_in (cell : coord) (s : CellSpans) : bool :=
  match cls s with
  | RowSpans =>
      match fst cell with
      | None => false
      | Some row => Spans.contains (spans_of s) row
      end
  | ColSpans =>
      match snd cell with
      | None => false
      | Some col => Spans.contains (spans_of s) col
      end
  end.

(** ** Quoting *)

(** The chain of replacements of [quote], after the strip. *)
Definition escape_chain (t : string) : string :=
  Str.replace "\\" "\\\\"
    (Str.replace "}" "\}"
      (Str.replace "{" "\{"
        (Str.replace "_" "\_"
          (Str.replace "$" "\$"
            (Str.replace "&" "\&"
              (Str.replace "#" "\#"
                (Str.replace "%" "\%" t))))))).

(** [quote(text)] on a [str] *)
Definition quote (text : string) : string :=
  if Str.is_empty text then EmptyString else escape_chain (Str.strip text).

(** [quote(text)] on a value of a row, which is [None] where the record
    was short: [not None] holds as well. *)
Definition quote_value (v : option string) : string :=
  match v with
  | None => EmptyString
  | Some text => quote text
  end.

(** [stripnl(text)] *)
Definition stripnl (text : string) : string := Str.replace Re.nl " " text.

(** ** Modifiers *)

(** One constructor per wrapper class; [Bold] and [Italic] are [Wrapper]
    with the directive their [parse] fixes.  A [None] argument is kept as
    such, as [parse_modifier] passes it. *)
Inductive Modifier : Type :=
| Wrapper (spans : CellSpans) (directive : option string) (wrap_value : bool)
| BackgroundColor (spans : CellSpans) (color : option string)
| Dot (spans : CellSpans)
| CheckmarkIfValue (spans : CellSpans) (value : option string)
| CrossmarkIfValue (spans : CellSpans) (value : option string)
| List_ (spans : CellSpans) (value : option string)
| TextColor (spans : CellSpans) (color : option string)
| RoundNumbers (spans : CellSpans) (decimals : Z) (rounding : option Dec.rounding)
| Percent (spans : CellSpans) (decimals : Z)
| RowBorderWrapper (spans : CellSpans) (border_top border_bottom : bool)
    (border_command : string)
| RowWrapper (spans : CellSpans).

Definition spans (m : Modifier) : CellSpans :=
  match m with
  | Wrapper s _ _ | BackgroundColor s _ | Dot s | CheckmarkIfValue s _
  | CrossmarkIfValue s _ | List_ s _ | TextColor s _ | RoundNumbers s _ _
  | Percent s _ | RowBorderWrapper s _ _ _ | RowWrapper s => s
  end.

(** The class attribute [priority]; 100 is inherited from [WrapperBase]. *)
Definition priority (m : Modifier) : Z :=
  match m with
  | BackgroundColor _ _ => 10
  | TextColor _ _ => 100
  | RoundNumbers _ _ _ => 200
  | Percent _ _ => 200
  | RowBorderWrapper _ _ _ _ => 0
  | RowWrapper _ => 1
  | _ => 100
  end.

Definition digit_cls : Re.regex := Re.Cls Str.isdigit.

(** [^-?([0-9]+[,.]?)+$] without its anchors *)
Definition round_pattern : Re.regex :=
  Re.Seq (Re.Opt (Re.Chr "-"))
    (Re.Plus (Re.Seq (Re.Plus digit_cls)
                     (Re.Opt (Re.Cls (fun c => Ascii.eqb c "," || Ascii.eqb c "."))))).

(** [^-?[0-9,.]+$] without its anchors *)
Definition percent_pattern : Re.regex :=
  Re.Seq (Re.Opt (Re.Chr "-"))
    (Re.Plus (Re.Cls (fun c => Str.isdigit c || Ascii.eqb c "," || Ascii.eqb c "."))).

(** [D("1." + "0" * decimals)] *)
Definition quantum (decimals : Z) : result Dec.t :=
  Dec.of_string ("1." ++ Str.repeat_char "0" (Z.to_nat decimals)).

(** The first statement of [RoundNumbers.apply]: a value in parentheses
    gets a minus sign instead. *)
Definition unparen (value : string) : string :=
  if Str.startswith "(" value && Str.endswith ")" value
  then "-" ++ Str.slice_1_m1 value else value.

Definition RoundNumbers_apply (decimals : Z) (rounding : option Dec.rounding)
  (value : string) : result string :=
  let value := unparen value in
  if Re.match_anchored round_pattern value then
    d <- Dec.of_string (Str.replace "," EmptyString value) ;;
    d' <- (if (decimals <? 0)%Z then
             q <- Dec.div d (Dec.of_int (10 ^ (- decimals))) ;;
             one <- Dec.of_string "1." ;;
             Dec.quantize q one Dec.ROUND_HALF_EVEN
           else
             q <- quantum decimals ;;
             Dec.quantize d q
               (match rounding with Some r => r | None => Dec.ROUND_HALF_EVEN end)) ;;
    Ok (Dec.to_str d')
  else
    let value := if String.eqb (Str.strip value) "..." then "\dots" else value in
    Ok ("{" ++ value ++ "}").

Definition Percent_apply (decimals : Z) (value : string) : result string :=
  if Re.match_anchored percent_pattern value then
    d <- Dec.of_string (Str.replace "," EmptyString value) ;;
    p <- Dec.mul d (Dec.of_int 100) ;;
    q <- quantum decimals ;;
    d' <- Dec.quantize p q Dec.ROUND_HALF_EVEN ;;
    Ok ("\pct{" ++ Dec.to_str d' ++ "}")
  else Ok value.

Definition Wrapper_apply (directive : option string) (wrap_value : bool)
  (value : string) : string :=
  let value := Str.strip value in
  if Str.is_empty value then EmptyString
  else if wrap_value then "\" ++ Str.fmt directive ++ "{" ++ value ++ "}"
  else
    let space := if Str.startswith "\" value then EmptyString else " " in
    "\" ++ Str.fmt directive ++ space ++ value.

Definition List_apply (value : string) : string :=
  if Str.is_empty (Str.strip value) then EmptyString
  else
    let lines :=
      map (fun line => "\item " ++ line)
          (Str.split (Re.nl ++ "- ") (Str.strip_chars "- " value)) in
    Str.join Re.nl (("\begin{tabitemize}" :: lines) ++ ["\end{tabitemize}"])%list.

(** [value.strip() == self.value], false when [self.value] is [None] *)
Definition stripped_is (value : string) (v : option string) : bool :=
  match v with
  | Some x => String.eqb (Str.strip value) x
  | None => false
  end.

(** [modifier.apply(value)] *)
Definition apply (m : Modifier) (value : string) : result string :=
  match m with
  | Wrapper _ directive wrap_value => Ok (Wrapper_apply directive wrap_value value)
  | BackgroundColor _ color => Ok ("\cellcolor{" ++ Str.fmt color ++ "}" ++ value)
  | Dot _ => Ok (if nonempty (Str.strip value) then "\textbullet" else value)
  | CheckmarkIfValue _ v => Ok (if stripped_is value v then "\cmark" else value)
  | CrossmarkIfValue _ v => Ok (if stripped_is value v then "\xmark" else value)
  | List_ _ _ => Ok (List_apply value)
  | TextColor _ color => Ok ("\color{" ++ Str.fmt color ++ "}{" ++ value ++ "}")
  | RoundNumbers _ decimals rounding => RoundNumbers_apply decimals rounding value
  | Percent _ decimals => Percent_apply decimals value
  | RowBorderWrapper _ _ _ _ => Ok value
  | RowWrapper _ => Ok value
  end.

(** [modifier.apply_row(value)]; the identity of [WrapperBase] unless
    overridden. *)
Definition apply_row (m : Modifier) (value : string) : string :=
  match m with
  | RowBorderWrapper _ border_top _ border_command =>
      if border_top then "\" ++ border_command ++ Re.nl ++ value else value
  | RowWrapper _ =>
      if nonempty value then value ++ Re.nl ++ "\\" ++ Re.nl
      else "\\" ++ Re.nl
  | _ => value
  end.

(** [WrapperBase.wrap(cell, value)] *)
Definition wrap (m : Modifier) (cell : coord) (value : string) : result string :=
  if cell_in cell (spans m) then apply m value else Ok value.

(** [WrapperBase.wrap_row(row, value)] *)
Definition wrap_row (m : Modifier) (row : Z) (value : string) : string :=
  if cell_in (Some row, None) (spans m) then apply_row m value else value.

(** ** The registry and the modifier specs *)

Inductive kind : Type :=
| KBold | KItalic | KBackgroundColor | KTextColor | KRoundNumbers | KPercent
| KDot | KList | KCheckmarkIfValue | KCrossmarkIfValue | KWrapper.

Definition MODIFIERS : list (string * kind) :=
  [ ("bold", KBold); ("italic", KItalic); ("bg", KBackgroundColor);
    ("fg", KTextColor); ("round", KRoundNumbers); ("percent", KPercent);
    ("dot", KDot); ("list", KList); ("cmark-if", KCheckmarkIfValue);
    ("xmark-if", KCrossmarkIfValue); ("wrap", KWrapper) ].

(** [MODIFIERS[key]] *)
Fixpoint registry_get (key : string) (reg : list (string * kind)) : result kind :=
  match reg with
  | [] => Raise KeyError
  | (k, v) :: reg' => if String.eqb key k then Ok v else registry_get key reg'
  end.

(** [assert args is None] *)
Definition assert_none (args : option string) : result unit :=
  match args with
  | None => Ok tt
  | Some _ => Raise AssertionError
  end.

(** [modifier.parse(spans, args)], the class method of each registered
    class. *)
Definition modifier_parse (k : kind) (spans : CellSpans) (args : option string)
  : result Modifier :=
  match k with
  | KWrapper => Ok (Wrapper spans args true)
  | KBold => _ <- assert_none args ;; Ok (Wrapper spans (Some "bfseries") false)
  | KItalic => _ <- assert_none args ;; Ok (Wrapper spans (Some "itshape") false)
  | KBackgroundColor => Ok (BackgroundColor spans args)
  | KDot => _ <- assert_none args ;; Ok (Dot spans)
  | KCheckmarkIfValue => Ok (CheckmarkIfValue spans args)
  | KCrossmarkIfValue => Ok (CrossmarkIfValue spans args)
  | KList => Ok (List_ spans args)
  | KTextColor => Ok (TextColor spans args)
  | KRoundNumbers =>
      match args with
      | None => Raise AttributeError
      | Some a =>
          let parts := Str.split "," a in
          let rounding :=
            match parts with
            | _ :: second :: _ =>
                if String.eqb second "down" then Some Dec.ROUND_DOWN else None
            | _ => None
            end in
          decimals <- PyInt.int (hd EmptyString parts) ;;
          Ok (RoundNumbers spans decimals rounding)
      end
  | KPercent =>
      match args with
      | None => Raise TypeError
      | Some a => decimals <- PyInt.int a ;; Ok (Percent spans decimals)
      end
  end.

(** [parse_modifier(m, spans_cls)] *)
Definition parse_modifier (m : string) (c : spans_cls) : result Modifier :=
  match Str.splitn ":" 2 m with
  | [spans_text; key; args] =>
      spans <- cell_spans_parse c spans_text ;;
      k <- registry_get key MODIFIERS ;;
      modifier_parse k spans (Some args)
  | [spans_text; key] =>
      spans <- cell_spans_parse c spans_text ;;
      k <- registry_get key MODIFIERS ;;
      modifier_parse k spans None
  | _ => Raise ValueError
  end.

(** ** Rendering *)

(** [simple_row(values, has_value)] *)
Definition simple_row (values : list string) (has_value : bool) : string :=
  if has_value then Str.join " & " values else EmptyString.

(** The inner loop of [print_row] over the wrappers, for one cell. *)
Fixpoint wrap_cell (wrappers : list Modifier) (cell : coord) (value : string)
  : result string :=
  match wrappers with
  | [] => Ok value
  | w :: ws => v <- wrap w cell value ;; wrap_cell ws cell v
  end.

(** The loop of [print_row] over the cells, from column [col] on, with
    the [values] and the [has_value] flag accumulated so far. *)
Fixpoint cells_loop (row col : Z) (data : list (option string))
  (wrappers : list Modifier) (values : list string) (has_value : bool)
  : result (list string * bool) :=
  match data with
  | [] => Ok (values, has_value)
  | raw :: rest =>
      let cell := quote_value raw in
      let has_value := if nonempty cell then true else has_value in
      cell' <- wrap_cell wrappers (Some row, Some col) cell ;;
      cells_loop row (col + 1) rest wrappers (values ++ [cell'])%list has_value
  end.

(** The second loop of [print_row], over the row's text. *)
Definition wrap_rows (wrappers : list Modifier) (row : Z) (value : string) : string :=
  fold_left (fun v w => wrap_row w row v) wrappers value.

(** What [print_row] hands to the row template. *)
Definition row_cells (row : Z) (data : Csv.pydict) (cols : list string)
  (wrappers : list Modifier) : result (list string * bool) :=
  raw <- mapM (fun k => Csv.dict_get k data) cols ;;
  cells_loop row 0 raw wrappers [] false.

Definition template : Type := list string -> bool -> result string.

(** [print_row(row, data, cols, wrappers, row_template)] *)
Definition print_row (row : Z) (data : Csv.pydict) (cols : list string)
  (wrappers : list Modifier) (row_template : template) : run unit :=
  value <~ lift (vh <- row_cells row data cols wrappers ;;
                 row_template (fst vh) (snd vh)) ;;
  print (wrap_rows wrappers row value).

(** The loop of [print_table] over the admitted rows. *)
Fixpoint print_rows (row : Z) (rows : list Csv.pydict) (cols : list string)
  (wrappers : list Modifier) (row_template : template) : run unit :=
  match rows with
  | [] => ret tt
  | data :: rest =>
      _ <~ print_row row data cols wrappers row_template ;;
      print_rows (row + 1) rest cols wrappers row_template
  end.

Definition raise_pending (e : option exn) : run unit :=
  match e with
  | None => ret tt
  | Some x => lift (Raise x)
  end.

(** [next(self.reader)] repeated [n] times, in [SkippableDictReader]. *)
Fixpoint skip_records (n : nat) (r : Csv.reader) : result Csv.reader :=
  match n with
  | O => Ok r
  | S k => x <- Csv.next r ;; skip_records k (snd x)
  end.

(** [print_table(fh, rows, cols, start_at, skip_headers, skip_cols,
    wrappers, row_template)]; [fh] is given by its name and its text. *)
Definition print_table (name text : string) (rows cols : Spans.t) (start_at : Z)
  (skip_headers : bool) (skip_cols : list string) (wrappers : list Modifier)
  (row_template : template) : run unit :=
  let delimiter := if Str.endswith ".tsv" name then "009"%char else ","%char in
  r <~ lift (skip_records (Z.to_nat start_at) (Csv.open_reader delimiter text)) ;;
  hr <~ lift (match Csv.next r with
              | Ok x => Ok x
              | Raise StopIteration => Raise TypeError
              | Raise e => Raise e
              end) ;;
  let fieldnames := fst hr in
  let cols := Spans.filter cols fieldnames in
  let cols :=
    match skip_cols with
    | [] => cols
    | _ => List.filter (fun c => negb (existsb (String.eqb c) skip_cols)) cols
    end in
  let '(data, pending) := Csv.dict_rows fieldnames (snd hr) in
  if skip_headers then
    _ <~ print_rows 0 (Spans.filter rows data) cols wrappers row_template ;;
    raise_pending pending
  else
    _ <~ raise_pending pending ;;
    print_rows 0 (Spans.filter rows (Csv.zip_row cols cols [] :: data))
      cols wrappers row_template.

(** The options of the command, as [click] hands them to [main]; [path] is
    given by the file's name and text, and [template] by the function the
    compiled template renders with. *)
Record Options : Type := mkOptions {
  path_name : string;
  path_text : string;
  rows : option string;
  cols : option string;
  start_at : Z;
  skip_cols : option string;
  row_modifiers : list string;
  col_modifiers : list string;
  border_top : option string;
  border_mid : bool;
  border_mid_cmd : string;
  border_bottom : bool;
  skip_headers : bool;
  template_func : option template
}.

(** The declared defaults of the options. *)
Definition default_options (name text : string) : Options :=
  {| path_name := name; path_text := text; rows := None; cols := None;
     start_at := 0; skip_cols := None; row_modifiers := [];
     col_modifiers := []; border_top := None; border_mid := true;
     border_mid_cmd := "midrule"; border_bottom := true;
     skip_headers := true; template_func := None |}.

(** The truth value of an optional text: [None] and the empty text are
    false. *)
Definition truthy (v : option string) : option string :=
  match v with
  | Some s => if nonempty s then Some s else None
  | None => None
  end.

(** Insertion into a list that is in descending order of priority, before
    the first entry that does not have a higher priority. *)
Fixpoint insert_desc (w : Modifier) (l : list Modifier) : list Modifier :=
  match l with
  | [] => [w]
  | x :: l' =>
      if (priority w <? priority x)%Z then x :: insert_desc w l'
      else w :: x :: l'
  end.

(** [wrappers.sort(key=lambda w: w.priority, reverse=True)]: a stable
    sort, entries of equal priority keep their order. *)
Definition sort_wrappers (ws : list Modifier) : list Modifier :=
  fold_right insert_desc [] ws.

(** The part of [main] that builds the modifier list, up to the sort. *)
Definition build_wrappers (o : Options) : result (list Modifier) :=
  border_spans <-
    match truthy (border_top o) with
    | Some v => cell_spans_parse RowSpans v
    | None => Ok (mkCellSpans RowSpans [Span.mk (Some 1%Z) None])
    end ;;
  let always :=
    [ RowBorderWrapper border_spans (border_mid o) false (border_mid_cmd o);
      RowWrapper (cell_spans_all RowSpans) ] in
  rs <- mapM (fun m => parse_modifier m RowSpans) (row_modifiers o) ;;
  cs <- mapM (fun m => parse_modifier m ColSpans) (col_modifiers o) ;;
  Ok (sort_wrappers (always ++ rs ++ cs)%list).

(** [Spans.parse(v) if v else Spans.all()], for [--rows] and [--cols]. *)
Definition spans_option (v : option string) : result Spans.t :=
  match truthy v with
  | Some t => Spans.parse t
  | None => Ok Spans.all
  end.

(** The end of [main], from the choice of the row template on: the table,
    then the closing rule. *)
Definition render (o : Options) (rows cols : Spans.t)
  (wrappers : list Modifier) : run unit :=
  let skip_cols :=
    match truthy (skip_cols o) with
    | Some v => Str.split "," v
    | None => []
    end in
  let row_template :=
    match template_func o with
    | Some f => f
    | None => fun values has_value => Ok (simple_row values has_value)
    end in
  _ <~ print_table (path_name o) (path_text o) rows cols (start_at o)
         (skip_headers o) skip_cols wrappers row_template ;;
  if border_bottom o then print ("\midrule" ++ Re.nl) else ret tt.

(** [main(...)] *)
Definition main (o : Options) : run unit :=
  rows <~ lift (spans_option (rows o)) ;;
  cols <~ lift (spans_option (cols o)) ;;
  wrappers <~ lift (build_wrappers o) ;;
  render o rows cols wrappers.

(** * [scripts/prepare-data.py] *)

Module PrepareData.

(** [quote_header(k)] *)
Definition quote_header (k : string) : string :=
  Str.replace "_" EmptyString (Str.replace " " EmptyString k).

(** [quote_value(v)] *)
Definition quote_value (v : string) : string :=
  Str.replace "&" "\&" (Str.replace "#" "\#" (Str.replace "%" "\%" (Str.strip v))).

(** [key, value = f.split(":")]: any other number of pieces cannot be
    unpacked. *)
Definition key_value (f : string) : result (string * string) :=
  match Str.split ":" f with
  | [k; v] => Ok (k, v)
  | _ => Raise ValueError
  end.

(** [row[key] == value], where the row's value may be [None]. *)
Definition value_is (row : Csv.pydict) (key value : string) : result bool :=
  v <- Csv.dict_get key row ;;
  Ok (match v with
      | Some x => String.eqb x value
      | None => false
      end).

(** The second loop of [keeprow]. *)
Fixpoint keep_excludes (row : Csv.pydict) (excludes : list string) : result bool :=
  match excludes with
  | [] => Ok true
  | e :: es =>
      kv <- key_value e ;;
      b <- value_is row (fst kv) (snd kv) ;;
      if b then Ok false else keep_excludes row es
  end.

(** [keeprow(row, filters, excludes)] *)
Fixpoint keeprow (row : Csv.pydict) (filters excludes : list string) : result bool :=
  match filters with
  | [] => keep_excludes row excludes
  | f :: fs =>
      kv <- key_value f ;;
      b <- value_is row (fst kv) (snd kv) ;;
      if b then keeprow row fs excludes else Ok false
  end.

(** [iterrows(reader, filters, excludes)]: the rows the generator yields,
    and the exception that ends it, if one does. *)
Fixpoint iterrows (rows : list Csv.pydict) (filters excludes : list string)
  : list Csv.pydict * option exn :=
  match rows with
  | [] => ([], None)
  | r :: rs =>
      match keeprow r filters excludes with
      | Raise e => ([], Some e)
      | Ok b =>
          let '(kept, e) := iterrows rs filters excludes in
          (if b then r :: kept else kept, e)
      end
  end.

Open Scope Z_scope.

(** A [datetime.date]. *)
Record date : Type := mkDate { year : Z; month : Z; day : Z }.

Definition is_leap (y : Z) : bool :=
  (y mod 4 =? 0) && (negb (y mod 100 =? 0) || (y mod 400 =? 0)).

Definition days_in_month (y m : Z) : Z :=
  if m =? 2 then (if is_leap y then 29 else 28)
  else if (m =? 4) || (m =? 6) || (m =? 9) || (m =? 11) then 30
  else 31.

(** The dates the constructor accepts: years 1 to 9999. *)
Definition valid (d : date) : bool :=
  (1 <=? year d) && (year d <=? 9999) && (1 <=? month d) && (month d <=? 12)
  && (1 <=? day d) && (day d <=? days_in_month (year d) (month d)).

(** [datetime.date(y, m, d)] *)
Definition make_date (y m d : Z) : result date :=
  if valid (mkDate y m d) then Ok (mkDate y m d) else Raise ValueError.

(** [a <= b] on dates *)
Definition date_leb (a b : date) : bool :=
  (year a <? year b)
  || ((year a =? year b)
      && ((month a <? month b) || ((month a =? month b) && (day a <=? day b)))).

(** [next_month(date)] *)
Definition next_month (d : date) : result date :=
  if month d =? 12 then make_date (year d + 1) 1 1
  else make_date (year d) (month d + 1) 1.

(** The months counted from year 0. *)
Definition month_index (d : date) : Z := 12 * year d + (month d - 1).

(** The loop of [itermonths]: what is yielded from the current date
    [cur] on, and the exception that ends the generator, if one does.
    [fuel] counts the months from [cur] to [to_date], both included: the
    loop runs once for each. *)
Fixpoint months_loop (fuel : nat) (cur to_date : date) (frequency : positive)
  : list date * option exn :=
  match fuel with
  | O => ([], None)
  | S f =>
      if date_leb cur to_date then
        let yielded :=
          if (month cur - 1) mod Z.pos frequency =? 0 then [cur] else [] in
        match next_month cur with
        | Raise e => (yielded, Some e)
        | Ok d' =>
            let '(ds, e) := months_loop f d' to_date frequency in
            ((yielded ++ ds)%list, e)
        end
      else ([], None)
  end.

(** [itermonths(from_date, to_date, frequency)], for the frequencies
    [main] passes, which are positive. *)
Definition itermonths (from_date to_date : date) (frequency : positive)
  : list date * option exn :=
  match next_month from_date with
  | Raise e => ([], Some e)
  | Ok d =>
      match next_month to_date with
      | Raise e => ([], Some e)
      | Ok t =>
          months_loop (Z.to_nat (month_index t - month_index d + 1)) d t frequency
      end
  end.

End PrepareData.

(** * [scripts/include-content.py] *)

Module IncludeContent.

(** [f.rsplit(".", 1)] where it has two pieces: the text before the last
    point and the text after it. *)
Fixpoint rsplit_dot (f : string) : option (string * string) :=
  match f with
  | EmptyString => None
  | String c f' =>
      match rsplit_dot f' with
      | Some (a, b) => Some (String c a, b)
      | None => if Ascii.eqb c "." then Some (EmptyString, f') else None
      end
  end.

(** [os.path.join(directory, f)] on a POSIX system *)
Definition path_join (directory f : string) : string :=
  if Str.startswith "/" f then f
  else if Str.is_empty directory || Str.endswith "/" directory then directory ++ f
  else directory ++ "/" ++ f.

Fixpoint insert_sorted (f : string) (l : list string) : list string :=
  match l with
  | [] => [f]
  | x :: l' => if String.leb f x then f :: l else x :: insert_sorted f l'
  end.

(** [sorted(names)]: by code points. *)
Definition sorted (names : list string) : list string :=
  fold_right insert_sorted [] names.

(** The line [print] writes for one file. *)
Definition include_line (use_include : bool) (path : string) : string :=
  "\" ++ (if use_include then "include" else "input") ++ "{" ++ path ++ "}"
  ++ Re.nl.

(** A pattern option, given by what [re.fullmatch] answers with it;
    [None] stands for an absent or empty pattern. *)
Definition pattern : Type := option (string -> bool).

(** The tests on [only] and [exclude] that skip a file. *)
Definition skipped (only exclude : pattern) (name : string) : bool :=
  match only with Some p => negb (p name) | None => false end
  || match exclude with Some p => p name | None => false end.

(** The loop of [print_includes] over the sorted names. *)
Fixpoint includes_loop (directory : string) (names : list string)
  (only exclude : pattern) (use_include : bool) : run unit :=
  match names with
  | [] => ret tt
  | f :: rest =>
      match rsplit_dot f with
      | None => lift (Raise ValueError)
      | Some (name, ext) =>
          _ <~ (if skipped only exclude name then ret tt
                else if String.eqb ext "tex"
                     then print (include_line use_include (path_join directory name))
                     else ret tt) ;;
          includes_loop directory rest only exclude use_include
      end
  end.

(** [print_includes(directory, only, exclude, use_include)]; [listing] is
    what the directory holds, [None] when it does not exist. *)
Definition print_includes (listing : option (list string)) (directory : string)
  (only exclude : pattern) (use_include : bool) : run unit :=
  match listing with
  | None => ret tt
  | Some names => includes_loop directory (sorted names) only exclude use_include
  end.

(** [main(dirs, use_include, exclude, only)], each directory given with
    its listing. *)
Fixpoint main (dirs : list (string * option (list string))) (use_include : bool)
  (exclude only : pattern) : run unit :=
  match dirs with
  | [] => ret tt
  | (d, listing) :: rest =>
      _ <~ print_includes listing d only exclude use_include ;;
      main rest use_include exclude only
  end.

End IncludeContent.

(** ** Notions used to state the properties *)

(** The order of the pipeline: [a] may come before [b]. *)
Definition desc (a b : Modifier) : Prop := (priority b <= priority a)%Z.

(** The two modifiers [main] always adds, the second with the default
    options. *)
Definition the_row_wrapper : Modifier := RowWrapper (cell_spans_all RowSpans).

Definition default_border : Modifier :=
  RowBorderWrapper (mkCellSpans RowSpans [Span.mk (Some 1%Z) None])
    true false "midrule".

(** A raw value of a row that is not empty once quoted. *)
Definition quoted_nonempty (v : option string) : bool :=
  nonempty (quote_value v).

(** A background color on every column: it makes every cell non-empty. *)
Definition red_everywhere : Modifier :=
  BackgroundColor (cell_spans_all ColSpans) (Some "red").

(** Python values, as far as the items a generator yields need them. *)
Inductive pyobj : Type :=
| PyStr (s : string)
| PyInt (n : Z)
| PyPair (a b : pyobj).

(** [enumerate(xs, i)] *)
Fixpoint enumerate_from {A} (i : Z) (xs : list A) : list (Z * A) :=
  match xs with
  | [] => []
  | x :: xs' => (i, x) :: enumerate_from (i + 1) xs'
  end.

(** What the specification says [filter] yields: the pairs of an index
    with its element, for the indices in the set. *)
Definition filter_pairs_spec {A} (s : Spans.t) (xs : list A) : list (Z * A) :=
  List.filter (fun p => Spans.contains s (fst p)) (enumerate_from 0 xs).

(** The tuple [(i, x)] as a value. *)
Definition pair_obj (p : Z * pyobj) : pyobj := PyPair (PyInt (fst p)) (snd p).

Definition not_dash (c : ascii) : bool := negb (Ascii.eqb c "-").

(** A non-empty run of decimal digits, short enough for [int]. *)
Definition index_text (s : string) : bool :=
  nonempty s && Str.all_chars Str.isdigit s
  && (String.length s <=? PyInt.max_str_digits)%nat.

(** [text] parses, and the span has exactly the members [P] describes. *)
Definition parses_to (text : string) (P : Z -> Prop) : Prop :=
  exists sp : Span.t,
    Span.parse text = Ok sp /\ forall i : Z, Span.contains sp i = true <-> P i.

(** The seven characters [quote] escapes. *)
Definition is_special (c : ascii) : bool := Str.mem_char c "%#&$_{}".

Definition not_backslash (c : ascii) : bool := negb (Ascii.eqb c "\").

(** A backslash before a special character, any other character as is. *)
Definition escape_char (c : ascii) : string :=
  if is_special c then String "\" (String c EmptyString)
  else String c EmptyString.

(** The text with each of its special characters escaped. *)
Fixpoint escape_each (s : string) : string :=
  match s with
  | EmptyString => EmptyString
  | String c s' => escape_char c ++ escape_each s'
  end.

(** Every [o] replaced by [new]: what [replace] does for a one-character
    pattern. *)
Fixpoint subst_char (o : ascii) (new : string) (s : string) : string :=
  match s with
  | EmptyString => EmptyString
  | String c s' =>
      (if Ascii.eqb c o then new else String c EmptyString) ++ subst_char o new s'
  end.

(** The first seven replacements of [quote]. *)
Definition escape7 (t : string) : string :=
  subst_char "}" "\}" (subst_char "{" "\{" (subst_char "_" "\_"
    (subst_char "$" "\$" (subst_char "&" "\&" (subst_char "#" "\#"
      (subst_char "%" "\%" t)))))).

(** The double quote, as a text. *)
Definition dq : string := String "034" EmptyString.

(** The input of the specification's example: the header [a,b], then the
    rows [1,"(5)"] and [2,10]. *)
Definition example_csv : string :=
  "a,b" ++ Re.nl ++ "1," ++ dq ++ "(5)" ++ dq ++ Re.nl ++ "2,10" ++ Re.nl.

(** The options [o] with [--col-modifier] given once for each of [ms]. *)
Definition with_col_modifiers (o : Options) (ms : list string) : Options :=
  {| path_name := path_name o; path_text := path_text o; rows := rows o;
     cols := cols o; start_at := start_at o; skip_cols := skip_cols o;
     row_modifiers := row_modifiers o; col_modifiers := ms;
     border_top := border_top o; border_mid := border_mid o;
     border_mid_cmd := border_mid_cmd o; border_bottom := border_bottom o;
     skip_headers := skip_headers o; template_func := template_func o |}.

(** The example's run: [--col-modifier "0:round:0"], all else default. *)
Definition example_options : Options :=
  with_col_modifiers (default_options "table.csv" example_csv) ["0:round:0"].

(** The lines of a text, each followed by a newline. *)
Definition unlines (ls : list string) : string :=
  String.concat EmptyString (map (fun l => l ++ Re.nl) ls).

(** The output the specification gives for the example, with the line
    terminator on the row's line, and with it on a line of its own. *)
Definition claimed_output_inline : string :=
  unlines ["1 & -5 \\"; "2 & 10 \\"; "\midrule"].

Definition claimed_output_split : string :=
  unlines ["1 & -5"; "\\"; "2 & 10"; "\\"; "\midrule"].

(** The modifier specs that [parse_modifier] rejects for one of the
    reasons the specification lists: a key that is not in the registry, a
    piece of the span text that [Span.parse] rejects, or an argument given
    to [bold] or [italic]. *)
Inductive bad_spec (m : string) : Prop :=
| bad_key (spans_text key : string) (rest : list string) :
    Str.splitn ":" 2 m = spans_text :: key :: rest ->
    registry_get key MODIFIERS = Raise KeyError ->
    bad_spec m
| bad_span (spans_text piece : string) (rest : list string) :
    Str.splitn ":" 2 m = spans_text :: rest ->
    In piece (Str.split "," spans_text) ->
    nonempty piece = true ->
    is_ok (Span.parse piece) = false ->
    bad_spec m
| bad_argument (spans_text key args : string) :
    Str.splitn ":" 2 m = [spans_text; key; args] ->
    key = "bold" \/ key = "italic" ->
    bad_spec m.


(** Entries of one priority keep the order they were configured in. *)
Definition same_priority (p : Z) (ws : list Modifier) : list Modifier :=
  List.filter (fun w => (priority w =? p)%Z) ws.

(** What ["0:round:0"] and ["0:fg:red"] parse to as column modifiers, and
    the pipeline [main] builds from them with the default options. *)
Definition example_round : Modifier :=
  RoundNumbers (mkCellSpans ColSpans [Span.mk (Some 0%Z) (Some 1%Z)]) 0 None.

Definition example_fg : Modifier :=
  TextColor (mkCellSpans ColSpans [Span.mk (Some 0%Z) (Some 1%Z)]) (Some "red").

Definition example_pipeline : list Modifier :=
  [example_round; example_fg; the_row_wrapper; default_border].

(** The example with a color and the rounding on column 0, the color
    given first. *)
Definition example_colored : Options :=
  with_col_modifiers (default_options "table.csv" example_csv)
    ["0:fg:red"; "0:round:0"].

(** A digit or a minus sign. *)
Definition plain_char (c : ascii) : bool := Str.isdigit c || Ascii.eqb c "-".

(** The digits [ds] after a minus sign, if [neg]. *)
Definition signed (neg : bool) (ds : string) : string :=
  (if neg then "-" else EmptyString) ++ ds.

(** Some character of [s] satisfies [p]. *)
Fixpoint any_char (p : ascii -> bool) (s : string) : bool :=
  match s with
  | EmptyString => false
  | String c s' => p c || any_char p s'
  end.

(** A character that no bound of a span text may hold: neither a digit,
    nor a sign, nor an underscore, nor white space. *)
Definition junk (c : ascii) : bool :=
  negb (Str.isdigit c || Str.isspace c || Ascii.eqb c "-" || Ascii.eqb c "+"
        || Ascii.eqb c "_").

(** Four backslashes before each character: what quoting a text of
    special characters twice makes of it. *)
Fixpoint escape_twice (s : string) : string :=
  match s with
  | EmptyString => EmptyString
  | String c s' => "\\\\" ++ String c (escape_twice s')
  end.

(** Two backslashes before each character. *)
Fixpoint backslash_pairs (s : string) : string :=
  match s with
  | EmptyString => EmptyString
  | String c s' => String "\" (String "\" (String c (backslash_pairs s')))
  end.

Definition not_colon (c : ascii) : bool := negb (Ascii.eqb c ":").

Definition not_newline (c : ascii) : bool := negb (Ascii.eqb c "010").

(** A modifier of one of the registered classes: neither of the two that
    [main] adds by itself. *)
Definition is_user (m : Modifier) : bool :=
  match m with
  | RowBorderWrapper _ _ _ _ | RowWrapper _ => false
  | _ => true
  end.

(** The rule [RowBorderWrapper] puts before a row it covers. *)
Definition rule_before (border : Modifier) (row : Z) : string :=
  match border with
  | RowBorderWrapper s true _ cmd =>
      if cell_in (Some row, None) s then "\" ++ cmd ++ Re.nl else EmptyString
  | _ => EmptyString
  end.

(** The end [RowWrapper] puts after a row's text. *)
Definition row_end (value : string) : string :=
  if nonempty value then value ++ Re.nl ++ "\\" ++ Re.nl else "\\" ++ Re.nl.

(** The quotient of [c] by [p], rounded as [mode] says. *)
Definition round_spec (mode : Dec.rounding) (c p : Z) : Z :=
  match mode with
  | Dec.ROUND_DOWN => (c / p)%Z
  | Dec.ROUND_HALF_EVEN => Dec.half_even_div c p
  end.

(** The coefficient of [c * 10^e] at [d] decimal places: zeros are added
    where it has fewer places, and it is rounded where it has more. *)
Definition places (mode : Dec.rounding) (c e d : Z) : Z :=
  if (- d <=? e)%Z then (c * 10 ^ (e + d))%Z
  else round_spec mode c (10 ^ (- d - e)).

(** The rounding a [round] modifier uses for non-negative decimals. *)
Definition mode_of (rounding : option Dec.rounding) : Dec.rounding :=
  match rounding with
  | Some m => m
  | None => Dec.ROUND_HALF_EVEN
  end.

(** The row template of a run without [--template]. *)
Definition default_template : template :=
  fun values has_value => Ok (simple_row values has_value).

(** The first day of the month of index [i], counted from year 0. *)
Definition first_of_month (i : Z) : PrepareData.date :=
  PrepareData.mkDate (i / 12) (i mod 12 + 1) 1.

(** The [n] integers from [a] on. *)
Fixpoint zrange (a : Z) (n : nat) : list Z :=
  match n with
  | O => []
  | S k => a :: zrange (a + 1) k
  end.

(** The months whose number, less one, is a multiple of the frequency. *)
Definition on_tick (frequency : positive) (i : Z) : bool :=
  ((i mod 12) mod Z.pos frequency =? 0)%Z.

(** The text of a filter for the column [k] and the value [v]. *)
Definition key_colon_value (kv : string * string) : string :=
  fst kv ++ ":" ++ snd kv.

(** The row has the column [k], and its value there is [v]. *)
Definition holds (row : Csv.pydict) (kv : string * string) : bool :=
  match Csv.dict_get (fst kv) row with
  | Ok (Some x) => String.eqb x (snd kv)
  | _ => false
  end.

Definition colon_free (kv : string * string) : bool :=
  Str.all_chars not_colon (fst kv) && Str.all_chars not_colon (snd kv).

Definition has_column (row : Csv.pydict) (kv : string * string) : bool :=
  is_ok (Csv.dict_get (fst kv) row).

(** Neither a space nor an underscore. *)
Definition header_char (c : ascii) : bool :=
  negb (Ascii.eqb c " ") && negb (Ascii.eqb c "_").

(** A character that the two quoting functions treat alike: none of
    [$ _ { }] and the backslash. *)
Definition tame (c : ascii) : bool := negb (Str.mem_char c "$_{}\").

Definition not_point (c : ascii) : bool := negb (Ascii.eqb c ".").

(** What [print_includes] writes for one directory entry that has a
    point: a line for a kept [.tex] file, nothing for any other. *)
Definition include_of (directory : string) (only exclude : IncludeContent.pattern)
  (use_include : bool) (f : string) : string :=
  match IncludeContent.rsplit_dot f with
  | Some (name, ext) =>
      if IncludeContent.skipped only exclude name then EmptyString
      else if String.eqb ext "tex"
           then IncludeContent.include_line use_include
                  (IncludeContent.path_join directory name)
           else EmptyString
  | None => EmptyString
  end.


(** Three rows of one column, the second with a value [Decimal] does not
    read, and the pipeline that rounds that column. *)
Definition row_of (v : string) : Csv.pydict := [("a", Some v)].

(** The three replacements of [quote_value], one character at a time. *)
Definition escape3 (t : string) : string :=
  subst_char "&" "\&" (subst_char "#" "\#" (subst_char "%" "\%" t)).

(** The delimiter [print_table] chooses from the file's name. *)
Definition delimiter_of (name : string) : ascii :=
  if Str.endswith ".tsv" name then "009"%char else ","%char.

(** Whether [keeprow] keeps the row, without the exception. *)
Definition keeps (filters excludes : list string) (row : Csv.pydict) : bool :=
  match PrepareData.keeprow row filters excludes with
  | Ok b => b
  | Raise _ => false
  end.

Definition dash_or_space (c : ascii) : bool := Str.mem_char c "- ".

Definition first_char (s : string) : option ascii :=
  match s with
  | EmptyString => None
  | String c _ => Some c
  end.

Fixpoint last_char (s : string) : option ascii :=
  match s with
  | EmptyString => None
  | String c EmptyString => Some c
  | String _ s' => last_char s'
  end.

Definition plain_end (o : option ascii) : bool :=
  match o with
  | Some c => negb (dash_or_space c)
  | None => false
  end.

(** An item of a list cell: not empty, on one line, with neither a dash
    nor a space at its ends. *)
Definition is_item (x : string) : bool :=
  Str.all_chars not_newline x && plain_end (first_char x) && plain_end (last_char x).

(** The text of a list cell: every item on a line of its own, after a
    dash. *)
Definition list_text (items : list string) : string :=
  "- " ++ Str.join (Re.nl ++ "- ") items.

(** The environment with one [\item] line for each item. *)
Definition list_markup (items : list string) : string :=
  Str.join Re.nl
    (("\begin{tabitemize}" :: map (fun x => ("\item " ++ x)%string) items)
     ++ ["\end{tabitemize}"])%list.

(** The calls of [apply] that the loop over the pipeline makes on one
    cell, in order: each modifier that covers the cell, with the value it
    is applied to.  A call that raises is the last one. *)
Fixpoint apply_calls (ws : list Modifier) (cell : coord) (value : string)
  : list (Modifier * string) :=
  match ws with
  | [] => []
  | w :: ws' =>
      if cell_in cell (spans w)
      then (w, value)
           :: match apply w value with
              | Ok v => apply_calls ws' cell v
              | Raise _ => []
              end
      else apply_calls ws' cell value
  end.






(** The [n] low-order decimal digits of [c]. *)
Fixpoint last_digits (n : nat) (c : Z) : string :=
  match n with
  | O => EmptyString
  | S k => last_digits k (c / 10) ++ String (Dec.digit_char (c mod 10)) EmptyString
  end.

(** The number [c / 10^d] in positional notation with exactly [d]
    decimal places: the sign, the integer part, and after a point (if
    [0 < d]) the [d] digits of the fraction. *)
Definition fixed_point (neg : bool) (c d : Z) : string :=
  (if neg then "-" else EmptyString) ++ Dec.digits (c / 10 ^ d)
  ++ (if (d =? 0)%Z then EmptyString
      else "." ++ last_digits (Z.to_nat d) c).

(** [str] of the number [c * 10^-d]: positional notation while the number
    of its digits is above [d - 6], as for [d] up to 6, and the scientific
    notation of [Decimal] below that. *)
Definition printed (neg : bool) (c d : Z) : string :=
  if (d - 6 <? Z.of_nat (String.length (Dec.digits c)))%Z
  then fixed_point neg c d
  else Dec.to_str (Dec.mk neg c (- d)).

(** The text with a space for each of its newlines. *)
Fixpoint newlines_to_spaces (s : string) : string :=
  match s with
  | EmptyString => EmptyString
  | String c s' =>
      String (if Ascii.eqb c "010" then " "%char else c) (newlines_to_spaces s')
  end.

(** The characters of [s] that satisfy [p], in order. *)
Fixpoint keep_chars (p : ascii -> bool) (s : string) : string :=
  match s with
  | EmptyString => EmptyString
  | String c s' => if p c then String c (keep_chars p s') else keep_chars p s'
  end.

(** * Properties *)

(** ** The sort of the pipeline *)

Lemma insert_desc_perm (w : Modifier) (l : list Modifier) :
  Permutation (w :: l) (insert_desc w l).
Proof.
  induction l as [|x l IH]; simpl.
  - apply Permutation_refl.
  - destruct (priority w <? priority x)%Z.
    + eapply perm_trans; [apply perm_swap|].
      apply perm_skip, IH.
    + apply Permutation_refl.
Qed.

Lemma sort_wrappers_perm (ws : list Modifier) :
  Permutation ws (sort_wrappers ws).
Proof.
  induction ws as [|w ws IH]; simpl.
  - constructor.
  - eapply perm_trans; [apply perm_skip, IH|].
    apply insert_desc_perm.
Qed.

Lemma insert_desc_sorted (w : Modifier) (l : list Modifier) :
  StronglySorted desc l -> StronglySorted desc (insert_desc w l).
Proof.
  induction l as [|x l IH]; simpl; intros Hs.
  - constructor; constructor.
  - inversion Hs as [|? ? Hl Hx]; subst.
    destruct (priority w <? priority x)%Z eqn:E.
    + apply Z.ltb_lt in E.
      constructor; [apply IH, Hl|].
      apply Forall_forall. intros y Hy.
      apply (Permutation_in _ (Permutation_sym (insert_desc_perm w l))) in Hy.
      destruct Hy as [<-|Hy].
      * unfold desc. lia.
      * rewrite Forall_forall in Hx. apply Hx, Hy.
    + apply Z.ltb_ge in E.
      constructor; [exact Hs|].
      constructor; [exact E|].
      rewrite Forall_forall in Hx |- *.
      intros y Hy. specialize (Hx y Hy). unfold desc in *. lia.
Qed.

Lemma sort_wrappers_sorted (ws : list Modifier) :
  StronglySorted desc (sort_wrappers ws).
Proof.
  induction ws as [|w ws IH]; simpl.
  - constructor.
  - apply insert_desc_sorted, IH.
Qed.

(** ** The row terminator *)

Lemma build_wrappers_has_row_wrapper (o : Options) (ws : list Modifier) :
  build_wrappers o = Ok ws -> In the_row_wrapper ws.
Proof.
  unfold build_wrappers. intros H.
  destruct (match truthy (border_top o) with
            | Some v => cell_spans_parse RowSpans v
            | None => Ok (mkCellSpans RowSpans [Span.mk (Some 1%Z) None])
            end) as [bs|]; cbn [bind] in H; [|discriminate].
  destruct (mapM (fun m => parse_modifier m RowSpans) (row_modifiers o))
    as [rs|]; cbn [bind] in H; [|discriminate].
  destruct (mapM (fun m => parse_modifier m ColSpans) (col_modifiers o))
    as [cs|]; cbn [bind] in H; [|discriminate].
  injection H as <-.
  apply (Permutation_in the_row_wrapper
           (sort_wrappers_perm
              (RowBorderWrapper bs (border_mid o) false (border_mid_cmd o)
               :: the_row_wrapper :: (rs ++ cs)%list))).
  right. left. reflexivity.
Qed.

(** C9.  The row wrapper that [main] always puts in the pipeline covers
    every row, and its row-level hook returns the row's text followed by a
    newline, the line terminator and a newline when the text is not empty,
    the bare line terminator and a newline when it is (as for the default
    row of cells that are all empty); the result is never the empty
    string. *)
Theorem RowWrapper_terminates_every_row :
  forall (o : Options) (ws : list Modifier) (row : Z) (value : string),
    build_wrappers o = Ok ws ->
    In the_row_wrapper ws
    /\ wrap_row the_row_wrapper row value
       = match value with
         | EmptyString => "\\" ++ Re.nl
         | String _ _ => value ++ Re.nl ++ "\\" ++ Re.nl
         end
    /\ wrap_row the_row_wrapper row value <> EmptyString
    /\ (forall values : list string,
          wrap_row the_row_wrapper row (simple_row values false)
          = "\\" ++ Re.nl).
Proof.
  intros o ws row value H.
  split; [eapply build_wrappers_has_row_wrapper; eauto|].
  destruct value as [|c v]; simpl.
  - repeat split; [discriminate].
  - repeat split; [discriminate].
Qed.

Lemma RowWrapper_terminates_every_row_witness :
  In the_row_wrapper [the_row_wrapper; default_border]
  /\ wrap_row the_row_wrapper 3 "1 & 2" = "1 & 2" ++ Re.nl ++ "\\" ++ Re.nl
  /\ wrap_row the_row_wrapper 3 "1 & 2" <> EmptyString
  /\ (forall values : list string,
        wrap_row the_row_wrapper 3 (simple_row values false) = "\\" ++ Re.nl).
Proof.
  apply (RowWrapper_terminates_every_row (default_options "t.csv" "a")
           [the_row_wrapper; default_border] 3 "1 & 2").
  reflexivity.
Defined.

(** ** The [has_value] flag *)

Lemma cells_loop_flag (ws : list Modifier) (row : Z) :
  forall (data : list (option string)) (col : Z) (values : list string)
         (flag : bool) (values' : list string) (flag' : bool),
    cells_loop row col data ws values flag = Ok (values', flag') ->
    flag' = flag || existsb quoted_nonempty data.
Proof.
  induction data as [|raw rest IH]; intros col values flag values' flag' H.
  - simpl in H. injection H as _ <-. simpl. now rewrite orb_false_r.
  - simpl in H.
    destruct (wrap_cell ws (Some row, Some col) (quote_value raw)) as [c|];
      cbn [bind] in H; [|discriminate].
    apply IH in H. rewrite H. simpl. unfold quoted_nonempty at 2.
    destruct (nonempty (quote_value raw)); simpl.
    + now rewrite orb_true_r.
    + reflexivity.
Qed.

(** C10.  Whenever [print_row] reaches the row template, the flag it
    passes is true exactly when one of the row's raw values, once quoted,
    is not empty; the pipeline of modifiers has no part in it. *)
Theorem has_value_flag_ignores_modifiers :
  forall (row : Z) (data : Csv.pydict) (cols : list string)
         (wrappers : list Modifier) (values : list string) (flag : bool),
    row_cells row data cols wrappers = Ok (values, flag) ->
    exists raw : list (option string),
      mapM (fun k => Csv.dict_get k data) cols = Ok raw
      /\ flag = existsb quoted_nonempty raw
      /\ forall tpl : template,
           print_row row data cols wrappers tpl
           = (value <~ lift (tpl values flag) ;;
              print (wrap_rows wrappers row value)).
Proof.
  intros row data cols wrappers values flag H.
  unfold row_cells in H.
  destruct (mapM (fun k => Csv.dict_get k data) cols) as [raw|] eqn:E;
    cbn [bind] in H; [|discriminate].
  exists raw. split; [reflexivity|]. split.
  - apply cells_loop_flag in H. exact H.
  - intros tpl. unfold print_row, row_cells. rewrite E. cbn [bind].
    rewrite H. reflexivity.
Qed.

Lemma has_value_flag_ignores_modifiers_witness :
  exists raw : list (option string),
    mapM (fun k => Csv.dict_get k [("a", Some EmptyString); ("b", Some " ")]) ["a"; "b"]
    = Ok raw
    /\ false = existsb quoted_nonempty raw
    /\ forall tpl : template,
         print_row 0 [("a", Some EmptyString); ("b", Some " ")] ["a"; "b"]
           [red_everywhere] tpl
         = (value <~ lift (tpl ["\cellcolor{red}"; "\cellcolor{red}"] false) ;;
            print (wrap_rows [red_everywhere] 0 value)).
Proof.
  apply (has_value_flag_ignores_modifiers 0
           [("a", Some EmptyString); ("b", Some " ")] ["a"; "b"] [red_everywhere]
           ["\cellcolor{red}"; "\cellcolor{red}"] false).
  reflexivity.
Defined.

(** ** [Spans.filter] *)

Lemma filter_from_nth {A} (s : Spans.t) (d : A) :
  forall (xs : list A) (k : nat),
    Spans.filter_from s (Z.of_nat k) xs
    = map (fun i => nth (i - k) xs d)
        (List.filter (fun i => Spans.contains s (Z.of_nat i))
                     (seq k (List.length xs))).
Proof.
  induction xs as [|x xs IH]; intros k; simpl.
  - reflexivity.
  - replace (Z.of_nat k + 1)%Z with (Z.of_nat (S k)) by lia.
    rewrite IH.
    assert (Hmap : forall l, Forall (fun i => S k <= i)%nat l ->
              map (fun i => nth (i - S k) xs d) l
              = map (fun i => nth (i - k) (x :: xs) d) l).
    { intros l Hl. apply map_ext_in. intros i Hi.
      rewrite Forall_forall in Hl. specialize (Hl i Hi).
      replace (i - k)%nat with (S (i - S k)) by lia. reflexivity. }
    assert (Hge : Forall (fun i => S k <= i)%nat
              (List.filter (fun i => Spans.contains s (Z.of_nat i))
                           (seq (S k) (List.length xs)))).
    { apply Forall_forall. intros i Hi. apply filter_In in Hi.
      destruct Hi as [Hi _]. apply in_seq in Hi. lia. }
    destruct (Spans.contains s (Z.of_nat k)); simpl.
    + rewrite Nat.sub_diag. f_equal. apply Hmap, Hge.
    + apply Hmap, Hge.
Qed.

Lemma filter_from_pairs {A} (s : Spans.t) :
  forall (xs : list A) (i : Z),
    Spans.filter_from s i xs
    = map snd (List.filter (fun p => Spans.contains s (fst p))
                           (enumerate_from i xs)).
Proof.
  induction xs as [|x xs IH]; intros i; simpl.
  - reflexivity.
  - rewrite IH. destruct (Spans.contains s i); reflexivity.
Qed.

(** C2, as amended.  [filter] yields the elements [xs[i]] themselves, not
    pairs: exactly those whose index [i], counted from 0, is in the set, in
    increasing order of [i]; they are the second components of the pairs
    the specification describes. *)
Theorem Spans_filter_yields_elements :
  forall (A : Type) (d : A) (s : Spans.t) (xs : list A),
    Spans.filter s xs
    = map (fun i => nth i xs d)
        (List.filter (fun i => Spans.contains s (Z.of_nat i))
                     (seq 0 (List.length xs)))
    /\ Spans.filter s xs = map snd (filter_pairs_spec s xs).
Proof.
  intros A d s xs. split.
  - unfold Spans.filter. change 0%Z with (Z.of_nat 0).
    rewrite (filter_from_nth s d xs 0).
    apply map_ext. intros i. now rewrite Nat.sub_0_r.
  - apply filter_from_pairs.
Qed.

(** C2, as stated, fails: on the one-element sequence ["a"] the set of all
    indices yields the string itself, while the claim asks for the pair
    [(0, "a")]. *)
Lemma Spans_filter_not_pairs :
  Spans.filter Spans.all [PyStr "a"] = [PyStr "a"]
  /\ Spans.filter Spans.all [PyStr "a"]
     <> map pair_obj (filter_pairs_spec Spans.all [PyStr "a"]).
Proof.
  split; [reflexivity|]. vm_compute. discriminate.
Qed.

(** ** Texts of digits *)

Lemma isdigit_facts (c : ascii) :
  Str.isdigit c = true ->
  Str.isspace c = false /\ Ascii.eqb c "-" = false /\ Ascii.eqb c "+" = false
  /\ Ascii.eqb c "_" = false /\ Ascii.eqb c "(" = false
  /\ (0 <= PyInt.digit_val c <= 9)%Z.
Proof.
  destruct c as [[] [] [] [] [] [] [] []]; vm_compute; intros H;
    try discriminate H; repeat split; discriminate.
Qed.

Lemma lstrip_by_first (p : ascii -> bool) (c : ascii) (s : string) :
  p c = false -> Str.lstrip_by p (String c s) = String c s.
Proof. intros H. simpl. now rewrite H. Qed.

Lemma rstrip_by_none (p : ascii -> bool) (s : string) :
  Str.all_chars (fun c => negb (p c)) s = true -> Str.rstrip_by p s = s.
Proof.
  induction s as [|c s IH]; simpl; intros H; [reflexivity|].
  apply andb_true_iff in H. destruct H as [Hc Hs].
  rewrite (IH Hs). apply negb_true_iff in Hc. rewrite Hc.
  now rewrite andb_false_r.
Qed.

Lemma all_chars_impl (p q : ascii -> bool) (s : string) :
  (forall c, p c = true -> q c = true) ->
  Str.all_chars p s = true -> Str.all_chars q s = true.
Proof.
  intros Hpq. induction s as [|c s IH]; simpl; [easy|].
  intros H. apply andb_true_iff in H. destruct H as [Hc Hs].
  now rewrite (Hpq c Hc), (IH Hs).
Qed.

Lemma strip_digits (s : string) :
  Str.all_chars Str.isdigit s = true -> Str.strip s = s.
Proof.
  intros H. unfold Str.strip.
  assert (Hl : Str.lstrip_by Str.isspace s = s).
  { destruct s as [|c s]; [reflexivity|]. simpl in H.
    apply andb_true_iff in H. destruct H as [Hc _].
    apply lstrip_by_first. now apply isdigit_facts. }
  rewrite Hl. apply rstrip_by_none.
  eapply all_chars_impl; [|exact H].
  intros c Hc. apply negb_true_iff. now apply isdigit_facts.
Qed.

Lemma int_space_is_space (c : ascii) :
  PyInt.isspace c = true -> Str.isspace c = true.
Proof.
  destruct c as [[] [] [] [] [] [] [] []]; vm_compute; congruence.
Qed.

Lemma int_strip_digits (s : string) :
  Str.all_chars Str.isdigit s = true -> PyInt.strip s = s.
Proof.
  intros H. unfold PyInt.strip.
  assert (Hn : forall c, Str.isdigit c = true -> PyInt.isspace c = false).
  { intros c Hc. destruct (PyInt.isspace c) eqn:E; [|reflexivity].
    apply int_space_is_space in E. destruct (isdigit_facts c Hc) as (Hs & _).
    congruence. }
  assert (Hl : Str.lstrip_by PyInt.isspace s = s).
  { destruct s as [|c s]; [reflexivity|]. simpl in H.
    apply andb_true_iff in H. destruct H as [Hc _].
    apply lstrip_by_first. now apply Hn. }
  rewrite Hl. apply rstrip_by_none.
  eapply all_chars_impl; [|exact H].
  intros c Hc. apply negb_true_iff. now apply Hn.
Qed.

Lemma int_digits_value (s : string) :
  forall (acc : Z) (after_digit : bool),
    Str.all_chars Str.isdigit s = true ->
    after_digit || nonempty s = true ->
    PyInt.int_digits s acc after_digit = Some (PyInt.digits_value s acc).
Proof.
  induction s as [|c s IH]; intros acc b H Hb; simpl.
  - simpl in Hb. rewrite orb_false_r in Hb. now rewrite Hb.
  - simpl in H. apply andb_true_iff in H. destruct H as [Hc Hs].
    rewrite Hc. apply IH; [exact Hs|reflexivity].
Qed.

Lemma count_digits_le (s : string) :
  (PyInt.count_digits s <= String.length s)%nat.
Proof.
  induction s as [|c s IH]; simpl; [lia|].
  destruct (Str.isdigit c); lia.
Qed.

Lemma index_text_parts (s : string) :
  index_text s = true ->
  nonempty s = true /\ Str.all_chars Str.isdigit s = true
  /\ (String.length s <= PyInt.max_str_digits)%nat.
Proof.
  unfold index_text. intros H.
  apply andb_true_iff in H. destruct H as [H H3].
  apply andb_true_iff in H. destruct H as [H1 H2].
  apply Nat.leb_le in H3. auto.
Qed.

Lemma int_index_text (s : string) :
  index_text s = true -> PyInt.int s = Ok (PyInt.digits_value s 0).
Proof.
  intros H. apply index_text_parts in H. destruct H as (Hne & Hd & Hlen).
  unfold PyInt.int. rewrite (int_strip_digits s Hd).
  destruct s as [|c s]; [discriminate Hne|].
  assert (Hc : Str.isdigit c = true).
  { simpl in Hd. now apply andb_true_iff in Hd. }
  destruct (isdigit_facts c Hc) as (_ & Hm & Hp & _).
  unfold PyInt.split_sign. rewrite Hm, Hp.
  assert (Hcnt : (PyInt.max_str_digits <? PyInt.count_digits (String c s))%nat = false).
  { apply Nat.ltb_ge. pose proof (count_digits_le (String c s)). lia. }
  rewrite Hcnt.
  now rewrite (int_digits_value (String c s) 0 false Hd eq_refl).
Qed.

Lemma substring_all (s : string) : substring 0 (String.length s) s = s.
Proof. induction s as [|c s IH]; simpl; [reflexivity|now rewrite IH]. Qed.

Lemma prefix_dash (c : ascii) (s : string) :
  prefix "-" (String c s) = Ascii.eqb c "-".
Proof.
  cbn [prefix]. destruct (ascii_dec "-" c) as [<-|Hn].
  - now destruct s.
  - symmetry. apply Ascii.eqb_neq. congruence.
Qed.

Lemma partition_no_dash (s : string) :
  Str.all_chars not_dash s = true ->
  Str.partition "-" s = (s, EmptyString, EmptyString).
Proof.
  induction s as [|c s IH]; intros H; [reflexivity|].
  simpl in H. apply andb_true_iff in H. destruct H as [Hc Hs].
  cbn [Str.partition]. rewrite prefix_dash.
  apply negb_true_iff in Hc. rewrite Hc. now rewrite (IH Hs).
Qed.

Lemma partition_at_dash (a b : string) :
  Str.all_chars not_dash a = true ->
  Str.partition "-" (a ++ String "-" b) = (a, "-", b).
Proof.
  induction a as [|c a IH]; intros H.
  - cbn [append Str.partition]. rewrite prefix_dash, Ascii.eqb_refl.
    f_equal. cbn. rewrite Nat.sub_0_r. apply substring_all.
  - simpl in H. apply andb_true_iff in H. destruct H as [Hc Hs].
    cbn [append Str.partition]. rewrite prefix_dash.
    apply negb_true_iff in Hc. rewrite Hc.
    now rewrite (IH Hs).
Qed.

Lemma digits_no_dash (s : string) :
  Str.all_chars Str.isdigit s = true -> Str.all_chars not_dash s = true.
Proof.
  apply all_chars_impl. intros c Hc. unfold not_dash.
  apply negb_true_iff. now apply isdigit_facts.
Qed.

(** ** [Span.parse] *)

Lemma nonempty_append_l (a b : string) :
  nonempty a = true -> Str.is_empty (a ++ b) = false.
Proof. destruct a; [discriminate|reflexivity]. Qed.

Lemma Span_parse_single (a : string) :
  index_text a = true ->
  Span.parse a
  = Ok (Span.mk (Some (PyInt.digits_value a 0))
                (Some (PyInt.digits_value a 0 + 1)%Z)).
Proof.
  intros H. pose proof (index_text_parts a H) as (Hne & Hd & _).
  unfold Span.parse.
  replace (Str.is_empty a) with false
    by (destruct a; [discriminate Hne|reflexivity]).
  rewrite (partition_no_dash a (digits_no_dash a Hd)).
  rewrite Hne, (int_index_text a H). reflexivity.
Qed.

Lemma Span_parse_bounded (a b : string) :
  index_text a = true -> index_text b = true ->
  Span.parse (a ++ String "-" b)
  = Ok (Span.mk (Some (PyInt.digits_value a 0))
                (Some (PyInt.digits_value b 0 + 1)%Z)).
Proof.
  intros Ha Hb.
  pose proof (index_text_parts a Ha) as (Hne & Hd & _).
  pose proof (index_text_parts b Hb) as (Hne' & _ & _).
  unfold Span.parse.
  rewrite (nonempty_append_l a _ Hne).
  rewrite (partition_at_dash a b (digits_no_dash a Hd)).
  rewrite Hne, Hne', (int_index_text a Ha), (int_index_text b Hb).
  reflexivity.
Qed.

Lemma Span_parse_open_end (a : string) :
  index_text a = true ->
  Span.parse (a ++ "-") = Ok (Span.mk (Some (PyInt.digits_value a 0)) None).
Proof.
  intros Ha. pose proof (index_text_parts a Ha) as (Hne & Hd & _).
  unfold Span.parse.
  rewrite (nonempty_append_l a _ Hne).
  rewrite (partition_at_dash a EmptyString (digits_no_dash a Hd)).
  rewrite Hne, (int_index_text a Ha). reflexivity.
Qed.

Lemma Span_parse_open_start (b : string) :
  index_text b = true ->
  Span.parse (String "-" b)
  = Ok (Span.mk None (Some (PyInt.digits_value b 0 + 1)%Z)).
Proof.
  intros Hb. pose proof (index_text_parts b Hb) as (Hne & _ & _).
  unfold Span.parse. cbn [Str.is_empty].
  pose proof (partition_at_dash EmptyString b eq_refl) as Hp.
  cbn [append] in Hp. rewrite Hp.
  rewrite Hne, (int_index_text b Hb). reflexivity.
Qed.

(** C4, as amended.  With [a] and [b] runs of digits of values [n] and
    [m]: [i] is in [Span.parse("a")] iff [n <= i < n+1]; in
    [Span.parse("a-b")] iff [n <= i < m+1]; in [Span.parse("a-")] iff
    [n <= i]; and in [Span.parse("-b")] iff [i < m+1], with no lower bound
    (so for the indices from 0 on, iff [0 <= i < m+1]). *)
Theorem Span_parse_forms :
  forall a b : string,
    index_text a = true -> index_text b = true ->
    let n := PyInt.digits_value a 0 in
    let m := PyInt.digits_value b 0 in
    parses_to a (fun i => n <= i < n + 1)%Z
    /\ parses_to (a ++ "-" ++ b) (fun i => n <= i < m + 1)%Z
    /\ parses_to (a ++ "-") (fun i => n <= i)%Z
    /\ parses_to ("-" ++ b) (fun i => i < m + 1)%Z
    /\ (forall sp i, Span.parse ("-" ++ b) = Ok sp -> (0 <= i)%Z ->
          (Span.contains sp i = true <-> (0 <= i < m + 1)%Z)).
Proof.
  intros a b Ha Hb n m. unfold parses_to.
  split; [|split; [|split; [|split]]].
  - eexists. split; [apply (Span_parse_single a Ha)|].
    intros i. unfold Span.contains; simpl. fold n. lia.
  - eexists. split; [apply (Span_parse_bounded a b Ha Hb)|].
    intros i. unfold Span.contains; simpl. fold n m. lia.
  - eexists. split; [apply (Span_parse_open_end a Ha)|].
    intros i. unfold Span.contains; simpl. fold n. lia.
  - eexists. split; [apply (Span_parse_open_start b Hb)|].
    intros i. unfold Span.contains; simpl. fold m. lia.
  - intros sp i Hp Hi. change ("-" ++ b) with (String "-" b) in Hp.
    rewrite (Span_parse_open_start b Hb) in Hp. injection Hp as <-.
    unfold Span.contains; simpl. fold m. lia.
Qed.

Lemma Span_parse_forms_witness :
  parses_to "2" (fun i => 2 <= i < 2 + 1)%Z
  /\ parses_to "2-4" (fun i => 2 <= i < 4 + 1)%Z
  /\ parses_to "2-" (fun i => 2 <= i)%Z
  /\ parses_to "-4" (fun i => i < 4 + 1)%Z
  /\ (forall sp i, Span.parse "-4" = Ok sp -> (0 <= i)%Z ->
        (Span.contains sp i = true <-> (0 <= i < 4 + 1)%Z)).
Proof.
  apply (Span_parse_forms "2" "4"); reflexivity.
Defined.

(** The instance the specification lists: [Span.parse("2-4")] holds 2, 3
    and 4, and neither 1 nor 5. *)
Lemma Span_parse_2_4 :
  exists sp : Span.t,
    Span.parse "2-4" = Ok sp
    /\ map (Span.contains sp) [1; 2; 3; 4; 5]%Z = [false; true; true; true; false].
Proof. eexists. split; reflexivity. Qed.

(** C4, as stated, fails on the form [-b]: the span of ["-3"] has no lower
    bound, so it holds -1, which [0 <= i < 3+1] excludes. *)
Lemma Span_parse_open_start_holds_negative :
  (exists sp : Span.t,
     Span.parse "-3" = Ok sp /\ Span.contains sp (-1) = true)
  /\ ~ parses_to "-3" (fun i => 0 <= i < 3 + 1)%Z.
Proof.
  split.
  - eexists. split; reflexivity.
  - intros (sp & Hp & Hi).
    vm_compute in Hp. injection Hp as <-.
    specialize (Hi (-1)%Z). destruct Hi as [Hi _].
    specialize (Hi eq_refl). lia.
Qed.

(** ** [quote] *)

Lemma prefix_cons (o c : ascii) (p s : string) :
  prefix (String o p) (String c s) = Ascii.eqb c o && prefix p s.
Proof.
  cbn [prefix]. destruct (ascii_dec o c) as [<-|Hn].
  - now rewrite Ascii.eqb_refl.
  - replace (Ascii.eqb c o) with false; [reflexivity|].
    symmetry. apply Ascii.eqb_neq. congruence.
Qed.

Lemma append_assoc (x y z : string) : (x ++ y) ++ z = x ++ (y ++ z).
Proof. induction x as [|c x IH]; [reflexivity|]. simpl. now rewrite IH. Qed.

Lemma append_empty_r (x : string) : x ++ EmptyString = x.
Proof. induction x as [|c x IH]; [reflexivity|]. simpl. now rewrite IH. Qed.

Lemma prefix_empty (s : string) : prefix EmptyString s = true.
Proof. now destruct s. Qed.

Lemma replace_one_char (o : ascii) (new s : string) :
  Str.replace (String o EmptyString) new s = subst_char o new s.
Proof.
  unfold Str.replace. induction s as [|c s IH]; [reflexivity|].
  cbn [Str.replace_go subst_char]. rewrite prefix_cons.
  cbn [String.length Nat.sub]. rewrite prefix_empty, andb_true_r.
  destruct (Ascii.eqb c o); rewrite IH; reflexivity.
Qed.

Lemma subst_char_app (o : ascii) (new x y : string) :
  subst_char o new (x ++ y) = subst_char o new x ++ subst_char o new y.
Proof.
  induction x as [|c x IH]; [reflexivity|].
  cbn [append subst_char]. rewrite IH.
  destruct (Ascii.eqb c o); cbn [append].
  - now rewrite append_assoc.
  - reflexivity.
Qed.

Lemma escape7_app (x y : string) : escape7 (x ++ y) = escape7 x ++ escape7 y.
Proof. unfold escape7. now rewrite !subst_char_app. Qed.

Lemma escape7_char (c : ascii) :
  escape7 (String c EmptyString) = escape_char c.
Proof. destruct c as [[] [] [] [] [] [] [] []]; reflexivity. Qed.

Lemma escape7_each (s : string) : escape7 s = escape_each s.
Proof.
  induction s as [|c s IH]; [reflexivity|].
  change (String c s) with (String c EmptyString ++ s).
  rewrite escape7_app, escape7_char, IH. reflexivity.
Qed.

Lemma escape_chain_each (t : string) :
  escape_chain t = Str.replace "\\" "\\\\" (escape_each t).
Proof.
  unfold escape_chain. rewrite !replace_one_char.
  fold (escape7 t). now rewrite escape7_each.
Qed.

Lemma special_facts (c : ascii) :
  is_special c = true ->
  Str.isspace c = false /\ Ascii.eqb c "\" = false.
Proof.
  destruct c as [[] [] [] [] [] [] [] []]; vm_compute; intros H;
    try discriminate H; split; reflexivity.
Qed.

Lemma alnum_facts (c : ascii) :
  Str.isalnum c = true ->
  Str.isspace c = false /\ Ascii.eqb c "\" = false /\ is_special c = false.
Proof.
  destruct c as [[] [] [] [] [] [] [] []]; vm_compute; intros H;
    try discriminate H; repeat split; reflexivity.
Qed.

Lemma lstrip_by_none (p : ascii -> bool) (s : string) :
  Str.all_chars (fun c => negb (p c)) s = true -> Str.lstrip_by p s = s.
Proof.
  destruct s as [|c s]; [reflexivity|]. simpl. intros H.
  apply andb_true_iff in H. destruct H as [Hc _].
  apply negb_true_iff in Hc. now rewrite Hc.
Qed.

Lemma strip_none (s : string) :
  Str.all_chars (fun c => negb (Str.isspace c)) s = true -> Str.strip s = s.
Proof.
  intros H. unfold Str.strip. rewrite (lstrip_by_none _ s H).
  now apply rstrip_by_none.
Qed.

Lemma lstrip_by_all (p : ascii -> bool) (s : string) :
  Str.all_chars p s = true -> Str.lstrip_by p s = EmptyString.
Proof.
  induction s as [|c s IH]; [reflexivity|]. simpl. intros H.
  apply andb_true_iff in H. destruct H as [Hc Hs]. rewrite Hc. now apply IH.
Qed.

Lemma all_chars_lstrip (p q : ascii -> bool) (s : string) :
  Str.all_chars p s = true -> Str.all_chars p (Str.lstrip_by q s) = true.
Proof.
  induction s as [|c s IH]; [easy|]. intros H. simpl.
  destruct (q c); [|exact H].
  simpl in H. apply andb_true_iff in H. now apply IH.
Qed.

Lemma all_chars_rstrip (p q : ascii -> bool) (s : string) :
  Str.all_chars p s = true -> Str.all_chars p (Str.rstrip_by q s) = true.
Proof.
  induction s as [|c s IH]; [easy|]. intros H. simpl.
  simpl in H. apply andb_true_iff in H. destruct H as [Hc Hs].
  destruct (Str.is_empty (Str.rstrip_by q s) && q c); [reflexivity|].
  simpl. now rewrite Hc, (IH Hs).
Qed.

Lemma all_chars_strip (p : ascii -> bool) (s : string) :
  Str.all_chars p s = true -> Str.all_chars p (Str.strip s) = true.
Proof. intros H. now apply all_chars_rstrip, all_chars_lstrip. Qed.

Lemma all_chars_app (p : ascii -> bool) (x y : string) :
  Str.all_chars p (x ++ y) = Str.all_chars p x && Str.all_chars p y.
Proof.
  induction x as [|c x IH]; [reflexivity|]. simpl. now rewrite IH, andb_assoc.
Qed.

Lemma escape_each_app (x y : string) :
  escape_each (x ++ y) = escape_each x ++ escape_each y.
Proof.
  induction x as [|c x IH]; [reflexivity|].
  cbn [append escape_each]. rewrite IH. now rewrite append_assoc.
Qed.

Lemma replace_backslashes_none (s : string) :
  Str.all_chars not_backslash s = true ->
  Str.replace "\\" "\\\\" (escape_each s) = escape_each s.
Proof.
  unfold Str.replace. induction s as [|c s IH]; intros H; [reflexivity|].
  simpl in H. apply andb_true_iff in H. destruct H as [Hc Hs].
  apply negb_true_iff in Hc. specialize (IH Hs).
  cbn [escape_each]. unfold escape_char.
  destruct (is_special c); cbn [append Str.replace_go].
  - rewrite !prefix_cons, Hc, Ascii.eqb_refl. cbn [andb]. now rewrite IH.
  - rewrite prefix_cons, Hc. cbn [andb]. now rewrite IH.
Qed.

Lemma quote_general (text : string) :
  quote text = Str.replace "\\" "\\\\" (escape_each (Str.strip text)).
Proof.
  unfold quote. destruct text as [|c t]; [reflexivity|].
  cbn [Str.is_empty]. apply escape_chain_each.
Qed.

Lemma quote_no_backslash (text : string) :
  Str.all_chars not_backslash text = true ->
  quote text = escape_each (Str.strip text).
Proof.
  intros H. rewrite quote_general.
  apply replace_backslashes_none, all_chars_strip, H.
Qed.

Lemma escape_each_plain (s : string) :
  Str.all_chars (fun c => negb (is_special c)) s = true -> escape_each s = s.
Proof.
  induction s as [|c s IH]; [reflexivity|]. simpl. intros H.
  apply andb_true_iff in H. destruct H as [Hc Hs].
  apply negb_true_iff in Hc. unfold escape_char. rewrite Hc.
  cbn [append]. now rewrite (IH Hs).
Qed.

Lemma quote_special (a : string) :
  Str.all_chars is_special a = true -> quote a = escape_each a.
Proof.
  intros H. rewrite quote_no_backslash.
  - rewrite strip_none; [reflexivity|].
    eapply all_chars_impl; [|exact H].
    intros c Hc. apply negb_true_iff. now apply special_facts.
  - eapply all_chars_impl; [|exact H].
    intros c Hc. unfold not_backslash. apply negb_true_iff.
    now apply special_facts.
Qed.

(** C6.  [quote] strips the text, puts a backslash before each of
    [% # & $ _ { }] and leaves every other character as it is, then turns
    each pair of backslashes into four; without a backslash in the text
    this last step changes nothing.  White space only (and the empty text)
    gives the empty text, letters and digits are untouched, and on texts
    made of the seven escaped characters [quote] distributes over
    concatenation. *)
Theorem quote_escapes_and_distributes :
  forall text ws w a b : string,
    Str.all_chars Str.isspace ws = true ->
    Str.all_chars Str.isalnum w = true ->
    Str.all_chars is_special a = true ->
    Str.all_chars is_special b = true ->
    quote text = Str.replace "\\" "\\\\" (escape_each (Str.strip text))
    /\ (Str.all_chars not_backslash text = true ->
        quote text = escape_each (Str.strip text))
    /\ quote ws = EmptyString
    /\ quote w = w
    /\ quote (a ++ b) = quote a ++ quote b.
Proof.
  intros text ws w a b Hws Hw Ha Hb.
  split; [apply quote_general|].
  split; [apply quote_no_backslash|].
  split; [|split].
  - rewrite quote_general. unfold Str.strip.
    now rewrite (lstrip_by_all _ ws Hws).
  - rewrite quote_no_backslash.
    + rewrite strip_none.
      * apply escape_each_plain. eapply all_chars_impl; [|exact Hw].
        intros c Hc. apply negb_true_iff. now apply alnum_facts.
      * eapply all_chars_impl; [|exact Hw].
        intros c Hc. apply negb_true_iff. now apply alnum_facts.
    + eapply all_chars_impl; [|exact Hw].
      intros c Hc. unfold not_backslash. apply negb_true_iff.
      now apply alnum_facts.
  - rewrite (quote_special a Ha), (quote_special b Hb).
    rewrite quote_special; [apply escape_each_app|].
    now rewrite all_chars_app, Ha, Hb.
Qed.

Lemma quote_escapes_and_distributes_witness :
  quote "a\\b" = Str.replace "\\" "\\\\" (escape_each (Str.strip "a\\b"))
  /\ (Str.all_chars not_backslash "a\\b" = true ->
      quote "a\\b" = escape_each (Str.strip "a\\b"))
  /\ quote "  " = EmptyString
  /\ quote "x9" = "x9"
  /\ quote ("%#" ++ "&_") = quote "%#" ++ quote "&_".
Proof.
  apply (quote_escapes_and_distributes "a\\b" "  " "x9" "%#" "&_");
    reflexivity.
Defined.

(** The instances the specification lists. *)
Lemma quote_examples :
  quote "50% & 3#" = "50\% \& 3\#"
  /\ quote "a\\b" = "a\\\\b"
  /\ quote "%#&$_{}" = "\%\#\&\$\_\{\}".
Proof. repeat split; reflexivity. Qed.

(** ** [round] on values that are not numbers *)

(** C7, as amended.  A value in parentheses is first rewritten with a
    leading minus sign; if what results does not match the pattern of
    [round], applying the modifier never raises: a value whose stripped
    form is [...] gives the ellipsis command in a brace group, any other
    gives the (rewritten) value in a brace group, and a value that is not
    in parentheses is not rewritten. *)
Theorem round_wraps_non_numeric :
  forall (s : CellSpans) (decimals : Z) (rounding : option Dec.rounding)
         (value : string),
    Re.match_anchored round_pattern (unparen value) = false ->
    apply (RoundNumbers s decimals rounding) value
    = Ok (if String.eqb (Str.strip (unparen value)) "..."
          then "{\dots}" else "{" ++ unparen value ++ "}")
    /\ (Str.startswith "(" value && Str.endswith ")" value = false ->
        unparen value = value).
Proof.
  intros s decimals rounding value H. split.
  - cbn [apply]. unfold RoundNumbers_apply. rewrite H.
    destruct (String.eqb (Str.strip (unparen value)) "..."); reflexivity.
  - intros Hp. unfold unparen. now rewrite Hp.
Qed.

Lemma round_wraps_non_numeric_witness :
  apply (RoundNumbers (cell_spans_all ColSpans) 2 None) " n/a"
  = Ok (if String.eqb (Str.strip (unparen " n/a")) "..."
        then "{\dots}" else "{" ++ unparen " n/a" ++ "}")
  /\ (Str.startswith "(" " n/a" && Str.endswith ")" " n/a" = false ->
      unparen " n/a" = " n/a").
Proof.
  apply (round_wraps_non_numeric (cell_spans_all ColSpans) 2 None " n/a").
  reflexivity.
Defined.

(** C7, as stated, fails: ["(abc)"] does not match the pattern and is not
    an ellipsis, yet it is not passed through unchanged in its braces, and
    the ellipsis does not become the bare command. *)
Lemma round_rewrites_parenthesized_text :
  Re.match_anchored round_pattern "(abc)" = false
  /\ apply (RoundNumbers (cell_spans_all ColSpans) 0 None) "(abc)" = Ok "{-abc}"
  /\ apply (RoundNumbers (cell_spans_all ColSpans) 0 None) "(abc)"
     <> Ok "{(abc)}"
  /\ apply (RoundNumbers (cell_spans_all ColSpans) 0 None) "..." = Ok "{\dots}"
  /\ apply (RoundNumbers (cell_spans_all ColSpans) 0 None) "..." <> Ok "\dots".
Proof. repeat split; try reflexivity; vm_compute; discriminate. Qed.

(** ** A whole run *)

(** C1, as amended.  On the example the run ends normally and writes
    exactly six lines: [1 & (5)], the line terminator, a rule, [2 & 10],
    the line terminator, and the closing rule.  The modifier [0:round:0]
    covers column 0 only, so [(5)] in column 1 is left as it is; each
    row's text is followed by a newline and the terminator on its own
    line; the default border puts a rule before every row but the first. *)
Theorem example_run_output :
  main example_options
  = mkRun (unlines ["1 & (5)"; "\\"; "\midrule"; "2 & 10"; "\\"; "\midrule"])
          (Ok tt).
Proof. vm_compute. reflexivity. Qed.

(** C1, as stated, fails: the output is neither rendering of the two
    claimed lines and a rule. *)
Lemma example_run_output_differs :
  output (main example_options) <> claimed_output_inline
  /\ output (main example_options) <> claimed_output_split.
Proof. split; vm_compute; discriminate. Qed.

(** With the modifier on column 1 the parenthesized value is negated. *)
Lemma example_run_round_on_second_column :
  output (main (with_col_modifiers (default_options "table.csv" example_csv)
                  ["1:round:0"]))
  = unlines ["1 & -5"; "\\"; "\midrule"; "2 & 10"; "\\"; "\midrule"].
Proof. vm_compute. reflexivity. Qed.

(** ** Configuration errors *)

Lemma mapM_raises {A B} (f : A -> result B) (l : list A) (a : A) :
  In a l -> is_ok (f a) = false -> is_ok (mapM f l) = false.
Proof.
  induction l as [|x l IH]; intros Hin Ha; [destruct Hin|].
  simpl. destruct Hin as [->|Hin].
  - destruct (f a); [discriminate Ha|reflexivity].
  - destruct (f x); [|reflexivity]. cbn [bind].
    specialize (IH Hin Ha). destruct (mapM f l); [discriminate IH|reflexivity].
Qed.

Lemma bind_raises {A B} (r : result A) (k : A -> result B) :
  is_ok r = false -> is_ok (bind r k) = false.
Proof. destruct r; [discriminate|reflexivity]. Qed.

Lemma bind_raises_all {A B} (r : result A) (k : A -> result B) :
  (forall a, is_ok (k a) = false) -> is_ok (bind r k) = false.
Proof. intros H. destruct r; [apply H|reflexivity]. Qed.

Lemma bad_spec_raises (m : string) (c : spans_cls) :
  bad_spec m -> is_ok (parse_modifier m c) = false.
Proof.
  intros [spans_text key rest Hs Hk | spans_text piece rest Hs Hin Hne Hp
         | spans_text key args Hs Hk]; unfold parse_modifier; rewrite Hs.
  - destruct rest as [|args [|x rest]]; [| |reflexivity].
    + apply bind_raises_all. intros sp. now rewrite Hk.
    + apply bind_raises_all. intros sp. now rewrite Hk.
  - assert (Hsp : is_ok (cell_spans_parse c spans_text) = false).
    { unfold cell_spans_parse, Spans.parse. apply bind_raises.
      apply (mapM_raises _ _ piece); [|exact Hp].
      apply filter_In. split; assumption. }
    destruct rest as [|key [|args [|x rest]]]; try reflexivity;
      now apply bind_raises.
  - apply bind_raises_all. intros sp.
    destruct Hk as [-> | ->]; reflexivity.
Qed.

Lemma build_wrappers_raises (o : Options) (m : string) :
  (In m (row_modifiers o) /\ is_ok (parse_modifier m RowSpans) = false)
  \/ (In m (col_modifiers o) /\ is_ok (parse_modifier m ColSpans) = false) ->
  is_ok (build_wrappers o) = false.
Proof.
  intros H. unfold build_wrappers.
  apply bind_raises_all. intros bs.
  destruct H as [[Hin Hm] | [Hin Hm]].
  - apply bind_raises.
    exact (mapM_raises (fun x => parse_modifier x RowSpans) _ m Hin Hm).
  - apply bind_raises_all. intros rs. apply bind_raises.
    exact (mapM_raises (fun x => parse_modifier x ColSpans) _ m Hin Hm).
Qed.

Lemma main_aborts_silently (o : Options) :
  is_ok (build_wrappers o) = false ->
  output (main o) = EmptyString /\ exit_status (main o) = 1%Z.
Proof.
  intros H. unfold main, exit_status.
  destruct (spans_option (rows o)) as [rs|]; [|split; reflexivity].
  destruct (spans_option (cols o)) as [cs|]; [|split; reflexivity].
  destruct (build_wrappers o); [discriminate H|split; reflexivity].
Qed.

(** A span text that is rejected in [--rows] or [--cols] ends the run in
    the same way. *)
Lemma main_aborts_on_bad_filter (o : Options) :
  is_ok (spans_option (rows o)) = false
  \/ is_ok (spans_option (cols o)) = false ->
  output (main o) = EmptyString /\ exit_status (main o) = 1%Z.
Proof.
  intros H. unfold main, exit_status.
  destruct (spans_option (rows o)) as [rs|]; [|split; reflexivity].
  destruct H as [H|H]; [discriminate H|].
  destruct (spans_option (cols o)) as [cs|]; [discriminate H|].
  split; reflexivity.
Qed.

(** C8, as amended.  A modifier spec with a key that is not in the
    registry, with a non-empty piece of span text that [Span.parse]
    rejects, or with an argument given to [bold] or [italic], makes
    [parse_modifier] raise, and a run that has such a spec among its row or
    column modifiers ends with status 1 without having written anything.
    (The empty span text is not among them: its pieces are dropped and the
    modifier gets an empty span set.) *)
Theorem configuration_errors_abort_before_output :
  forall (o : Options) (m : string) (c : spans_cls),
    bad_spec m ->
    (c = RowSpans /\ In m (row_modifiers o))
    \/ (c = ColSpans /\ In m (col_modifiers o)) ->
    is_ok (parse_modifier m c) = false
    /\ output (main o) = EmptyString
    /\ exit_status (main o) = 1%Z.
Proof.
  intros o m c Hbad Hin.
  pose proof (bad_spec_raises m c Hbad) as Hm.
  split; [exact Hm|].
  apply main_aborts_silently, (build_wrappers_raises o m).
  destruct Hin as [[-> Hin] | [-> Hin]]; [left|right]; split; assumption.
Qed.

Lemma configuration_errors_abort_before_output_witness :
  is_ok (parse_modifier "0:bold:x" ColSpans) = false
  /\ output (main (with_col_modifiers (default_options "table.csv" example_csv)
                     ["0:round:0"; "0:bold:x"])) = EmptyString
  /\ exit_status (main (with_col_modifiers
                          (default_options "table.csv" example_csv)
                          ["0:round:0"; "0:bold:x"])) = 1%Z.
Proof.
  apply (configuration_errors_abort_before_output
           (with_col_modifiers (default_options "table.csv" example_csv)
              ["0:round:0"; "0:bold:x"]) "0:bold:x" ColSpans).
  - apply (bad_argument "0:bold:x" "0" "bold" "x"); [reflexivity|].
    left. reflexivity.
  - right. split; [reflexivity|]. right. left. reflexivity.
Defined.

(** The three kinds of error on instances: an unknown key, a span bound
    that is not a number, and an argument to [italic]. *)
Lemma configuration_error_examples :
  parse_modifier "0:blink" RowSpans = Raise KeyError
  /\ parse_modifier "1-x:bold" RowSpans = Raise ValueError
  /\ parse_modifier "0:italic:x" ColSpans = Raise AssertionError
  /\ parse_modifier "bold" ColSpans = Raise ValueError.
Proof. repeat split; reflexivity. Qed.

(** A separator character before the index is no white space for
    [int]: the spec is rejected and the run ends before any output. *)
Lemma separator_in_span_text_is_rejected :
  parse_modifier (String "028" "0:bold") ColSpans = Raise ValueError
  /\ main (with_col_modifiers (default_options "table.csv" example_csv)
             [String "028" "0:bold"])
     = mkRun EmptyString (Raise ValueError)
  /\ parse_modifier (String "160" "0:bold") ColSpans
     = Ok (Wrapper (mkCellSpans ColSpans [Span.mk (Some 0%Z) (Some 1%Z)])
             (Some "bfseries") false).
Proof. repeat split; vm_compute; reflexivity. Qed.

(** C8, as stated, fails on the empty span text: the spec [:bold] is
    accepted, with a span set that holds nothing, and the run writes its
    table and ends with status 0. *)
Lemma empty_span_text_is_accepted :
  parse_modifier ":bold" ColSpans
  = Ok (Wrapper (mkCellSpans ColSpans []) (Some "bfseries") false)
  /\ main (with_col_modifiers (default_options "table.csv" example_csv)
             [":bold"])
     = mkRun (unlines ["1 & (5)"; "\\"; "\midrule"; "2 & 10"; "\\"; "\midrule"])
             (Ok tt)
  /\ exit_status (main (with_col_modifiers
                          (default_options "table.csv" example_csv) [":bold"]))
     = 0%Z.
Proof. repeat split; vm_compute; reflexivity. Qed.

(** ** The order of the pipeline *)

Lemma wrap_cell_app (l1 l2 : list Modifier) (cell : coord) (v : string) :
  wrap_cell (l1 ++ l2) cell v
  = (v1 <- wrap_cell l1 cell v ;; wrap_cell l2 cell v1).
Proof.
  revert v. induction l1 as [|w l1 IH]; intros v; [reflexivity|].
  cbn [app wrap_cell]. destruct (wrap w cell v) as [x|]; [|reflexivity].
  cbn [bind]. apply IH.
Qed.




Lemma insert_desc_same_priority (p : Z) (w : Modifier) (l : list Modifier) :
  same_priority p (insert_desc w l) = same_priority p (w :: l).
Proof.
  unfold same_priority. induction l as [|x l IH]; [reflexivity|].
  cbn [insert_desc]. destruct (priority w <? priority x)%Z eqn:E.
  - apply Z.ltb_lt in E. cbn [List.filter] in *. rewrite IH.
    destruct (priority w =? p)%Z eqn:Ew; [|reflexivity].
    destruct (priority x =? p)%Z eqn:Ex; [|reflexivity].
    apply Z.eqb_eq in Ew, Ex. lia.
  - reflexivity.
Qed.

Lemma sort_wrappers_stable (p : Z) (ws : list Modifier) :
  same_priority p (sort_wrappers ws) = same_priority p ws.
Proof.
  induction ws as [|w ws IH]; [reflexivity|].
  cbn [sort_wrappers fold_right]. fold (sort_wrappers ws).
  rewrite insert_desc_same_priority. unfold same_priority in *.
  cbn [List.filter]. now rewrite IH.
Qed.

Lemma build_wrappers_sorted (o : Options) (ws : list Modifier) :
  build_wrappers o = Ok ws -> exists cfg, ws = sort_wrappers cfg.
Proof.
  unfold build_wrappers. intros H.
  destruct (match truthy (border_top o) with
            | Some v => cell_spans_parse RowSpans v
            | None => Ok (mkCellSpans RowSpans [Span.mk (Some 1%Z) None])
            end) as [bs|]; cbn [bind] in H; [|discriminate].
  destruct (mapM (fun m => parse_modifier m RowSpans) (row_modifiers o))
    as [rs|]; cbn [bind] in H; [|discriminate].
  destruct (mapM (fun m => parse_modifier m ColSpans) (col_modifiers o))
    as [cs|]; cbn [bind] in H; [|discriminate].
  exists (RowBorderWrapper bs (border_mid o) false (border_mid_cmd o)
          :: RowWrapper (cell_spans_all RowSpans) :: rs ++ cs)%list.
  injection H as <-. reflexivity.
Qed.


Lemma bind_assoc {A B C} (r : result A) (f : A -> result B) (g : B -> result C) :
  (y <- (x <- r ;; f x) ;; g y) = (x <- r ;; y <- f x ;; g y).
Proof. now destruct r. Qed.





(** A call in the trace is a call [wrap_cell] makes: the modifier covers
    the cell, and its input is the value the modifiers before it gave. *)
Lemma apply_calls_sound (ws : list Modifier) (cell : coord) :
  forall (v : string) (pre : list (Modifier * string)) (m : Modifier)
         (x : string) (post : list (Modifier * string)),
    apply_calls ws cell v = (pre ++ (m, x) :: post)%list ->
    exists l1 l2 : list Modifier,
      ws = (l1 ++ m :: l2)%list
      /\ cell_in cell (spans m) = true
      /\ wrap_cell l1 cell v = Ok x.
Proof.
  induction ws as [|w ws IH]; intros v pre m x post H.
  - destruct pre; discriminate H.
  - cbn [apply_calls] in H. destruct (cell_in cell (spans w)) eqn:Ec.
    + destruct pre as [|p pre]; cbn [app] in H.
      * injection H as -> -> _. exists [], ws. now repeat split.
      * injection H as _ Htail.
        destruct (apply w v) as [x'|e] eqn:Ea; [|destruct pre; discriminate Htail].
        destruct (IH x' pre m x post Htail) as (l1 & l2 & -> & Hm & Hx).
        exists (w :: l1), l2. split; [reflexivity|]. split; [exact Hm|].
        cbn [wrap_cell]. unfold wrap. rewrite Ec, Ea. exact Hx.
    + destruct (IH v pre m x post H) as (l1 & l2 & -> & Hm & Hx).
      exists (w :: l1), l2. split; [reflexivity|]. split; [exact Hm|].
      cbn [wrap_cell]. unfold wrap. rewrite Ec. exact Hx.
Qed.


(** The trace is the trace of [wrap_cell]: applying the modifiers of its
    calls in turn gives the cell's value, or the exception of the call
    that raised. *)
Lemma wrap_cell_by_calls (ws : list Modifier) (cell : coord) :
  forall v : string,
    wrap_cell ws cell v
    = fold_left (fun r c => x <- r ;; apply (fst c) x)
        (apply_calls ws cell v) (Ok v).
Proof.
  induction ws as [|w ws IH]; intros v; [reflexivity|].
  cbn [wrap_cell apply_calls]. unfold wrap.
  destruct (cell_in cell (spans w)).
  - cbn [fold_left fst bind].
    destruct (apply w v) as [x|e]; cbn [bind]; [apply IH|reflexivity].
  - cbn [bind]. apply IH.
Qed.




(** The sort is the stable one: it permutes the configured list, and the
    modifiers of any one priority stay in their configured order. *)
Lemma sort_wrappers_is_stable_sort (ws : list Modifier) (p : Z) :
  Permutation ws (sort_wrappers ws)
  /\ StronglySorted desc (sort_wrappers ws)
  /\ same_priority p (sort_wrappers ws) = same_priority p ws.
Proof.
  split; [apply sort_wrappers_perm|].
  split; [apply sort_wrappers_sorted|apply sort_wrappers_stable].
Qed.

(** On a cell, [round] then [fg]: the color wraps the rounded number. *)
Lemma round_then_fg_example :
  wrap_cell example_pipeline (Some 0%Z, Some 0%Z) "(1,234.5)"
  = Ok "\color{red}{-1234}".
Proof. reflexivity. Qed.

(** ** Decimal arithmetic *)

Module DecFacts.

Import Dec.
Open Scope Z_scope.

Lemma pow10_pos (k : Z) : 0 <= k -> 0 < 10 ^ k.
Proof. intros H. apply Z.pow_pos_nonneg; lia. Qed.

Lemma pow10_succ (k : Z) : 0 <= k -> 10 ^ (k + 1) = 10 * 10 ^ k.
Proof. intros H. rewrite Z.pow_add_r by lia. lia. Qed.

Lemma ndigits_go_spec (fuel : nat) :
  forall c : Z,
    0 < c -> c < 2 ^ Z.of_nat fuel ->
    1 <= ndigits_go fuel c
    /\ 10 ^ (ndigits_go fuel c - 1) <= c < 10 ^ ndigits_go fuel c.
Proof.
  induction fuel as [|f IH]; intros c Hc Hlt.
  - simpl in Hlt. lia.
  - cbn [ndigits_go]. destruct (c <? 10) eqn:E.
    + apply Z.ltb_lt in E. simpl. lia.
    + apply Z.ltb_ge in E.
      assert (Hq : 0 < c / 10) by (apply Z.div_str_pos; lia).
      assert (Hq2 : c / 10 < 2 ^ Z.of_nat f).
      { rewrite Nat2Z.inj_succ, Z.pow_succ_r in Hlt by lia.
        apply Z.div_lt_upper_bound; lia. }
      destruct (IH (c / 10) Hq Hq2) as (H1 & H2 & H3).
      set (d := ndigits_go f (c / 10)) in *.
      replace (1 + d - 1) with (d - 1 + 1) by lia.
      replace (1 + d) with (d + 1) by lia.
      rewrite !pow10_succ by lia.
      pose proof (Z.div_mod c 10 ltac:(lia)) as Hdm.
      pose proof (Z.mod_pos_bound c 10 ltac:(lia)) as Hm.
      split; [lia|]. split; lia.
Qed.

Lemma ndigits_spec (c : Z) :
  0 < c -> 1 <= ndigits c /\ 10 ^ (ndigits c - 1) <= c < 10 ^ ndigits c.
Proof.
  intros Hc. unfold ndigits. apply ndigits_go_spec; [exact Hc|].
  rewrite Nat2Z.inj_succ, Z2Nat.id by apply Z.log2_nonneg.
  apply Z.log2_spec, Hc.
Qed.

Lemma ndigits_zero : ndigits 0 = 1.
Proof. reflexivity. Qed.

Lemma ndigits_le (c k : Z) : 0 <= c -> c < 10 ^ k -> 1 <= k -> ndigits c <= k.
Proof.
  intros Hc Hlt Hk. destruct (Z.eq_dec c 0) as [->|Hn]; [rewrite ndigits_zero; lia|].
  destruct (ndigits_spec c ltac:(lia)) as (H1 & H2 & _).
  destruct (Z_lt_le_dec k (ndigits c)) as [Hgt|]; [|lia].
  assert (10 ^ k <= 10 ^ (ndigits c - 1)) by (apply Z.pow_le_mono_r; lia).
  lia.
Qed.

Lemma ndigits_ge (c k : Z) : 0 <= k -> 10 ^ k <= c -> k + 1 <= ndigits c.
Proof.
  intros Hk Hle. pose proof (pow10_pos k Hk).
  destruct (ndigits_spec c ltac:(lia)) as (H1 & _ & H3).
  destruct (Z_lt_le_dec (ndigits c) (k + 1)) as [Hlt|]; [|lia].
  assert (10 ^ ndigits c <= 10 ^ k) by (apply Z.pow_le_mono_r; lia).
  lia.
Qed.

Lemma ndigits_pow10 (k : Z) : 0 <= k -> ndigits (10 ^ k) = k + 1.
Proof.
  intros Hk. pose proof (pow10_pos k Hk).
  pose proof (ndigits_ge (10 ^ k) k Hk ltac:(lia)).
  pose proof (ndigits_le (10 ^ k) (k + 1) ltac:(lia)
                ltac:(rewrite pow10_succ by lia; lia) ltac:(lia)).
  lia.
Qed.

Lemma strip_zeros_spec (n : nat) :
  forall c e c' e' : Z,
    strip_zeros n c e = (c', e') ->
    exists j : Z,
      0 <= j <= Z.of_nat n /\ c = c' * 10 ^ j /\ e' = e + j
      /\ (j = Z.of_nat n \/ c' mod 10 <> 0).
Proof.
  induction n as [|k IH]; intros c e c' e' H.
  - injection H as <- <-. exists 0. simpl. repeat split; try lia.
  - cbn [strip_zeros] in H. destruct (c mod 10 =? 0) eqn:E.
    + apply Z.eqb_eq in E.
      destruct (IH _ _ _ _ H) as (j & Hj & Hc & He & Hend).
      exists (j + 1). rewrite pow10_succ by lia.
      pose proof (Z.div_mod c 10 ltac:(lia)) as Hdm.
      repeat split; try lia.
    + apply Z.eqb_neq in E. injection H as <- <-.
      exists 0. simpl. repeat split; lia.
Qed.

(** What is left of [n * 10^s] once at most [s + k] zeros are divided
    out: [n] less some [t <= k] of its own zeros. *)
Lemma stripped_coefficient (n c' j s k : Z) :
  0 < n -> 0 <= s -> 0 <= k -> 0 <= j <= s + k ->
  n * 10 ^ s = c' * 10 ^ j ->
  (j = s + k \/ c' mod 10 <> 0) ->
  exists t : Z, 0 <= t <= k /\ n = c' * 10 ^ t /\ j = t + s.
Proof.
  intros Hn Hs Hk Hj Heq Hend.
  pose proof (pow10_pos s Hs) as Hps.
  destruct (Z_lt_le_dec j s) as [Hlt|Hge].
  - exfalso.
    assert (Hc : c' = n * 10 ^ (s - j - 1) * 10).
    { pose proof (pow10_pos j ltac:(lia)) as Hpj.
      replace s with ((s - j - 1) + 1 + j) in Heq at 1 by lia.
      rewrite Z.pow_add_r, pow10_succ in Heq by lia. nia. }
    destruct Hend as [->|Hm]; [lia|].
    apply Hm. rewrite Hc. apply Z.mod_mul. lia.
  - exists (j - s). split; [lia|]. split; [|lia].
    replace j with ((j - s) + s) in Heq at 1 by lia.
    rewrite Z.pow_add_r in Heq by lia. nia.
Qed.

Lemma fix_small (d : t) :
  0 < coeff d < 10 ^ 28 -> Etiny <= exp d <= 0 -> fix_ d = Ok d.
Proof.
  intros Hc He. unfold fix_.
  replace (coeff d =? 0) with false by (symmetry; apply Z.eqb_neq; lia).
  pose proof (ndigits_le (coeff d) 28 ltac:(lia) ltac:(lia) ltac:(lia)) as Hnd.
  unfold prec, Etop, Emax in *. unfold Etiny, Emin, prec in *.
  replace (999999 - 28 + 1 <? ndigits (coeff d) + exp d - 28) with false
    by (symmetry; apply Z.ltb_ge; lia).
  destruct (ndigits (coeff d) + exp d - 28 <? -999999 - 28 + 1) eqn:E.
  - replace (exp d <? -999999 - 28 + 1) with false
      by (symmetry; apply Z.ltb_ge; lia).
    reflexivity.
  - replace (exp d <? ndigits (coeff d) + exp d - 28) with false
      by (symmetry; apply Z.ltb_ge; lia).
    reflexivity.
Qed.

Lemma div_eucl_exact (a b : Z) : 0 < b -> Z.div_eucl (a * b) b = (a, 0).
Proof.
  intros Hb. pose proof (Z.div_mul a b ltac:(lia)) as Hd.
  pose proof (Z.mod_mul a b ltac:(lia)) as Hm.
  unfold Z.div, Z.modulo in Hd, Hm.
  destruct (Z.div_eucl (a * b) b) as [q r]. simpl in *. now subst.
Qed.

(** Dividing a short coefficient by a power of ten is exact: the
    quotient has the same digits less some trailing zeros. *)
Lemma div_pow10 (x : t) (k : Z) :
  0 < coeff x < 10 ^ 28 -> exp x <= 0 -> 0 < k -> k - exp x <= 1000000 ->
  exists c' tz : Z,
    div x (of_int (10 ^ k)) = Ok (mk (sign x) c' (exp x + tz - k))
    /\ 0 <= tz <= k /\ coeff x = c' * 10 ^ tz /\ 0 < c'.
Proof.
  intros Hc He Hk Hrange.
  pose proof (pow10_pos k ltac:(lia)) as Hpk.
  pose proof (ndigits_le (coeff x) 28 ltac:(lia) ltac:(lia) ltac:(lia)) as Hnd.
  destruct (ndigits_spec (coeff x) ltac:(lia)) as (Hnd1 & _).
  unfold div, of_int. cbn [coeff exp sign].
  rewrite Z.abs_eq by lia.
  replace (10 ^ k <? 0) with false by (symmetry; apply Z.ltb_ge; lia).
  rewrite xorb_false_r.
  replace (10 ^ k =? 0) with false by (symmetry; apply Z.eqb_neq; lia).
  replace (coeff x =? 0) with false by (symmetry; apply Z.eqb_neq; lia).
  rewrite (ndigits_pow10 k) by lia. unfold prec.
  set (shift := k + 1 - ndigits (coeff x) + 28 + 1).
  assert (Hshift : k + 2 <= shift) by (unfold shift; lia).
  replace (0 <=? shift) with true by (symmetry; apply Z.leb_le; lia).
  replace (coeff x * 10 ^ shift) with (coeff x * 10 ^ (shift - k) * 10 ^ k).
  2:{ rewrite <- Z.mul_assoc, <- Z.pow_add_r by lia. f_equal. f_equal. lia. }
  rewrite (div_eucl_exact _ (10 ^ k) Hpk). cbn [Z.eqb].
  replace (exp x - 0 - (exp x - 0 - shift)) with shift by lia.
  destruct (strip_zeros (Z.to_nat shift) (coeff x * 10 ^ (shift - k))
              (exp x - 0 - shift)) as [c' e'] eqn:Es.
  destruct (strip_zeros_spec _ _ _ _ _ Es) as (j & Hj & Hcj & Hej & Hend).
  rewrite Z2Nat.id in Hj, Hend by lia.
  destruct (stripped_coefficient (coeff x) c' j (shift - k) k
              ltac:(lia) ltac:(lia) ltac:(lia) ltac:(lia) Hcj
              ltac:(destruct Hend; [left; lia|right; assumption]))
    as (tz & Htz & Hn & Hjt).
  pose proof (pow10_pos tz ltac:(lia)) as Hpt.
  assert (Hc' : 0 < c') by nia.
  assert (Hle : c' <= coeff x) by nia.
  exists c', tz.
  replace e' with (exp x + tz - k) by lia.
  rewrite fix_small; cbn [coeff exp]; unfold Etiny, Emin, prec; try lia.
  repeat split; lia.
Qed.

Lemma round_quot_half_even (c m : Z) :
  round_quot ROUND_HALF_EVEN c m = half_even_div c (10 ^ m).
Proof.
  unfold round_quot, half_even_div.
  set (p := 10 ^ m). set (q := c / p). set (r := c mod p).
  rewrite <- Z.negb_odd.
  destruct (2 * r <? p) eqn:E1; destruct (p <? 2 * r) eqn:E2;
    destruct (2 * r =? p) eqn:E3; destruct (Z.odd q); cbn;
    try reflexivity;
    apply Z.ltb_lt in E1 || apply Z.ltb_ge in E1;
    apply Z.ltb_lt in E2 || apply Z.ltb_ge in E2;
    apply Z.eqb_eq in E3 || apply Z.eqb_neq in E3; lia.
Qed.

Lemma half_even_div_bounds (c p : Z) :
  0 <= c -> 0 < p -> 0 <= half_even_div c p <= c.
Proof.
  intros Hc Hp. unfold half_even_div.
  pose proof (Z.div_mod c p ltac:(lia)) as Hdm.
  pose proof (Z.mod_pos_bound c p Hp) as Hm.
  assert (Hq : 0 <= c / p) by (apply Z.div_pos; lia).
  destruct (2 * (c mod p) <? p) eqn:E1; [nia|].
  apply Z.ltb_ge in E1.
  destruct (p <? 2 * (c mod p)); [nia|].
  destruct (Z.even (c / p)); nia.
Qed.

Lemma half_even_div_scale (c p f : Z) :
  0 <= c -> 0 < p -> 0 < f ->
  half_even_div (c * f) (p * f) = half_even_div c p.
Proof.
  intros Hc Hp Hf. unfold half_even_div.
  rewrite Z.div_mul_cancel_r by lia.
  rewrite Z.mul_mod_distr_r by lia.
  replace (2 * (c mod p * f) <? p * f) with (2 * (c mod p) <? p).
  2:{ destruct (2 * (c mod p) <? p) eqn:E; symmetry;
        [apply Z.ltb_lt; apply Z.ltb_lt in E|apply Z.ltb_ge; apply Z.ltb_ge in E];
        nia. }
  replace (p * f <? 2 * (c mod p * f)) with (p <? 2 * (c mod p)).
  2:{ destruct (p <? 2 * (c mod p)) eqn:E; symmetry;
        [apply Z.ltb_lt; apply Z.ltb_lt in E|apply Z.ltb_ge; apply Z.ltb_ge in E];
        nia. }
  reflexivity.
Qed.

Lemma half_even_div_small (c m : Z) :
  0 <= c -> 1 <= m -> c < 10 ^ (m - 1) -> half_even_div c (10 ^ m) = 0.
Proof.
  intros Hc Hm Hlt. unfold half_even_div.
  assert (Hp : 10 ^ m = 10 * 10 ^ (m - 1)).
  { replace m with (m - 1 + 1) at 1 by lia. apply pow10_succ. lia. }
  rewrite Z.mod_small, Z.div_small by lia.
  replace (2 * c <? 10 ^ m) with true by (symmetry; apply Z.ltb_lt; lia).
  reflexivity.
Qed.

Lemma fix_zero (s : bool) : fix_ (mk s 0 0) = Ok (mk s 0 0).
Proof. reflexivity. Qed.

Lemma fix_int (s : bool) (c : Z) :
  0 <= c < 10 ^ 28 -> fix_ (mk s c 0) = Ok (mk s c 0).
Proof.
  intros Hc. destruct (Z.eq_dec c 0) as [->|Hn]; [apply fix_zero|].
  apply fix_small; cbn [coeff exp]; unfold Etiny, Emin, prec; lia.
Qed.

(** Quantizing a short coefficient to an integer. *)
Lemma quantize_int (d : t) :
  0 <= coeff d < 10 ^ 28 -> Etiny <= exp d <= 0 ->
  quantize d one ROUND_HALF_EVEN
  = Ok (mk (sign d) (half_even_div (coeff d) (10 ^ (- exp d))) 0).
Proof.
  intros Hc He.
  pose proof (pow10_pos (- exp d) ltac:(lia)) as Hp.
  pose proof (half_even_div_bounds (coeff d) (10 ^ (- exp d)) ltac:(lia) Hp) as Hb.
  unfold quantize. cbn [one exp].
  replace (negb ((Etiny <=? 0) && (0 <=? Emax))) with false by reflexivity.
  destruct (coeff d =? 0) eqn:E0.
  - apply Z.eqb_eq in E0. rewrite E0 in *.
    replace (half_even_div 0 (10 ^ (- exp d))) with 0 by lia.
    apply fix_zero.
  - apply Z.eqb_neq in E0.
    pose proof (ndigits_le (coeff d) 28 ltac:(lia) ltac:(lia) ltac:(lia)) as Hnd.
    destruct (ndigits_spec (coeff d) ltac:(lia)) as (Hnd1 & _ & Hnd3).
    unfold adjusted, prec, Emax.
    replace (999999 <? exp d + ndigits (coeff d) - 1) with false
      by (symmetry; apply Z.ltb_ge; lia).
    replace (28 <? exp d + ndigits (coeff d) - 1 - 0 + 1) with false
      by (symmetry; apply Z.ltb_ge; lia).
    assert (Hres : rescale d 0 ROUND_HALF_EVEN
                   = mk (sign d) (half_even_div (coeff d) (10 ^ (- exp d))) 0).
    { unfold rescale.
      replace (coeff d =? 0) with false by (symmetry; apply Z.eqb_neq; lia).
      destruct (0 <=? exp d) eqn:Ee.
      - apply Z.leb_le in Ee. replace (exp d) with 0 by lia. cbn [Z.sub Z.opp].
        f_equal. unfold half_even_div. cbn [Z.pow Z.pow_pos Pos.iter].
        rewrite Z.mod_1_r, Z.div_1_r. cbn. lia.
      - apply Z.leb_gt in Ee.
        destruct (ndigits (coeff d) + exp d - 0 <? 0) eqn:Ek.
        + apply Z.ltb_lt in Ek. f_equal.
          rewrite (half_even_div_small (coeff d) (- exp d)); [reflexivity|lia|lia|].
          assert (10 ^ ndigits (coeff d) <= 10 ^ (- exp d - 1))
            by (apply Z.pow_le_mono_r; lia).
          lia.
        + f_equal. rewrite round_quot_half_even. reflexivity. }
    rewrite Hres. cbn [coeff exp].
    pose proof (ndigits_le (half_even_div (coeff d) (10 ^ (- exp d))) 28
                  ltac:(lia) ltac:(lia) ltac:(lia)) as Hnd'.
    assert (1 <= ndigits (half_even_div (coeff d) (10 ^ (- exp d)))).
    { destruct (Z.eq_dec (half_even_div (coeff d) (10 ^ (- exp d))) 0) as [->|Hn];
        [rewrite ndigits_zero; lia|].
      apply ndigits_spec. lia. }
    replace (999999 <? 0 + ndigits (half_even_div (coeff d) (10 ^ (- exp d))) - 1)
      with false by (symmetry; apply Z.ltb_ge; lia).
    replace (28 <? ndigits (half_even_div (coeff d) (10 ^ (- exp d))))
      with false by (symmetry; apply Z.ltb_ge; lia).
    apply fix_int. lia.
Qed.

(** [d / 10**k] then [quantize(Decimal("1."))]: the number divided by
    [10^k], rounded half to even to an integer. *)
Lemma div_pow10_then_quantize (x : t) (k : Z) :
  0 <= coeff x < 10 ^ 28 -> exp x <= 0 -> 0 < k -> k - exp x <= 1000000 ->
  (q <- div x (of_int (10 ^ k)) ;; quantize q one ROUND_HALF_EVEN)
  = Ok (mk (sign x) (half_even_div (coeff x) (10 ^ (k - exp x))) 0).
Proof.
  intros Hc He Hk Hrange.
  destruct (Z.eq_dec (coeff x) 0) as [E0|Hn].
  - pose proof (pow10_pos k ltac:(lia)) as Hpk.
    unfold div, of_int. cbn [coeff exp sign].
    rewrite Z.abs_eq by lia.
    replace (10 ^ k <? 0) with false by (symmetry; apply Z.ltb_ge; lia).
    replace (10 ^ k =? 0) with false by (symmetry; apply Z.eqb_neq; lia).
    rewrite E0, xorb_false_r. cbn [Z.eqb].
    unfold fix_ at 1. cbn [coeff exp sign Z.eqb].
    unfold Etiny, Emin, Emax, prec.
    rewrite Z.max_l, Z.min_l by lia. cbn [bind].
    rewrite quantize_int
      by (cbn [coeff exp sign]; unfold Etiny, Emin, prec; lia).
    cbn [coeff exp sign].
    pose proof (half_even_div_bounds 0 (10 ^ (- (exp x - 0)))
                  ltac:(lia) (pow10_pos (- (exp x - 0)) ltac:(lia))).
    pose proof (half_even_div_bounds 0 (10 ^ (k - exp x))
                  ltac:(lia) (pow10_pos (k - exp x) ltac:(lia))).
    do 2 f_equal. lia.
  - destruct (div_pow10 x k ltac:(lia) He Hk Hrange)
      as (c' & tz & Hdiv & Htz & Hcx & Hc').
    pose proof (pow10_pos tz ltac:(lia)) as Hpt.
    assert (Hb : 0 <= c' < 10 ^ 28) by nia.
    rewrite Hdiv. cbn [bind].
    rewrite quantize_int
      by (cbn [coeff exp sign]; unfold Etiny, Emin, prec; lia).
    cbn [coeff exp sign]. do 2 f_equal. rewrite Hcx.
    replace (10 ^ (k - exp x))
      with (10 ^ (- (exp x + tz - k)) * 10 ^ tz).
    2:{ rewrite <- Z.pow_add_r by lia. f_equal. lia. }
    symmetry. apply half_even_div_scale; try lia.
Qed.

Lemma digits_go_length (fuel : nat) :
  forall (c : Z) (acc : string),
    (String.length acc <= String.length (digits_go fuel c acc))%nat.
Proof.
  induction fuel as [|f IH]; intros c acc; cbn [digits_go]; [lia|].
  destruct (c <? 10); cbn [String.length].
  - lia.
  - etransitivity; [|apply IH]. cbn [String.length]. lia.
Qed.

Lemma digits_nonempty (c : Z) : (1 <= String.length (digits c))%nat.
Proof.
  unfold digits. cbn [digits_go].
  destruct (c <? 10); cbn [String.length]; [lia|].
  etransitivity; [|apply digits_go_length]. cbn [String.length]. lia.
Qed.

(** An integer prints as its sign and digits. *)
Lemma to_str_int (s : bool) (c : Z) :
  to_str (mk s c 0) = ((if s then "-" else EmptyString) ++ digits c)%string.
Proof.
  unfold to_str. cbn [coeff exp sign].
  pose proof (digits_nonempty c) as Hlen.
  set (ds := digits c) in *.
  set (len := Z.of_nat (String.length ds)).
  assert (Hl : 1 <= len) by (unfold len; lia).
  cbn [Z.leb Z.compare Z.add andb].
  replace (-6 <? len) with true by (symmetry; apply Z.ltb_lt; lia).
  replace (len <=? 0) with false by (symmetry; apply Z.leb_gt; lia).
  rewrite Z.leb_refl, Z.eqb_refl, Z.sub_diag. cbn [Z.to_nat Str.repeat_char].
  now rewrite !append_empty_r.
Qed.

End DecFacts.

(** ** [round] with negative decimals *)

Lemma span_digits_all (s : string) :
  Str.all_chars Str.isdigit (fst (Dec.span_digits s)) = true.
Proof.
  induction s as [|c s IH]; [reflexivity|]. cbn [Dec.span_digits].
  destruct (Str.isdigit c) eqn:E; [|reflexivity].
  destruct (Dec.span_digits s) as [ds r]. cbn in *. now rewrite E, IH.
Qed.

Lemma digits_value_nonneg (s : string) :
  forall acc : Z,
    Str.all_chars Str.isdigit s = true -> (0 <= acc)%Z ->
    (0 <= PyInt.digits_value s acc)%Z.
Proof.
  induction s as [|c s IH]; intros acc H Hacc; [exact Hacc|].
  simpl in H. apply andb_true_iff in H. destruct H as [Hc Hs].
  cbn [PyInt.digits_value]. apply IH; [exact Hs|].
  destruct (isdigit_facts c Hc) as (_ & _ & _ & _ & _ & Hd). lia.
Qed.

Lemma of_string_range (text : string) (x : Dec.t) :
  Dec.of_string text = Ok x -> (0 <= Dec.coeff x)%Z /\ (Dec.exp x <= 0)%Z.
Proof.
  unfold Dec.of_string.
  destruct (PyInt.split_sign _) as [neg body].
  pose proof (span_digits_all body) as Hip.
  destruct (Dec.span_digits body) as [ip rest]. cbn [fst] in Hip.
  assert (Hfp : forall fp rest',
            match rest with
            | EmptyString => (EmptyString, rest)
            | String c r =>
                if Ascii.eqb c "." then Dec.span_digits r else (EmptyString, rest)
            end = (fp, rest') ->
            Str.all_chars Str.isdigit fp = true).
  { intros fp rest' E. destruct rest as [|c r].
    - now injection E as <- _.
    - destruct (Ascii.eqb c ".").
      + pose proof (span_digits_all r) as H. rewrite E in H. exact H.
      + now injection E as <- _. }
  destruct (match rest with
            | EmptyString => (EmptyString, rest)
            | String c r =>
                if Ascii.eqb c "." then Dec.span_digits r else (EmptyString, rest)
            end) as [fp rest'].
  specialize (Hfp fp rest' eq_refl).
  destruct (negb (Str.is_empty rest') || Str.is_empty ip && Str.is_empty fp);
    [discriminate|].
  intros H. injection H as <-. cbn [Dec.coeff Dec.exp]. split; [|lia].
  apply digits_value_nonneg; [|lia].
  now rewrite all_chars_app, Hip, Hfp.
Qed.

(** The division and the rounding of [RoundNumbers.apply] for negative
    [decimals], on any value that passes the pattern and parses. *)
Lemma round_negative_decimals_helper :
  forall (s : CellSpans) (d : Z) (r : option Dec.rounding) (value : string)
         (x : Dec.t),
    (-500000 <= d < 0)%Z ->
    Re.match_anchored round_pattern (unparen value) = true ->
    Dec.of_string (Str.replace "," EmptyString (unparen value)) = Ok x ->
    (Dec.coeff x < 10 ^ 28)%Z ->
    (-500000 <= Dec.exp x)%Z ->
    apply (RoundNumbers s d r) value
    = Ok ((if Dec.sign x then "-" else EmptyString)
          ++ Dec.digits
               (Dec.half_even_div (Dec.coeff x) (10 ^ (- d - Dec.exp x)))).
Proof.
  intros s d r value x Hd Hm Hx Hc He.
  destruct (of_string_range _ _ Hx) as (Hc0 & He0).
  cbn [apply]. unfold RoundNumbers_apply. rewrite Hm, Hx. cbn [bind].
  replace (d <? 0)%Z with true by (symmetry; apply Z.ltb_lt; lia).
  change (Dec.of_string "1.") with (Ok Dec.one). cbn [bind].
  rewrite DecFacts.div_pow10_then_quantize by lia.
  cbn [bind]. now rewrite DecFacts.to_str_int.
Qed.

(** ** The matcher against the words of a pattern *)

Module ReFacts.

Import Re.

Lemma append_nil_inv (s1 s2 : string) :
  s1 ++ s2 = EmptyString -> s1 = EmptyString /\ s2 = EmptyString.
Proof. destruct s1; [auto|discriminate]. Qed.

Lemma nullable_complete (r : regex) (s : string) :
  lang r s -> s = EmptyString -> nullable r = true.
Proof.
  induction 1 as [ | p c Hp | r1 r2 s1 s2 H1 IH1 H2 IH2 | r1 r2 s H IH
                 | r1 r2 s H IH | r | r s1 s2 H1 IH1 H2 IH2 ]; intros E;
    cbn [nullable]; try reflexivity.
  - discriminate E.
  - destruct (append_nil_inv _ _ E) as [E1 E2].
    now rewrite (IH1 E1), (IH2 E2).
  - now rewrite (IH E).
  - rewrite (IH E). apply orb_true_r.
Qed.

Lemma deriv_complete (r : regex) (s0 : string) :
  lang r s0 -> forall c s, s0 = String c s -> lang (deriv c r) s.
Proof.
  induction 1 as [ | p c' Hp | r1 r2 s1 s2 H1 IH1 H2 IH2 | r1 r2 s' H IH
                 | r1 r2 s' H IH | r | r s1 s2 H1 IH1 H2 IH2 ]; intros c s E;
    cbn [deriv].
  - discriminate E.
  - injection E as -> <-. rewrite Hp. constructor.
  - destruct s1 as [|c1 s1'].
    + cbn [append] in E. rewrite (nullable_complete r1 _ H1 eq_refl).
      apply lang_alt_r. now apply IH2.
    + cbn [append] in E. injection E as -> <-.
      assert (Hd : lang (Seq (deriv c r1) r2) (s1' ++ s2)).
      { constructor; [now apply IH1|exact H2]. }
      destruct (nullable r1); [now apply lang_alt_l|exact Hd].
  - apply lang_alt_l. now apply IH.
  - apply lang_alt_r. now apply IH.
  - discriminate E.
  - destruct s1 as [|c1 s1'].
    + cbn [append] in E. now apply IH2.
    + cbn [append] in E. injection E as -> <-.
      constructor; [now apply IH1|exact H2].
Qed.

(** Every word of the pattern is accepted by the matcher. *)
Lemma fullmatch_complete (s : string) :
  forall r : regex, lang r s -> fullmatch r s = true.
Proof.
  induction s as [|c s IH]; intros r H; cbn [fullmatch].
  - now apply (nullable_complete r EmptyString).
  - apply IH. now apply (deriv_complete r (String c s)).
Qed.

Lemma nullable_sound (r : regex) : nullable r = true -> lang r EmptyString.
Proof.
  induction r as [ | | p | r1 IH1 r2 IH2 | r1 IH1 r2 IH2 | r IH ];
    cbn [nullable]; intros H; try discriminate H.
  - constructor.
  - apply andb_true_iff in H. destruct H as [H1 H2].
    change EmptyString with (EmptyString ++ EmptyString). constructor; auto.
  - apply orb_true_iff in H. destruct H as [H|H];
      [apply lang_alt_l|apply lang_alt_r]; auto.
  - constructor.
Qed.

Lemma deriv_sound (r : regex) :
  forall c s, lang (deriv c r) s -> lang r (String c s).
Proof.
  induction r as [ | | p | r1 IH1 r2 IH2 | r1 IH1 r2 IH2 | r IH ];
    intros c s H; cbn [deriv] in H.
  - inversion H.
  - inversion H.
  - destruct (p c) eqn:E; inversion H; subst. now constructor.
  - assert (Hseq : forall s', lang (Seq (deriv c r1) r2) s' ->
                              lang (Seq r1 r2) (String c s')).
    { intros s' Hs. inversion Hs; subst.
      change (String c (s1 ++ s2)) with (String c s1 ++ s2).
      constructor; [now apply IH1|assumption]. }
    destruct (nullable r1) eqn:En; [|now apply Hseq].
    inversion H; subst; [now apply Hseq|].
    change (String c s) with (EmptyString ++ String c s).
    constructor; [now apply nullable_sound|now apply IH2].
  - inversion H; subst; [apply lang_alt_l|apply lang_alt_r]; auto.
  - inversion H; subst.
    change (String c (s1 ++ s2)) with (String c s1 ++ s2).
    constructor; [now apply IH|assumption].
Qed.

(** What the matcher accepts is a word of the pattern. *)
Lemma fullmatch_sound (s : string) :
  forall r : regex, fullmatch r s = true -> lang r s.
Proof.
  induction s as [|c s IH]; intros r H; cbn [fullmatch] in H.
  - now apply nullable_sound.
  - now apply deriv_sound, IH.
Qed.

Lemma lang_plus_star (r : regex) (s : string) :
  lang (Plus r) s -> lang (Star r) s.
Proof. unfold Plus. intros H. inversion H; subst. now constructor. Qed.

Lemma lang_plus_digits (s : string) :
  nonempty s = true -> Str.all_chars Str.isdigit s = true ->
  lang (Plus digit_cls) s.
Proof.
  induction s as [|c s IH]; intros Hne H; [discriminate Hne|].
  simpl in H. apply andb_true_iff in H. destruct H as [Hc Hs].
  change (String c s) with (String c EmptyString ++ s). unfold Plus.
  constructor; [now constructor|].
  destruct s as [|c' s']; [constructor|].
  apply lang_plus_star, IH; [reflexivity|exact Hs].
Qed.

(** An optional minus sign before a run of digits matches the pattern of
    [round]. *)
Lemma round_pattern_digits (neg : bool) (ds : string) :
  nonempty ds = true -> Str.all_chars Str.isdigit ds = true ->
  match_anchored round_pattern ((if neg then "-" else EmptyString) ++ ds) = true.
Proof.
  intros Hne Hd. unfold match_anchored.
  rewrite fullmatch_complete; [reflexivity|].
  unfold round_pattern. constructor.
  - destruct neg; [apply lang_alt_l; now constructor|apply lang_alt_r; constructor].
  - rewrite <- (append_empty_r ds). unfold Plus at 1. constructor; [|constructor].
    rewrite <- (append_empty_r ds). constructor.
    + now apply lang_plus_digits.
    + apply lang_alt_r. constructor.
Qed.

End ReFacts.

(** ** [round] with negative decimals, on whole numbers *)

Lemma plain_char_facts (c : ascii) :
  plain_char c = true ->
  Str.isspace c = false /\ Ascii.eqb c "," = false /\ Ascii.eqb c "_" = false
  /\ Ascii.eqb c "(" = false.
Proof.
  destruct c as [[] [] [] [] [] [] [] []]; vm_compute; intros H;
    try discriminate H; repeat split; reflexivity.
Qed.

Lemma subst_char_none (o : ascii) (new s : string) :
  Str.all_chars (fun c => negb (Ascii.eqb c o)) s = true ->
  subst_char o new s = s.
Proof.
  induction s as [|c s IH]; [reflexivity|]. simpl. intros H.
  apply andb_true_iff in H. destruct H as [Hc Hs].
  apply negb_true_iff in Hc. now rewrite Hc, (IH Hs).
Qed.

Lemma span_digits_digits (ds : string) :
  Str.all_chars Str.isdigit ds = true ->
  Dec.span_digits ds = (ds, EmptyString).
Proof.
  induction ds as [|c ds IH]; [reflexivity|]. simpl. intros H.
  apply andb_true_iff in H. destruct H as [Hc Hs].
  now rewrite Hc, (IH Hs).
Qed.

Lemma digits_value_bound (s : string) :
  forall acc : Z,
    Str.all_chars Str.isdigit s = true -> (0 <= acc)%Z ->
    (PyInt.digits_value s acc < (acc + 1) * 10 ^ Z.of_nat (String.length s))%Z.
Proof.
  induction s as [|c s IH]; intros acc H Hacc.
  - cbn. lia.
  - simpl in H. apply andb_true_iff in H. destruct H as [Hc Hs].
    destruct (isdigit_facts c Hc) as (_ & _ & _ & _ & _ & Hd).
    cbn [PyInt.digits_value String.length].
    specialize (IH (10 * acc + PyInt.digit_val c)%Z Hs ltac:(lia)).
    rewrite Nat2Z.inj_succ, Z.pow_succ_r by lia.
    pose proof (DecFacts.pow10_pos (Z.of_nat (String.length s)) ltac:(lia)).
    nia.
Qed.

Lemma signed_plain (neg : bool) (ds : string) :
  Str.all_chars Str.isdigit ds = true ->
  Str.all_chars plain_char (signed neg ds) = true.
Proof.
  intros H. unfold signed. rewrite all_chars_app.
  apply andb_true_iff. split; [now destruct neg|].
  eapply all_chars_impl; [|exact H].
  intros c Hc. unfold plain_char. now rewrite Hc.
Qed.

Lemma signed_split_sign (neg : bool) (ds : string) :
  nonempty ds = true -> Str.all_chars Str.isdigit ds = true ->
  PyInt.split_sign (signed neg ds) = (neg, ds).
Proof.
  intros Hne H. destruct neg; [reflexivity|].
  destruct ds as [|c ds]; [discriminate Hne|].
  simpl in H. apply andb_true_iff in H. destruct H as [Hc _].
  destruct (isdigit_facts c Hc) as (_ & Hm & Hp & _).
  unfold signed, PyInt.split_sign. cbn [append]. now rewrite Hm, Hp.
Qed.

Lemma of_string_signed (neg : bool) (ds : string) :
  nonempty ds = true -> Str.all_chars Str.isdigit ds = true ->
  Dec.of_string (signed neg ds) = Ok (Dec.mk neg (PyInt.digits_value ds 0) 0).
Proof.
  intros Hne H. pose proof (signed_plain neg ds H) as Hp.
  unfold Dec.of_string.
  rewrite strip_none.
  2:{ eapply all_chars_impl; [|exact Hp]. intros c Hc.
      apply negb_true_iff. now apply plain_char_facts. }
  rewrite replace_one_char, subst_char_none.
  2:{ eapply all_chars_impl; [|exact Hp]. intros c Hc.
      apply negb_true_iff. now apply plain_char_facts. }
  rewrite (signed_split_sign neg ds Hne H), (span_digits_digits ds H).
  cbn [Str.is_empty negb orb].
  replace (Str.is_empty ds) with false
    by (destruct ds; [discriminate Hne|reflexivity]).
  cbn [andb String.length Z.of_nat Z.opp]. now rewrite append_empty_r.
Qed.

Lemma unparen_signed (neg : bool) (ds : string) :
  nonempty ds = true -> Str.all_chars Str.isdigit ds = true ->
  unparen (signed neg ds) = signed neg ds.
Proof.
  intros Hne H. pose proof (signed_plain neg ds H) as Hp.
  unfold unparen, Str.startswith.
  destruct (signed neg ds) as [|c v] eqn:E.
  - destruct neg, ds; discriminate.
  - simpl in Hp. apply andb_true_iff in Hp. destruct Hp as [Hc _].
    destruct (plain_char_facts c Hc) as (_ & _ & _ & Hparen).
    now rewrite prefix_cons, Hparen.
Qed.

(** On an optional minus sign and at most 28 digits, [round] with
    negative [decimals = d] gives the number of whole [10^(-d)]s, rounded
    half to even. *)
Lemma round_negative_on_integers :
  forall (s : CellSpans) (d : Z) (r : option Dec.rounding) (neg : bool)
         (ds : string),
    (-500000 <= d < 0)%Z ->
    nonempty ds = true -> Str.all_chars Str.isdigit ds = true ->
    (String.length ds <= 28)%nat ->
    apply (RoundNumbers s d r) (signed neg ds)
    = Ok (signed neg
            (Dec.digits (Dec.half_even_div (PyInt.digits_value ds 0) (10 ^ (- d))))).
Proof.
  intros s d r neg ds Hd Hne H Hlen.
  pose proof (digits_value_bound ds 0 H ltac:(lia)) as Hb.
  assert (Hpow : (10 ^ Z.of_nat (String.length ds) <= 10 ^ 28)%Z)
    by (apply Z.pow_le_mono_r; lia).
  rewrite (round_negative_decimals_helper s d r (signed neg ds)
             (Dec.mk neg (PyInt.digits_value ds 0) 0)).
  - cbn [Dec.sign Dec.coeff Dec.exp]. unfold signed.
    replace (- d - 0)%Z with (- d)%Z by lia. reflexivity.
  - exact Hd.
  - rewrite (unparen_signed neg ds Hne H).
    now apply ReFacts.round_pattern_digits.
  - rewrite (unparen_signed neg ds Hne H), replace_one_char, subst_char_none.
    + now apply of_string_signed.
    + eapply all_chars_impl; [|exact (signed_plain neg ds H)].
      intros c Hc. apply negb_true_iff. now apply plain_char_facts.
  - cbn [Dec.coeff]. lia.
  - cbn [Dec.exp]. lia.
Qed.

(** C3, as amended.  With negative [decimals = d], and whatever the
    rounding argument, a value that (after a parenthesized value is given
    its minus sign) matches the pattern and denotes, once its commas are
    removed, the decimal [c * 10^e] of at most 28 digits, is turned into
    the integer nearest to that number divided by [10^(-d)], half-way cases
    going to the even neighbour, printed with the sign of the value; the
    result is not scaled back to a multiple of [10^(-d)].  Every optional
    minus sign followed by at most 28 digits is such a value. *)
Theorem round_negative_decimals_divides :
  forall (s : CellSpans) (d : Z) (r : option Dec.rounding) (value : string)
         (x : Dec.t) (neg : bool) (ds : string),
    (-500000 <= d < 0)%Z ->
    Re.match_anchored round_pattern (unparen value) = true ->
    Dec.of_string (Str.replace "," EmptyString (unparen value)) = Ok x ->
    (Dec.coeff x < 10 ^ 28)%Z ->
    (-500000 <= Dec.exp x)%Z ->
    nonempty ds = true -> Str.all_chars Str.isdigit ds = true ->
    (String.length ds <= 28)%nat ->
    apply (RoundNumbers s d r) value
    = Ok ((if Dec.sign x then "-" else EmptyString)
          ++ Dec.digits
               (Dec.half_even_div (Dec.coeff x) (10 ^ (- d - Dec.exp x))))
    /\ apply (RoundNumbers s d r) (signed neg ds)
       = Ok (signed neg
               (Dec.digits
                  (Dec.half_even_div (PyInt.digits_value ds 0) (10 ^ (- d))))).
Proof.
  intros s d r value x neg ds Hd Hm Hx Hc He Hne Hds Hlen. split.
  - now apply round_negative_decimals_helper.
  - now apply round_negative_on_integers.
Qed.

Lemma round_negative_decimals_divides_witness :
  apply (RoundNumbers (cell_spans_all ColSpans) (-2) None) "(1,534.5)"
  = Ok ((if Dec.sign (Dec.mk true 15345 (-1)) then "-" else EmptyString)
        ++ Dec.digits
             (Dec.half_even_div (Dec.coeff (Dec.mk true 15345 (-1)))
                (10 ^ (- -2 - Dec.exp (Dec.mk true 15345 (-1))))))
  /\ apply (RoundNumbers (cell_spans_all ColSpans) (-2) None) (signed false "1534")
     = Ok (signed false
             (Dec.digits
                (Dec.half_even_div (PyInt.digits_value "1534" 0) (10 ^ (- -2))))).
Proof.
  apply (round_negative_decimals_divides (cell_spans_all ColSpans) (-2) None
           "(1,534.5)" (Dec.mk true 15345 (-1)) false "1534").
  - lia.
  - reflexivity.
  - reflexivity.
  - reflexivity.
  - cbn. lia.
  - reflexivity.
  - reflexivity.
  - cbn. lia.
Defined.

(** C3, as stated, fails: [round(-2)] turns ["1534"] into ["15"], the
    number of hundreds, not into ["1500"]. *)
Lemma round_minus_2_of_1534 :
  apply (RoundNumbers (cell_spans_all ColSpans) (-2) None) "1534" = Ok "15"
  /\ apply (RoundNumbers (cell_spans_all ColSpans) (-2) None) "1534"
     <> Ok "1500".
Proof. split; [reflexivity|]. vm_compute. discriminate. Qed.

(** More instances: a half goes to the even neighbour, a separator and a
    point are read, a small negative value keeps its sign, and a value the
    pattern admits but [Decimal] does not raises. *)
Lemma round_negative_examples :
  map (fun v => apply (RoundNumbers (cell_spans_all ColSpans) (-2) None) v)
      ["1550"; "1450"; "1,234,567.8"; "-4"; "(250)"; "1.2.3"]
  = [Ok "16"; Ok "14"; Ok "12346"; Ok "-0"; Ok "-2"; Raise InvalidOperation].
Proof. reflexivity. Qed.

(** * Further properties of [render-table.py] *)

(** ** Span sets as filters *)

Lemma filter_from_all {A} (xs : list A) :
  forall i : Z, Spans.filter_from Spans.all i xs = xs.
Proof.
  induction xs as [|x xs IH]; intros i; [reflexivity|].
  cbn [Spans.filter_from]. change (Spans.contains Spans.all i) with true.
  cbn iota. now rewrite IH.
Qed.

Lemma filter_from_none {A} (xs : list A) :
  forall i : Z, Spans.filter_from [] i xs = [].
Proof. induction xs as [|x xs IH]; intros i; [reflexivity|]. apply IH. Qed.

Lemma split_go_commas (n : nat) :
  Str.split_go "," 0 (Str.repeat_char "," n)
  = (EmptyString, repeat EmptyString n).
Proof.
  induction n as [|n IH]; [reflexivity|].
  cbn [Str.repeat_char Str.split_go]. rewrite prefix_cons, prefix_empty.
  cbn [Ascii.eqb Bool.eqb andb String.length Nat.sub]. now rewrite IH.
Qed.

Lemma filter_nonempty_repeat (n : nat) :
  List.filter nonempty (repeat EmptyString n) = [].
Proof. induction n as [|n IH]; [reflexivity|exact IH]. Qed.

(** X1.  [Spans.all()] holds every index and as a filter keeps the whole
    sequence; a span text that is empty or made of commas only parses to
    the empty set, which holds no index and as a filter keeps nothing. *)
Theorem Spans_all_and_empty :
  forall (A : Type) (xs : list A) (i : Z) (n : nat),
    Spans.contains Spans.all i = true
    /\ Spans.filter Spans.all xs = xs
    /\ Spans.parse (Str.repeat_char "," n) = Ok []
    /\ Spans.contains [] i = false
    /\ Spans.filter [] xs = [].
Proof.
  intros A xs i n.
  split; [reflexivity|]. split; [apply filter_from_all|].
  split; [|split; [reflexivity|apply filter_from_none]].
  unfold Spans.parse, Str.split. rewrite split_go_commas.
  change (EmptyString :: repeat EmptyString n) with (repeat EmptyString (S n)).
  now rewrite filter_nonempty_repeat.
Qed.

(** X2.  A range whose end is below its start is accepted and holds no
    index. *)
Theorem Span_parse_inverted_range :
  forall a b : string,
    index_text a = true -> index_text b = true ->
    (PyInt.digits_value b 0 < PyInt.digits_value a 0)%Z ->
    parses_to (a ++ "-" ++ b) (fun _ => False).
Proof.
  intros a b Ha Hb Hlt. eexists. split; [apply (Span_parse_bounded a b Ha Hb)|].
  intros i. unfold Span.contains; cbn [Span.start Span.end_].
  split; [|intros []].
  intros H. apply andb_true_iff in H. destruct H as [H1 H2].
  apply Z.leb_le in H1. apply Z.ltb_lt in H2. lia.
Qed.

Lemma Span_parse_inverted_range_witness :
  parses_to ("5" ++ "-" ++ "2") (fun _ => False).
Proof.
  apply (Span_parse_inverted_range "5" "2"); [reflexivity|reflexivity|].
  cbn. lia.
Defined.

(** ** Span texts that are not numbers *)

Lemma junk_facts (c : ascii) :
  junk c = true ->
  Str.isdigit c = false /\ Str.isspace c = false /\ Ascii.eqb c "-" = false
  /\ Ascii.eqb c "+" = false /\ Ascii.eqb c "_" = false.
Proof.
  unfold junk. intros H. apply negb_true_iff in H.
  repeat (apply orb_false_iff in H; destruct H as [H ?]). auto.
Qed.

Lemma any_char_lstrip (s : string) :
  any_char junk (Str.lstrip_by PyInt.isspace s) = any_char junk s.
Proof.
  induction s as [|c s IH]; [reflexivity|]. cbn [Str.lstrip_by].
  destruct (PyInt.isspace c) eqn:E; [|reflexivity].
  apply int_space_is_space in E.
  rewrite IH. cbn [any_char]. unfold junk at 2. rewrite E.
  now rewrite orb_true_r.
Qed.

Lemma any_char_rstrip (s : string) :
  any_char junk (Str.rstrip_by PyInt.isspace s) = any_char junk s.
Proof.
  induction s as [|c s IH]; [reflexivity|]. cbn [Str.rstrip_by any_char].
  rewrite <- IH.
  destruct (Str.rstrip_by PyInt.isspace s) as [|d r]; cbn [Str.is_empty andb].
  - destruct (PyInt.isspace c) eqn:E; [|reflexivity].
    apply int_space_is_space in E.
    cbn [any_char]. unfold junk. rewrite E. now rewrite orb_true_r.
  - reflexivity.
Qed.

Lemma any_char_split_sign (t : string) :
  any_char junk (snd (PyInt.split_sign t)) = any_char junk t.
Proof.
  destruct t as [|c t]; [reflexivity|]. unfold PyInt.split_sign.
  destruct (Ascii.eqb c "-") eqn:E1.
  - cbn. unfold junk. rewrite E1. now rewrite !orb_true_r.
  - destruct (Ascii.eqb c "+") eqn:E2; [|reflexivity].
    cbn. unfold junk. rewrite E2. now rewrite !orb_true_r.
Qed.

Lemma int_digits_junk (s : string) :
  forall (acc : Z) (b : bool),
    any_char junk s = true -> PyInt.int_digits s acc b = None.
Proof.
  induction s as [|c s IH]; intros acc b H; [discriminate H|].
  cbn [any_char] in H. cbn [PyInt.int_digits].
  destruct (junk c) eqn:Ej.
  - destruct (junk_facts c Ej) as (Hd & _ & _ & _ & Hu). now rewrite Hd, Hu.
  - cbn [orb] in H. destruct (Str.isdigit c); [now apply IH|].
    destruct (Ascii.eqb c "_" && b); [now apply IH|reflexivity].
Qed.

Lemma int_raises_ValueError (t : string) (e : exn) :
  PyInt.int t = Raise e -> e = ValueError.
Proof.
  unfold PyInt.int. destruct (PyInt.split_sign _) as [neg body].
  destruct (_ <? _)%nat; [now intros [= <-]|].
  destruct (PyInt.int_digits body 0 false); [discriminate|now intros [= <-]].
Qed.

Lemma int_junk (t : string) :
  any_char junk t = true -> PyInt.int t = Raise ValueError.
Proof.
  intros H. unfold PyInt.int.
  pose proof (any_char_split_sign (PyInt.strip t)) as Hs.
  unfold PyInt.strip in Hs at 2. rewrite any_char_rstrip, any_char_lstrip, H in Hs.
  destruct (PyInt.split_sign (PyInt.strip t)) as [neg body]. cbn [snd] in Hs.
  destruct (_ <? _)%nat; [reflexivity|].
  now rewrite (int_digits_junk body 0 false Hs).
Qed.

Lemma partition_junk (s : string) :
  forall a sep b : string,
    Str.partition "-" s = (a, sep, b) ->
    any_char junk s = any_char junk a || any_char junk b.
Proof.
  induction s as [|c s IH]; intros a sep b H.
  - injection H as <- <- <-. reflexivity.
  - cbn [Str.partition] in H. rewrite prefix_dash in H.
    destruct (Ascii.eqb c "-") eqn:E.
    + injection H as <- <- <-. cbn [String.length Nat.sub substring any_char orb].
      rewrite Nat.sub_0_r, substring_all. unfold junk. rewrite E.
      now rewrite !orb_true_r.
    + destruct (Str.partition "-" s) as [[a' sep'] b'].
      injection H as <- <- <-. cbn [any_char].
      rewrite (IH a' sep' b' eq_refl). now rewrite orb_assoc.
Qed.

Lemma any_char_nonempty (p : ascii -> bool) (s : string) :
  any_char p s = true -> nonempty s = true.
Proof. destruct s; [discriminate|reflexivity]. Qed.

(** X3.  A span text that holds a character which is neither a digit, a
    sign, an underscore nor white space is rejected with [ValueError]. *)
Theorem Span_parse_rejects_junk :
  forall s : string,
    any_char junk s = true -> Span.parse s = Raise ValueError.
Proof.
  intros s H. unfold Span.parse.
  replace (Str.is_empty s) with false
    by (destruct s; [discriminate H|reflexivity]).
  destruct (Str.partition "-" s) as [[a sep] b] eqn:Ep.
  rewrite (partition_junk s a sep b Ep) in H.
  destruct (any_char junk a) eqn:Ea.
  - rewrite (any_char_nonempty _ _ Ea), (int_junk a Ea). reflexivity.
  - cbn [orb] in H. rewrite (any_char_nonempty _ _ H), (int_junk b H).
    destruct (nonempty a); [|reflexivity].
    destruct (PyInt.int a) as [n|e] eqn:Ei; [reflexivity|].
    now rewrite (int_raises_ValueError a e Ei).
Qed.

Lemma Span_parse_rejects_junk_witness : Span.parse "3-x" = Raise ValueError.
Proof. apply (Span_parse_rejects_junk "3-x"). reflexivity. Defined.

(** ** The cells of a row *)

Lemma mapM_length {A B} (f : A -> result B) (l : list A) (l' : list B) :
  mapM f l = Ok l' -> List.length l' = List.length l.
Proof.
  revert l'. induction l as [|a l IH]; intros l' H.
  - injection H as <-. reflexivity.
  - cbn [mapM] in H. destruct (f a) as [b|]; cbn [bind] in H; [|discriminate].
    destruct (mapM f l) as [bs|]; cbn [bind] in H; [|discriminate].
    injection H as <-. cbn [List.length]. now rewrite (IH bs eq_refl).
Qed.

Lemma cells_loop_length (ws : list Modifier) (row : Z) :
  forall (data : list (option string)) (col : Z) (values : list string)
         (flag : bool) (values' : list string) (flag' : bool),
    cells_loop row col data ws values flag = Ok (values', flag') ->
    List.length values' = (List.length values + List.length data)%nat.
Proof.
  induction data as [|raw rest IH]; intros col values flag values' flag' H.
  - injection H as <- _. cbn. lia.
  - cbn [cells_loop] in H.
    destruct (wrap_cell ws (Some row, Some col) (quote_value raw)) as [c|];
      cbn [bind] in H; [|discriminate].
    apply IH in H. rewrite H, length_app. cbn [List.length]. lia.
Qed.

(** X4.  Whatever the modifiers do, a row that reaches the template has
    one value per selected column, in the order of the columns. *)
Theorem row_has_one_value_per_column :
  forall (row : Z) (data : Csv.pydict) (cols : list string)
         (wrappers : list Modifier) (values : list string) (flag : bool),
    row_cells row data cols wrappers = Ok (values, flag) ->
    List.length values = List.length cols.
Proof.
  intros row data cols wrappers values flag H. unfold row_cells in H.
  destruct (mapM (fun k => Csv.dict_get k data) cols) as [raw|] eqn:E;
    cbn [bind] in H; [|discriminate].
  apply cells_loop_length in H. rewrite H. cbn [List.length].
  apply (mapM_length _ _ _ E).
Qed.

Lemma row_has_one_value_per_column_witness :
  List.length ["\cellcolor{red}"; "\cellcolor{red}"] = List.length ["a"; "b"].
Proof.
  apply (row_has_one_value_per_column 0
           [("a", Some EmptyString); ("b", Some " ")] ["a"; "b"]
           [red_everywhere] ["\cellcolor{red}"; "\cellcolor{red}"] false).
  reflexivity.
Defined.

(** ** Parenthesized values *)

Lemma substring_prefix (x y : string) :
  substring 0 (String.length x) (x ++ y) = x.
Proof.
  induction x as [|c x IH]; cbn.
  - now destruct y.
  - now rewrite IH.
Qed.

Lemma substring_suffix (x y : string) :
  substring (String.length x) (String.length y) (x ++ y) = y.
Proof.
  induction x as [|c x IH]; cbn; [apply substring_all|exact IH].
Qed.

Lemma length_append (x y : string) :
  String.length (x ++ y) = (String.length x + String.length y)%nat.
Proof. induction x as [|c x IH]; cbn; [reflexivity|now rewrite IH]. Qed.

Lemma unparen_parenthesized (v : string) :
  unparen ("(" ++ v ++ ")") = "-" ++ v.
Proof.
  unfold unparen, Str.startswith, Str.endswith, Str.slice_1_m1.
  cbn [append]. rewrite prefix_cons, prefix_empty.
  cbn [String.length]. rewrite length_append. cbn [String.length].
  replace (S (String.length v + 1) - 1)%nat with (S (String.length v)) by lia.
  replace (S (String.length v + 1) - 2)%nat with (String.length v) by lia.
  replace (1 <=? S (String.length v + 1))%nat with true
    by (symmetry; apply Nat.leb_le; lia).
  cbn [substring].
  pose proof (substring_suffix v ")") as Hs. cbn [String.length] in Hs.
  rewrite Hs, (substring_prefix v ")"). reflexivity.
Qed.

Lemma unparen_minus (v : string) : unparen ("-" ++ v) = "-" ++ v.
Proof. unfold unparen, Str.startswith. cbn [append]. now rewrite prefix_cons. Qed.

(** X5.  For [round], a value written in parentheses is the same as that
    value with a minus sign: [(v)] and [-v] give the same result, whatever
    [v], the decimals and the rounding are. *)
Theorem round_reads_parentheses_as_minus :
  forall (s : CellSpans) (decimals : Z) (rounding : option Dec.rounding)
         (v : string),
    apply (RoundNumbers s decimals rounding) ("(" ++ v ++ ")")
    = apply (RoundNumbers s decimals rounding) ("-" ++ v).
Proof.
  intros s decimals rounding v. cbn [apply]. unfold RoundNumbers_apply.
  now rewrite unparen_parenthesized, unparen_minus.
Qed.

(** ** [stripnl] *)

Lemma subst_char_one (o n : ascii) (s : string) :
  String.length (subst_char o (String n EmptyString) s) = String.length s
  /\ (Ascii.eqb n o = false ->
      Str.all_chars (fun c => negb (Ascii.eqb c o))
        (subst_char o (String n EmptyString) s) = true).
Proof.
  induction s as [|c s [IH1 IH2]]; [split; reflexivity|].
  cbn [subst_char]. destruct (Ascii.eqb c o) eqn:E; cbn.
  - rewrite IH1. split; [reflexivity|]. intros Hn. now rewrite Hn, (IH2 Hn).
  - rewrite IH1. split; [reflexivity|]. intros Hn. now rewrite E, (IH2 Hn).
Qed.

Lemma subst_newline (s : string) :
  subst_char "010" " " s = newlines_to_spaces s.
Proof.
  induction s as [|c s IH]; [reflexivity|].
  cbn [subst_char newlines_to_spaces]. rewrite IH.
  now destruct (Ascii.eqb c "010").
Qed.

(** X6.  [stripnl] puts a space in place of every newline and keeps every
    other character where it is: the result has the length of the text
    and holds no newline. *)
Theorem stripnl_keeps_length :
  forall text : string,
    stripnl text = newlines_to_spaces text
    /\ String.length (stripnl text) = String.length text
    /\ Str.all_chars not_newline (stripnl text) = true.
Proof.
  intros text. unfold stripnl, Re.nl. rewrite replace_one_char.
  destruct (subst_char_one "010" " " text) as [H1 H2].
  split; [apply subst_newline|]. split; [exact H1|exact (H2 eq_refl)].
Qed.

(** ** Quoting twice *)

Lemma escape_each_special (c : ascii) (s : string) :
  is_special c = true ->
  escape_each (String c s) = String "\" (String c (escape_each s)).
Proof. intros H. cbn [escape_each]. unfold escape_char. now rewrite H. Qed.

Lemma escape_each_backslash (s : string) :
  escape_each (String "\" s) = String "\" (escape_each s).
Proof. reflexivity. Qed.

Lemma escape_each_twice (a : string) :
  Str.all_chars is_special a = true ->
  escape_each (escape_each a) = backslash_pairs a.
Proof.
  induction a as [|c a IH]; intros H; [reflexivity|].
  simpl in H. apply andb_true_iff in H. destruct H as [Hc Hs].
  rewrite (escape_each_special c a Hc), escape_each_backslash.
  rewrite (escape_each_special c _ Hc), (IH Hs). reflexivity.
Qed.

Lemma replace_backslash_pairs (a : string) :
  Str.all_chars is_special a = true ->
  Str.replace "\\" "\\\\" (backslash_pairs a) = escape_twice a.
Proof.
  unfold Str.replace. induction a as [|c a IH]; intros H; [reflexivity|].
  simpl in H. apply andb_true_iff in H. destruct H as [Hc Hs].
  destruct (special_facts c Hc) as [_ Hb].
  cbn [backslash_pairs Str.replace_go].
  rewrite !prefix_cons, prefix_empty, Ascii.eqb_refl, Hb.
  cbn [andb String.length Nat.sub append escape_twice]. now rewrite (IH Hs).
Qed.

Lemma escape_each_no_space (a : string) :
  Str.all_chars is_special a = true ->
  Str.all_chars (fun c => negb (Str.isspace c)) (escape_each a) = true.
Proof.
  induction a as [|c a IH]; intros H; [reflexivity|].
  simpl in H. apply andb_true_iff in H. destruct H as [Hc Hs].
  destruct (special_facts c Hc) as [Hsp _].
  cbn [escape_each]. unfold escape_char. rewrite Hc.
  cbn [append Str.all_chars]. now rewrite Hsp, (IH Hs).
Qed.

(** X7.  Quoting is not idempotent: a text of escaped characters that is
    quoted a second time gets four backslashes before each character, not
    the one that a first quoting gives. *)
Theorem quote_twice_escapes_again :
  forall a : string,
    Str.all_chars is_special a = true ->
    quote (quote a) = escape_twice a
    /\ (nonempty a = true -> quote (quote a) <> quote a).
Proof.
  intros a H.
  assert (E : quote (quote a) = escape_twice a).
  { rewrite (quote_special a H), quote_general.
    rewrite (strip_none _ (escape_each_no_space a H)).
    rewrite (escape_each_twice a H). now apply replace_backslash_pairs. }
  split; [exact E|].
  intros Hne. rewrite E, (quote_special a H).
  destruct a as [|c a]; [discriminate Hne|].
  simpl in H. apply andb_true_iff in H. destruct H as [Hc _].
  cbn [escape_twice escape_each append]. unfold escape_char. rewrite Hc.
  cbn [append]. intros Heq. injection Heq as Heq _.
  destruct (special_facts c Hc) as [_ Hb].
  apply Ascii.eqb_neq in Hb. congruence.
Qed.

Lemma quote_twice_escapes_again_witness :
  quote (quote "%_") = escape_twice "%_"
  /\ (nonempty "%_" = true -> quote (quote "%_") <> quote "%_").
Proof. apply (quote_twice_escapes_again "%_"). reflexivity. Defined.

(** ** Modifier specs with colons in the argument *)

Lemma splitn_go_last (s : string) :
  Str.splitn_go ":" 0 0 s = (s, []).
Proof. destruct s; reflexivity. Qed.

Lemma splitn_go_piece (a rest : string) (n : nat) :
  Str.all_chars not_colon a = true ->
  Str.splitn_go ":" (S n) 0 (a ++ String ":" rest)
  = (a, fst (Str.splitn_go ":" n 0 rest) :: snd (Str.splitn_go ":" n 0 rest)).
Proof.
  induction a as [|c a IH]; intros H.
  - cbn [append Str.splitn_go]. rewrite prefix_cons, prefix_empty.
    cbn [Ascii.eqb Bool.eqb andb String.length Nat.sub].
    now destruct (Str.splitn_go ":" n 0 rest).
  - simpl in H. apply andb_true_iff in H. destruct H as [Hc Hs].
    apply negb_true_iff in Hc.
    cbn [append Str.splitn_go]. rewrite prefix_cons, Hc.
    cbn [andb]. now rewrite (IH Hs).
Qed.

Lemma splitn_go_no_colon (a : string) (n : nat) :
  Str.all_chars not_colon a = true -> Str.splitn_go ":" n 0 a = (a, []).
Proof.
  induction a as [|c a IH]; intros H; [reflexivity|].
  simpl in H. apply andb_true_iff in H. destruct H as [Hc Hs].
  apply negb_true_iff in Hc. cbn [Str.splitn_go].
  destruct n as [|n]; [reflexivity|].
  rewrite prefix_cons, Hc. cbn [andb]. now rewrite (IH Hs).
Qed.

(** X8.  A modifier spec is cut at its first two colons only: the span
    text and the key hold no colon, and whatever follows the second colon,
    colons included, is the argument; with one colon there is no
    argument. *)
Theorem parse_modifier_cuts_at_two_colons :
  forall (spans_text key args : string) (c : spans_cls),
    Str.all_chars not_colon spans_text = true ->
    Str.all_chars not_colon key = true ->
    parse_modifier (spans_text ++ ":" ++ key ++ ":" ++ args) c
    = (spans <- cell_spans_parse c spans_text ;;
       k <- registry_get key MODIFIERS ;;
       modifier_parse k spans (Some args))
    /\ parse_modifier (spans_text ++ ":" ++ key) c
       = (spans <- cell_spans_parse c spans_text ;;
          k <- registry_get key MODIFIERS ;;
          modifier_parse k spans None).
Proof.
  intros spans_text key args c Hs Hk. unfold parse_modifier, Str.splitn.
  cbn [append]. split.
  - rewrite (splitn_go_piece spans_text _ 1 Hs).
    rewrite (splitn_go_piece key args 0 Hk), splitn_go_last. reflexivity.
  - rewrite (splitn_go_piece spans_text _ 1 Hs).
    rewrite (splitn_go_no_colon key 1 Hk). reflexivity.
Qed.

Lemma parse_modifier_cuts_at_two_colons_witness :
  parse_modifier ("0" ++ ":" ++ "wrap" ++ ":" ++ "a:b") ColSpans
  = (spans <- cell_spans_parse ColSpans "0" ;;
     k <- registry_get "wrap" MODIFIERS ;;
     modifier_parse k spans (Some "a:b"))
  /\ parse_modifier ("0" ++ ":" ++ "wrap") ColSpans
     = (spans <- cell_spans_parse ColSpans "0" ;;
        k <- registry_get "wrap" MODIFIERS ;;
        modifier_parse k spans None).
Proof.
  apply (parse_modifier_cuts_at_two_colons "0" "wrap" "a:b" ColSpans);
    reflexivity.
Defined.

(** ** The shape of the pipeline *)

Lemma modifier_parse_user (k : kind) (s : CellSpans) (args : option string)
  (m : Modifier) :
  modifier_parse k s args = Ok m -> is_user m = true.
Proof.
  destruct k; cbn [modifier_parse]; intros H;
    try (injection H as <-; reflexivity);
    try (destruct args; cbn in H; [discriminate|injection H as <-; reflexivity]).
  - destruct args as [a|]; [|discriminate].
    destruct (PyInt.int _); cbn [bind] in H; [|discriminate].
    injection H as <-. reflexivity.
  - destruct args as [a|]; [|discriminate].
    destruct (PyInt.int _); cbn [bind] in H; [|discriminate].
    injection H as <-. reflexivity.
Qed.

Lemma parse_modifier_user (text : string) (c : spans_cls) (m : Modifier) :
  parse_modifier text c = Ok m -> is_user m = true.
Proof.
  unfold parse_modifier.
  destruct (Str.splitn ":" 2 text) as [|a [|key [|args [|x rest]]]];
    try discriminate.
  - destruct (cell_spans_parse c a); cbn [bind]; [|discriminate].
    destruct (registry_get key MODIFIERS); cbn [bind]; [|discriminate].
    apply modifier_parse_user.
  - destruct (cell_spans_parse c a); cbn [bind]; [|discriminate].
    destruct (registry_get key MODIFIERS); cbn [bind]; [|discriminate].
    apply modifier_parse_user.
Qed.

Lemma mapM_Forall {A B} (f : A -> result B) (P : B -> Prop) (l : list A) :
  (forall a b, f a = Ok b -> P b) ->
  forall l', mapM f l = Ok l' -> Forall P l'.
Proof.
  intros HP. induction l as [|a l IH]; intros l' H.
  - injection H as <-. constructor.
  - cbn [mapM] in H. destruct (f a) as [b|] eqn:E; cbn [bind] in H; [|discriminate].
    destruct (mapM f l) as [bs|]; cbn [bind] in H; [|discriminate].
    injection H as <-. constructor; [now apply (HP a)|now apply IH].
Qed.

Lemma is_user_facts (m : Modifier) :
  is_user m = true ->
  (10 <= priority m)%Z /\ (forall row v, wrap_row m row v = v).
Proof.
  destruct m; cbn; intros H; try discriminate H; (split; [lia|]);
    intros row v; unfold wrap_row; cbn;
    now destruct (cell_in (Some row, None) spans0).
Qed.

Lemma insert_desc_last (w : Modifier) (l : list Modifier) :
  Forall (fun x => (priority w < priority x)%Z) l ->
  insert_desc w l = (l ++ [w])%list.
Proof.
  induction l as [|x l IH]; intros H; [reflexivity|].
  inversion H as [|? ? Hx Hl]; subst. cbn [insert_desc app].
  replace (priority w <? priority x)%Z with true
    by (symmetry; now apply Z.ltb_lt).
  now rewrite (IH Hl).
Qed.

Lemma wrap_rows_users (us : list Modifier) (row : Z) (v : string) :
  Forall (fun m => is_user m = true) us -> wrap_rows us row v = v.
Proof.
  unfold wrap_rows. induction us as [|m us IH]; intros H; [reflexivity|].
  inversion H as [|? ? Hm Hus]; subst. cbn [fold_left].
  destruct (is_user_facts m Hm) as [_ Hw]. rewrite Hw. now apply IH.
Qed.

Lemma wrap_rows_app (l1 l2 : list Modifier) (row : Z) (v : string) :
  wrap_rows (l1 ++ l2) row v = wrap_rows l2 row (wrap_rows l1 row v).
Proof. unfold wrap_rows. apply fold_left_app. Qed.

(** X9.  The pipeline of a run is the user's modifiers, sorted, then the
    row wrapper, then the row border.  So the two added modifiers never
    change a cell, the user's modifiers never change the text of a row, and
    every row is written as the rule, if the border covers the row, then
    the row's text and its end. *)
Theorem pipeline_ends_with_row_wrappers :
  forall (o : Options) (ws : list Modifier),
    build_wrappers o = Ok ws ->
    exists (us : list Modifier) (border : Modifier),
      ws = (us ++ [the_row_wrapper; border])%list
      /\ Forall (fun m => is_user m = true) us
      /\ (exists s, border
                    = RowBorderWrapper s (border_mid o) false (border_mid_cmd o))
      /\ (forall cell v, wrap_cell ws cell v = wrap_cell us cell v)
      /\ (forall row v,
            wrap_rows ws row v = rule_before border row ++ row_end v).
Proof.
  intros o ws H. unfold build_wrappers in H.
  destruct (match truthy (border_top o) with
            | Some v => cell_spans_parse RowSpans v
            | None => Ok (mkCellSpans RowSpans [Span.mk (Some 1%Z) None])
            end) as [bs|]; cbn [bind] in H; [|discriminate].
  destruct (mapM (fun m => parse_modifier m RowSpans) (row_modifiers o))
    as [rs|] eqn:Er; cbn [bind] in H; [|discriminate].
  destruct (mapM (fun m => parse_modifier m ColSpans) (col_modifiers o))
    as [cs|] eqn:Ec; cbn [bind] in H; [|discriminate].
  set (border := RowBorderWrapper bs (border_mid o) false (border_mid_cmd o)) in *.
  assert (Hus : Forall (fun m => is_user m = true) (rs ++ cs)).
  { apply Forall_app. split.
    - apply (mapM_Forall _ _ _ (fun a b => parse_modifier_user a RowSpans b) _ Er).
    - apply (mapM_Forall _ _ _ (fun a b => parse_modifier_user a ColSpans b) _ Ec). }
  assert (Hsorted : Forall (fun m => is_user m = true) (sort_wrappers (rs ++ cs))).
  { rewrite Forall_forall in Hus |- *. intros m Hm. apply Hus.
    apply (Permutation_in m (Permutation_sym (sort_wrappers_perm (rs ++ cs))) Hm). }
  assert (Hws : ws = (sort_wrappers (rs ++ cs) ++ [the_row_wrapper; border])%list).
  { injection H as <-.
    change (sort_wrappers ([border; RowWrapper (cell_spans_all RowSpans)] ++ rs ++ cs))
      with (insert_desc border (insert_desc the_row_wrapper (sort_wrappers (rs ++ cs)))).
    rewrite (insert_desc_last the_row_wrapper).
    2:{ eapply Forall_impl; [|exact Hsorted]. intros m Hm.
        destruct (is_user_facts m Hm) as [Hp _]. cbn. lia. }
    rewrite (insert_desc_last border).
    2:{ apply Forall_app. split.
        - eapply Forall_impl; [|exact Hsorted]. intros m Hm.
          destruct (is_user_facts m Hm) as [Hp _]. cbn. lia.
        - constructor; [cbn; lia|constructor]. }
    now rewrite <- app_assoc. }
  exists (sort_wrappers (rs ++ cs)), border.
  split; [exact Hws|]. split; [exact Hsorted|]. split; [now exists bs|].
  split.
  - intros cell v. rewrite Hws, wrap_cell_app.
    destruct (wrap_cell (sort_wrappers (rs ++ cs)) cell v) as [x|]; [|reflexivity].
    cbn [bind wrap_cell]. unfold wrap. cbn [apply spans the_row_wrapper border].
    destruct (cell_in cell (cell_spans_all RowSpans)); cbn [bind];
      destruct (cell_in cell bs); reflexivity.
  - intros row v. rewrite Hws, wrap_rows_app, (wrap_rows_users _ row v Hsorted).
    unfold wrap_rows. cbn [fold_left].
    change (wrap_row the_row_wrapper row v) with (row_end v).
    unfold wrap_row, rule_before, border. cbn [spans apply_row].
    destruct (border_mid o); destruct (cell_in (Some row, None) bs);
      try reflexivity.
    cbn [append]. now rewrite append_assoc.
Qed.

(** ** Decimal places *)

Module DecPlaces.

Import Dec DecFacts.
Open Scope Z_scope.

Lemma fix_ok (s : bool) (c e : Z) :
  0 <= c < 10 ^ 28 -> Etiny <= e <= 0 -> fix_ (mk s c e) = Ok (mk s c e).
Proof.
  intros Hc He. destruct (Z.eq_dec c 0) as [->|Hn].
  - unfold fix_. cbn [coeff exp sign Z.eqb].
    unfold Etiny, Emin, Emax, prec in *. now rewrite Z.max_l, Z.min_l by lia.
  - apply fix_small; cbn [coeff exp]; lia.
Qed.

Lemma round_spec_bounds (mode : rounding) (c p : Z) :
  0 <= c -> 0 < p -> 0 <= round_spec mode c p <= c.
Proof.
  intros Hc Hp. destruct mode; cbn [round_spec].
  - now apply half_even_div_bounds.
  - split; [apply Z.div_pos; lia|]. apply Z.div_le_upper_bound; nia.
Qed.

Lemma round_quot_spec (mode : rounding) (c m : Z) :
  round_quot mode c m = round_spec mode c (10 ^ m).
Proof. destruct mode; [apply round_quot_half_even|reflexivity]. Qed.

Lemma round_spec_small (mode : rounding) (c m : Z) :
  0 <= c -> 1 <= m -> c < 10 ^ (m - 1) -> round_spec mode c (10 ^ m) = 0.
Proof.
  intros Hc Hm Hlt. destruct mode; cbn [round_spec].
  - now apply half_even_div_small.
  - apply Z.div_small. split; [lia|].
    replace m with (m - 1 + 1) by lia. rewrite pow10_succ by lia. lia.
Qed.

Lemma places_bounds (mode : rounding) (c e d : Z) :
  0 <= d <= 27 -> 0 <= c < 10 ^ (28 - d) -> e <= 0 ->
  0 <= places mode c e d < 10 ^ 28.
Proof.
  intros Hd Hc He. unfold places.
  assert (Hmono : 10 ^ (28 - d) <= 10 ^ 28) by (apply Z.pow_le_mono_r; lia).
  destruct (- d <=? e) eqn:E.
  - apply Z.leb_le in E.
    pose proof (pow10_pos (e + d) ltac:(lia)) as Hp.
    assert (H28 : 10 ^ (28 - d) * 10 ^ (e + d) <= 10 ^ 28).
    { rewrite <- Z.pow_add_r by lia. apply Z.pow_le_mono_r; lia. }
    nia.
  - apply Z.leb_gt in E.
    pose proof (round_spec_bounds mode c (10 ^ (- d - e)) ltac:(lia)
                  (pow10_pos (- d - e) ltac:(lia))).
    lia.
Qed.

(** [quantize] to [d] decimal places, on a coefficient that leaves room
    for them. *)
Lemma quantize_places (x q : t) (d : Z) (mode : rounding) :
  exp q = - d -> 0 <= d <= 27 ->
  0 <= coeff x < 10 ^ (28 - d) -> -500000 <= exp x <= 0 ->
  quantize x q mode = Ok (mk (sign x) (places mode (coeff x) (exp x) d) (- d)).
Proof.
  intros Hq Hd Hc He.
  assert (Hmono : 10 ^ (28 - d) <= 10 ^ 28) by (apply Z.pow_le_mono_r; lia).
  pose proof (places_bounds mode (coeff x) (exp x) d Hd Hc ltac:(lia)) as Hb.
  unfold quantize. rewrite Hq. unfold Etiny, Emin, Emax, prec.
  replace (negb ((-999999 - 28 + 1 <=? - d) && (- d <=? 999999))) with false.
  2:{ symmetry. apply negb_false_iff, andb_true_iff.
      split; apply Z.leb_le; lia. }
  destruct (coeff x =? 0) eqn:E0.
  - apply Z.eqb_eq in E0.
    replace (places mode (coeff x) (exp x) d) with 0.
    2:{ unfold places. rewrite E0. destruct (- d <=? exp x) eqn:E; [lia|].
        apply Z.leb_gt in E.
        pose proof (round_spec_bounds mode 0 (10 ^ (- d - exp x)) ltac:(lia)
                      (pow10_pos (- d - exp x) ltac:(lia))). lia. }
    apply fix_ok; unfold Etiny, Emin, prec; lia.
  - apply Z.eqb_neq in E0.
    pose proof (ndigits_le (coeff x) (28 - d) ltac:(lia) ltac:(lia) ltac:(lia))
      as Hnd.
    destruct (ndigits_spec (coeff x) ltac:(lia)) as (Hnd1 & _ & Hnd3).
    unfold adjusted.
    replace (999999 <? exp x + ndigits (coeff x) - 1) with false
      by (symmetry; apply Z.ltb_ge; lia).
    replace (28 <? exp x + ndigits (coeff x) - 1 - - d + 1) with false
      by (symmetry; apply Z.ltb_ge; lia).
    assert (Hres : rescale x (- d) mode
                   = mk (sign x) (places mode (coeff x) (exp x) d) (- d)).
    { unfold rescale, places.
      replace (coeff x =? 0) with false by (symmetry; apply Z.eqb_neq; lia).
      destruct (- d <=? exp x) eqn:Ee.
      - f_equal. f_equal. f_equal. lia.
      - apply Z.leb_gt in Ee.
        destruct (ndigits (coeff x) + exp x - - d <? 0) eqn:Ek.
        + apply Z.ltb_lt in Ek. f_equal.
          replace (- d - (- d - 1)) with 1 by lia.
          rewrite (round_spec_small mode (coeff x) (- d - exp x));
            [destruct mode; reflexivity|lia|lia|].
          assert (10 ^ ndigits (coeff x) <= 10 ^ (- d - exp x - 1))
            by (apply Z.pow_le_mono_r; lia).
          lia.
        + f_equal. apply round_quot_spec. }
    rewrite Hres. cbn [coeff exp].
    set (c' := places mode (coeff x) (exp x) d) in *.
    assert (Hnd' : 1 <= ndigits c' <= 28).
    { split; [|apply ndigits_le; lia].
      destruct (Z.eq_dec c' 0) as [->|Hn]; [rewrite ndigits_zero; lia|].
      apply ndigits_spec. lia. }
    replace (999999 <? - d + ndigits c' - 1) with false
      by (symmetry; apply Z.ltb_ge; lia).
    replace (28 <? ndigits c') with false by (symmetry; apply Z.ltb_ge; lia).
    apply fix_ok; unfold Etiny, Emin, prec; lia.
Qed.

End DecPlaces.

(** ** [round] and [percent] with decimal places *)

Lemma repeat_char_length (c : ascii) (n : nat) :
  String.length (Str.repeat_char c n) = n.
Proof. induction n as [|n IH]; cbn; [reflexivity|now rewrite IH]. Qed.

Lemma repeat_char_all (p : ascii -> bool) (c : ascii) (n : nat) :
  p c = true -> Str.all_chars p (Str.repeat_char c n) = true.
Proof. intros H. induction n as [|n IH]; cbn; [reflexivity|now rewrite H, IH]. Qed.

Lemma span_digits_one_point (z : string) :
  Dec.span_digits (String "1" (String "." z)) = ("1", String "." z).
Proof. reflexivity. Qed.

Lemma split_sign_one (z : string) :
  PyInt.split_sign (String "1" z) = (false, String "1" z).
Proof. reflexivity. Qed.

Lemma quantum_exp (d : Z) :
  (0 <= d)%Z -> exists q : Dec.t, quantum d = Ok q /\ Dec.exp q = (- d)%Z.
Proof.
  intros Hd. unfold quantum. set (z := Str.repeat_char "0" (Z.to_nat d)).
  assert (Hz : Str.all_chars Str.isdigit z = true)
    by (apply repeat_char_all; reflexivity).
  assert (Hplain : forall p : ascii -> bool,
            p "1"%char = true -> p "."%char = true -> p "0"%char = true ->
            Str.all_chars p (String "1" (String "." z)) = true).
  { intros p H1 H2 H0. cbn [Str.all_chars]. rewrite H1, H2.
    now apply repeat_char_all. }
  change ("1." ++ z) with (String "1" (String "." z)).
  unfold Dec.of_string.
  rewrite strip_none by (apply Hplain; reflexivity).
  rewrite replace_one_char, subst_char_none by (apply Hplain; reflexivity).
  rewrite split_sign_one, span_digits_one_point, Ascii.eqb_refl.
  rewrite (span_digits_digits z Hz). cbn [Str.is_empty negb orb andb].
  eexists. split; [reflexivity|]. cbn [Dec.exp].
  unfold z. rewrite repeat_char_length. lia.
Qed.

(** ** How a decimal is printed *)

Module DecPrint.

Import Dec DecFacts.
Open Scope Z_scope.

Lemma digits_go_S (f : nat) (c : Z) (acc : string) :
  digits_go (S f) c acc
  = if c <? 10 then String (digit_char (c mod 10)) acc
    else digits_go f (c / 10) (String (digit_char (c mod 10)) acc).
Proof. reflexivity. Qed.

Lemma half_fuel (c : Z) (g : nat) :
  10 <= c -> c < 2 ^ (Z.of_nat (S g) + 1) ->
  0 <= c / 10 < 2 ^ (Z.of_nat g + 1).
Proof.
  intros Hc Hlt. split; [apply Z.div_pos; lia|].
  apply Z.div_lt_upper_bound; [lia|].
  replace (Z.of_nat (S g) + 1) with (Z.of_nat g + 1 + 1) in Hlt by lia.
  rewrite Z.pow_add_r in Hlt by lia. change (2 ^ 1) with 2 in Hlt.
  pose proof (Z.pow_pos_nonneg 2 (Z.of_nat g + 1) ltac:(lia) ltac:(lia)).
  lia.
Qed.

(** More fuel than the number needs changes nothing, and the digits are
    put before what was accumulated. *)
Lemma digits_go_more (f : nat) :
  forall (c : Z) (acc : string) (f' : nat),
    0 <= c < 2 ^ (Z.of_nat f + 1) -> (f <= f')%nat ->
    digits_go (S f') c acc = (digits_go (S f) c EmptyString ++ acc)%string.
Proof.
  induction f as [|g IH]; intros c acc f' Hc Hf.
  - change (2 ^ (Z.of_nat 0 + 1)) with 2 in Hc.
    rewrite !digits_go_S. replace (c <? 10) with true
      by (symmetry; apply Z.ltb_lt; lia).
    reflexivity.
  - rewrite (digits_go_S f'), (digits_go_S (S g)).
    destruct (c <? 10) eqn:E; [reflexivity|].
    apply Z.ltb_ge in E.
    destruct f' as [|g']; [lia|].
    pose proof (half_fuel c g E (proj2 Hc)) as Hq.
    rewrite (IH (c / 10) _ g' Hq ltac:(lia)).
    rewrite (IH (c / 10) (String (digit_char (c mod 10)) EmptyString) g Hq
               ltac:(lia)).
    now rewrite append_assoc.
Qed.

Lemma digits_go_fuel (f f' : nat) (c : Z) (acc : string) :
  0 <= c < 2 ^ (Z.of_nat f + 1) -> c < 2 ^ (Z.of_nat f' + 1) ->
  digits_go (S f) c acc = (digits_go (S f') c EmptyString ++ acc)%string.
Proof.
  intros Hc Hc'. destruct (le_ge_dec f f') as [Hle|Hge].
  - rewrite (digits_go_more f c acc f Hc (Nat.le_refl f)).
    rewrite (digits_go_more f c EmptyString f' Hc Hle).
    now rewrite append_empty_r.
  - apply digits_go_more; [lia|exact Hge].
Qed.

Lemma log2_fuel (c : Z) : 0 <= c -> c < 2 ^ (Z.of_nat (Z.to_nat (Z.log2 c)) + 1).
Proof.
  intros Hc. rewrite Z2Nat.id by apply Z.log2_nonneg.
  destruct (Z.eq_dec c 0) as [->|Hn]; [reflexivity|].
  replace (Z.log2 c + 1) with (Z.succ (Z.log2 c)) by lia.
  apply Z.log2_spec. lia.
Qed.

Lemma digits_small (c : Z) :
  0 <= c < 10 -> digits c = String (digit_char c) EmptyString.
Proof.
  intros Hc. unfold digits. cbn [digits_go].
  replace (c <? 10) with true by (symmetry; apply Z.ltb_lt; lia).
  now rewrite Z.mod_small by lia.
Qed.

Lemma digits_snoc (c : Z) :
  10 <= c ->
  digits c = (digits (c / 10) ++ String (digit_char (c mod 10)) EmptyString)%string.
Proof.
  intros Hc. unfold digits at 1. rewrite digits_go_S.
  replace (c <? 10) with false by (symmetry; apply Z.ltb_ge; lia).
  pose proof (log2_fuel c ltac:(lia)) as Hf.
  destruct (Z.to_nat (Z.log2 c)) as [|g] eqn:Eg.
  { change (2 ^ (Z.of_nat 0 + 1)) with 2 in Hf. lia. }
  pose proof (half_fuel c g Hc Hf) as Hq.
  apply digits_go_fuel; [exact Hq|apply log2_fuel; lia].
Qed.

Lemma last_digits_length (n : nat) :
  forall c : Z, String.length (last_digits n c) = n.
Proof.
  induction n as [|k IH]; intros c; [reflexivity|].
  cbn [last_digits]. rewrite length_append, IH. cbn [String.length]. lia.
Qed.

Lemma repeat_char_snoc (a : ascii) (n : nat) :
  (Str.repeat_char a n ++ String a EmptyString)%string = Str.repeat_char a (S n).
Proof.
  induction n as [|k IH]; [reflexivity|].
  cbn [Str.repeat_char append] in *. now rewrite IH.
Qed.

Lemma last_digits_zero (n : nat) : last_digits n 0 = Str.repeat_char "0" n.
Proof.
  induction n as [|k IH]; [reflexivity|].
  cbn [last_digits]. change (0 / 10) with 0. change (0 mod 10) with 0.
  rewrite IH. change (digit_char 0) with "0"%char. apply repeat_char_snoc.
Qed.

(** A number of at least [n + 1] digits: its digits are those of its
    quotient by [10^n], then its [n] last digits. *)
Lemma digits_split (n : nat) :
  forall c : Z,
    10 ^ Z.of_nat n <= c ->
    digits c = (digits (c / 10 ^ Z.of_nat n) ++ last_digits n c)%string.
Proof.
  induction n as [|k IH]; intros c Hc.
  - cbn [last_digits]. change (10 ^ Z.of_nat 0) with 1.
    now rewrite Z.div_1_r, append_empty_r.
  - replace (Z.of_nat (S k)) with (Z.of_nat k + 1) in * by lia.
    rewrite pow10_succ in * by lia.
    pose proof (pow10_pos (Z.of_nat k) ltac:(lia)) as Hp.
    rewrite (digits_snoc c) by lia.
    assert (Hq : 10 ^ Z.of_nat k <= c / 10)
      by (apply Z.div_le_lower_bound; lia).
    rewrite (IH (c / 10) Hq). cbn [last_digits].
    rewrite Z.div_div by lia. now rewrite append_assoc.
Qed.

(** A number below [10^n]: its [n] last digits are its digits after
    zeros. *)
Lemma last_digits_small (n : nat) :
  forall c : Z,
    0 <= c < 10 ^ Z.of_nat (S n) ->
    last_digits (S n) c
    = (Str.repeat_char "0" (S n - String.length (digits c)) ++ digits c)%string.
Proof.
  induction n as [|k IH]; intros c Hc.
  - change (10 ^ Z.of_nat 1) with 10 in Hc.
    rewrite (digits_small c Hc). cbn [last_digits String.length Nat.sub
      Str.repeat_char append].
    now rewrite Z.mod_small by lia.
  - destruct (Z_lt_le_dec c 10) as [Hlt|Hge].
    + rewrite (digits_small c ltac:(lia)).
      cbn [last_digits String.length].
      rewrite (Z.div_small c 10) by lia. change (0 / 10) with 0.
      change (0 mod 10) with 0.
      rewrite last_digits_zero. change (digit_char 0) with "0"%char.
      rewrite repeat_char_snoc, (Z.mod_small c 10) by lia.
      replace (S (S k) - 1)%nat with (S k) by lia. reflexivity.
    + replace (Z.of_nat (S (S k))) with (Z.of_nat (S k) + 1) in Hc by lia.
      rewrite pow10_succ in Hc by lia.
      assert (Hq : 0 <= c / 10 < 10 ^ Z.of_nat (S k)).
      { split; [apply Z.div_pos; lia|].
        apply Z.div_lt_upper_bound; lia. }
      change (last_digits (S (S k)) c)
        with (last_digits (S k) (c / 10)
              ++ String (digit_char (c mod 10)) EmptyString)%string.
      rewrite (IH (c / 10) Hq), (digits_snoc c Hge), length_append.
      cbn [String.length].
      replace (S (S k) - (String.length (digits (c / 10)) + 1))%nat
        with (S k - String.length (digits (c / 10)))%nat by lia.
      now rewrite append_assoc.
Qed.

(** In positional notation, the decimal [c * 10^-d] is printed with
    exactly [d] decimal places. *)
Lemma to_str_fixed (s : bool) (c d : Z) :
  0 <= c -> 0 <= d ->
  d - 6 < Z.of_nat (String.length (digits c)) ->
  to_str (mk s c (- d)) = fixed_point s c d.
Proof.
  intros Hc Hd H6. unfold to_str, fixed_point. cbn [coeff exp sign].
  f_equal.
  pose proof (digits_nonempty c) as Hlen.
  set (ds := digits c) in *.
  set (len := Z.of_nat (String.length ds)) in *.
  replace ((- d <=? 0) && (-6 <? - d + len)) with true.
  2:{ symmetry. apply andb_true_iff. split; [apply Z.leb_le|apply Z.ltb_lt]; lia. }
  rewrite Z.eqb_refl, append_empty_r.
  pose proof (pow10_pos d Hd) as Hp.
  destruct (Z.eqb_spec d 0) as [->|Hd0].
  - change (10 ^ 0) with 1. rewrite Z.div_1_r. fold ds.
    replace (- 0 + len <=? 0) with false by (symmetry; apply Z.leb_gt; lia).
    replace (len <=? - 0 + len) with true by (symmetry; apply Z.leb_le; lia).
    replace (- 0 + len - len) with 0 by lia. cbn [Z.to_nat Str.repeat_char].
    reflexivity.
  - destruct (Z.to_nat d) as [|n] eqn:En; [lia|].
    assert (Ed : d = Z.of_nat (S n)) by lia.
    destruct (Z_lt_le_dec c (10 ^ d)) as [Hlt|Hge].
    + assert (Hs : last_digits (S n) c
                   = (Str.repeat_char "0" (S n - String.length ds) ++ ds)%string).
      { apply last_digits_small. rewrite <- Ed. lia. }
      assert (Hl : (String.length ds <= S n)%nat).
      { pose proof (f_equal String.length Hs) as Hl.
        rewrite last_digits_length, length_append, repeat_char_length in Hl.
        lia. }
      rewrite Z.div_small by lia. change (digits 0) with "0"%string.
      replace (- d + len <=? 0) with true
        by (symmetry; apply Z.leb_le; unfold len; lia).
      rewrite Hs.
      replace (Z.to_nat (- (- d + len))) with (S n - String.length ds)%nat
        by (unfold len; lia).
      reflexivity.
    + assert (Hs : ds = (digits (c / 10 ^ d) ++ last_digits (S n) c)%string).
      { unfold ds. rewrite Ed. apply digits_split. rewrite <- Ed. exact Hge. }
      pose proof (digits_nonempty (c / 10 ^ d)) as Hq.
      set (X := digits (c / 10 ^ d)) in *.
      assert (Hl : String.length ds = (String.length X + S n)%nat).
      { rewrite Hs, length_append, last_digits_length. reflexivity. }
      replace (- d + len <=? 0) with false
        by (symmetry; apply Z.leb_gt; unfold len; lia).
      replace (len <=? - d + len) with false
        by (symmetry; apply Z.leb_gt; lia).
      replace (Z.to_nat (- d + len)) with (String.length X)
        by (unfold len; lia).
      replace (Z.to_nat (len - (- d + len))) with (S n) by lia.
      rewrite Hs at 1 2.
      rewrite substring_prefix.
      rewrite <- (last_digits_length (S n) c) at 1.
      now rewrite substring_suffix.
Qed.

Lemma to_str_printed (s : bool) (c d : Z) :
  0 <= c -> 0 <= d ->
  to_str (mk s c (- d)) = printed s c d
  /\ (d <= 6 -> printed s c d = fixed_point s c d).
Proof.
  intros Hc Hd. unfold printed.
  pose proof (digits_nonempty c) as Hlen.
  destruct (d - 6 <? Z.of_nat (String.length (digits c))) eqn:E.
  - apply Z.ltb_lt in E. split; [now apply to_str_fixed|reflexivity].
  - apply Z.ltb_ge in E. split; [reflexivity|lia].
Qed.

End DecPrint.

(** X10.  With [decimals = d] from 0 to 27, a value that (after a
    parenthesized value is given its minus sign) matches the pattern of
    [round] and denotes, once its commas are removed, the decimal
    [c * 10^e] with [c < 10^(28-d)], becomes that number at [d] decimal
    places as [Decimal] prints it: zeros are added where it has fewer
    places, and where it has more it is rounded half to even, or toward
    zero when the modifier was given [down].  For [d] up to 6 the result
    is in positional notation, with exactly [d] digits after the point;
    for a larger [d] a number of too few digits comes in scientific
    notation. *)
Theorem round_to_decimal_places :
  forall (s : CellSpans) (d : Z) (r : option Dec.rounding) (value : string)
         (x : Dec.t),
    (0 <= d <= 27)%Z ->
    Re.match_anchored round_pattern (unparen value) = true ->
    Dec.of_string (Str.replace "," EmptyString (unparen value)) = Ok x ->
    (Dec.coeff x < 10 ^ (28 - d))%Z ->
    (-500000 <= Dec.exp x)%Z ->
    apply (RoundNumbers s d r) value
    = Ok (printed (Dec.sign x)
            (places (mode_of r) (Dec.coeff x) (Dec.exp x) d) d)
    /\ ((d <= 6)%Z ->
        apply (RoundNumbers s d r) value
        = Ok (fixed_point (Dec.sign x)
                (places (mode_of r) (Dec.coeff x) (Dec.exp x) d) d)).
Proof.
  intros s d r value x Hd Hm Hx Hc He.
  destruct (of_string_range _ _ Hx) as (Hc0 & He0).
  destruct (quantum_exp d ltac:(lia)) as (q & Hq & Hqe).
  pose proof (DecPlaces.places_bounds (mode_of r) (Dec.coeff x) (Dec.exp x) d
                Hd ltac:(lia) He0) as Hb.
  destruct (DecPrint.to_str_printed (Dec.sign x)
              (places (mode_of r) (Dec.coeff x) (Dec.exp x) d) d
              ltac:(lia) ltac:(lia)) as [Hp Hf].
  assert (E : apply (RoundNumbers s d r) value
              = Ok (printed (Dec.sign x)
                      (places (mode_of r) (Dec.coeff x) (Dec.exp x) d) d)).
  { cbn [apply]. unfold RoundNumbers_apply. rewrite Hm, Hx. cbn [bind].
    replace (d <? 0)%Z with false by (symmetry; apply Z.ltb_ge; lia).
    rewrite Hq. cbn [bind]. fold (mode_of r).
    rewrite (DecPlaces.quantize_places x q d (mode_of r) Hqe Hd) by lia.
    cbn [bind]. now rewrite Hp. }
  split; [exact E|]. intros H6. now rewrite E, (Hf H6).
Qed.

Lemma round_to_decimal_places_witness :
  apply (RoundNumbers (cell_spans_all ColSpans) 2 None) "1,234.5"
  = Ok (printed (Dec.sign (Dec.mk false 12345 (-1)))
          (places (mode_of None) (Dec.coeff (Dec.mk false 12345 (-1)))
             (Dec.exp (Dec.mk false 12345 (-1))) 2) 2)
  /\ ((2 <= 6)%Z ->
      apply (RoundNumbers (cell_spans_all ColSpans) 2 None) "1,234.5"
      = Ok (fixed_point (Dec.sign (Dec.mk false 12345 (-1)))
              (places (mode_of None) (Dec.coeff (Dec.mk false 12345 (-1)))
                 (Dec.exp (Dec.mk false 12345 (-1))) 2) 2)).
Proof.
  apply (round_to_decimal_places (cell_spans_all ColSpans) 2 None "1,234.5"
           (Dec.mk false 12345 (-1))).
  - lia.
  - reflexivity.
  - reflexivity.
  - reflexivity.
  - cbn. lia.
Defined.

(** X11.  With [decimals = d] from 0 to 25, a value that matches the
    pattern of [percent] and denotes, once its commas are removed, the
    decimal [c * 10^e] with [c < 10^(26-d)], becomes the percent command
    around a hundred times that number at [d] decimal places, rounded half
    to even, as [Decimal] prints it: for [d] up to 6 in positional
    notation with exactly [d] digits after the point, for a larger [d] in
    scientific notation when the number has too few digits. *)
Theorem percent_to_decimal_places :
  forall (s : CellSpans) (d : Z) (value : string) (x : Dec.t),
    (0 <= d <= 25)%Z ->
    Re.match_anchored percent_pattern value = true ->
    Dec.of_string (Str.replace "," EmptyString value) = Ok x ->
    (Dec.coeff x < 10 ^ (26 - d))%Z ->
    (-500000 <= Dec.exp x)%Z ->
    apply (Percent s d) value
    = Ok ("\pct{"
          ++ printed (Dec.sign x)
               (places Dec.ROUND_HALF_EVEN (100 * Dec.coeff x) (Dec.exp x) d) d
          ++ "}")
    /\ ((d <= 6)%Z ->
        apply (Percent s d) value
        = Ok ("\pct{"
              ++ fixed_point (Dec.sign x)
                   (places Dec.ROUND_HALF_EVEN (100 * Dec.coeff x) (Dec.exp x) d)
                   d
              ++ "}")).
Proof.
  intros s d value x Hd Hm Hx Hc He.
  destruct (of_string_range _ _ Hx) as (Hc0 & He0).
  destruct (quantum_exp d ltac:(lia)) as (q & Hq & Hqe).
  assert (Hp : (10 ^ (28 - d) = 100 * 10 ^ (26 - d))%Z).
  { replace (28 - d)%Z with (26 - d + 1 + 1)%Z by lia.
    rewrite !DecFacts.pow10_succ by lia. lia. }
  assert (H28 : (10 ^ (28 - d) <= 10 ^ 28)%Z) by (apply Z.pow_le_mono_r; lia).
  pose proof (DecPlaces.places_bounds Dec.ROUND_HALF_EVEN (100 * Dec.coeff x)
                (Dec.exp x) d ltac:(lia) ltac:(lia) He0) as Hb.
  destruct (DecPrint.to_str_printed (Dec.sign x)
              (places Dec.ROUND_HALF_EVEN (100 * Dec.coeff x) (Dec.exp x) d) d
              ltac:(lia) ltac:(lia)) as [Hpr Hf].
  assert (E : apply (Percent s d) value
              = Ok ("\pct{"
                    ++ printed (Dec.sign x)
                         (places Dec.ROUND_HALF_EVEN (100 * Dec.coeff x)
                            (Dec.exp x) d) d
                    ++ "}")).
  { cbn [apply]. unfold Percent_apply. rewrite Hm, Hx. cbn [bind].
    unfold Dec.mul. change (Dec.of_int 100) with (Dec.mk false 100 0).
    cbn [Dec.sign Dec.coeff Dec.exp]. rewrite xorb_false_r, Z.add_0_r.
    rewrite DecPlaces.fix_ok
      by (unfold Dec.Etiny, Dec.Emin, Dec.prec; lia).
    cbn [bind]. rewrite Hq. cbn [bind].
    rewrite (DecPlaces.quantize_places _ q d Dec.ROUND_HALF_EVEN Hqe)
      by (cbn [Dec.coeff Dec.exp]; lia).
    cbn [bind Dec.sign Dec.coeff Dec.exp].
    now rewrite (Z.mul_comm (Dec.coeff x) 100), Hpr. }
  split; [exact E|]. intros H6. now rewrite E, (Hf H6).
Qed.

Lemma percent_to_decimal_places_witness :
  apply (Percent (cell_spans_all ColSpans) 1) "0.256"
  = Ok ("\pct{"
        ++ printed (Dec.sign (Dec.mk false 256 (-3)))
             (places Dec.ROUND_HALF_EVEN
                (100 * Dec.coeff (Dec.mk false 256 (-3)))
                (Dec.exp (Dec.mk false 256 (-3))) 1) 1
        ++ "}")
  /\ ((1 <= 6)%Z ->
      apply (Percent (cell_spans_all ColSpans) 1) "0.256"
      = Ok ("\pct{"
            ++ fixed_point (Dec.sign (Dec.mk false 256 (-3)))
                 (places Dec.ROUND_HALF_EVEN
                    (100 * Dec.coeff (Dec.mk false 256 (-3)))
                    (Dec.exp (Dec.mk false 256 (-3))) 1) 1
            ++ "}")).
Proof.
  apply (percent_to_decimal_places (cell_spans_all ColSpans) 1 "0.256"
           (Dec.mk false 256 (-3))).
  - lia.
  - reflexivity.
  - reflexivity.
  - reflexivity.
  - cbn. lia.
Defined.

(** The instances of the two modifiers that the specification lists, and
    two values that come in scientific notation. *)
Lemma round_and_percent_examples :
  apply (RoundNumbers (cell_spans_all ColSpans) 2 None) "1234.5" = Ok "1234.50"
  /\ apply (RoundNumbers (cell_spans_all ColSpans) 0 (Some Dec.ROUND_DOWN)) "9.99"
     = Ok "9"
  /\ apply (RoundNumbers (cell_spans_all ColSpans) 0 None) "(42)" = Ok "-42"
  /\ apply (Percent (cell_spans_all ColSpans) 1) "0.256" = Ok "\pct{25.6}"
  /\ apply (RoundNumbers (cell_spans_all ColSpans) 2 None) "-0.001" = Ok "-0.00"
  /\ apply (RoundNumbers (cell_spans_all ColSpans) 8 None) "0" = Ok "0E-8"
  /\ apply (Percent (cell_spans_all ColSpans) 9) "0" = Ok "\pct{0E-9}".
Proof. repeat split; reflexivity. Qed.

(** ** The pipeline, continued *)

Lemma pipeline_ends_with_row_wrappers_witness :
  exists (us : list Modifier) (border : Modifier),
    example_pipeline = (us ++ [the_row_wrapper; border])%list
    /\ Forall (fun m => is_user m = true) us
    /\ (exists s, border
                  = RowBorderWrapper s (border_mid example_colored) false
                      (border_mid_cmd example_colored))
    /\ (forall cell v, wrap_cell example_pipeline cell v = wrap_cell us cell v)
    /\ (forall row v,
          wrap_rows example_pipeline row v = rule_before border row ++ row_end v).
Proof.
  apply (pipeline_ends_with_row_wrappers example_colored example_pipeline).
  reflexivity.
Defined.

Lemma same_priority_app (p : Z) (l1 l2 : list Modifier) :
  same_priority p (l1 ++ l2) = (same_priority p l1 ++ same_priority p l2)%list.
Proof. unfold same_priority. apply filter_app. Qed.

(** X12.  Modifiers of the same priority run in the order they were
    given in, the row modifiers before the column modifiers. *)
Theorem equal_priority_keeps_given_order :
  forall (o : Options) (ws : list Modifier),
    build_wrappers o = Ok ws ->
    exists rs cs : list Modifier,
      mapM (fun m => parse_modifier m RowSpans) (row_modifiers o) = Ok rs
      /\ mapM (fun m => parse_modifier m ColSpans) (col_modifiers o) = Ok cs
      /\ forall p : Z,
           (10 <= p)%Z ->
           same_priority p ws
           = (same_priority p rs ++ same_priority p cs)%list.
Proof.
  intros o ws H. unfold build_wrappers in H.
  destruct (match truthy (border_top o) with
            | Some v => cell_spans_parse RowSpans v
            | None => Ok (mkCellSpans RowSpans [Span.mk (Some 1%Z) None])
            end) as [bs|]; cbn [bind] in H; [|discriminate].
  destruct (mapM (fun m => parse_modifier m RowSpans) (row_modifiers o))
    as [rs|]; cbn [bind] in H; [|discriminate].
  destruct (mapM (fun m => parse_modifier m ColSpans) (col_modifiers o))
    as [cs|]; cbn [bind] in H; [|discriminate].
  exists rs, cs. split; [reflexivity|]. split; [reflexivity|].
  intros p Hp.
  assert (Hws : ws = sort_wrappers
                       (RowBorderWrapper bs (border_mid o) false (border_mid_cmd o)
                        :: the_row_wrapper :: rs ++ cs)%list)
    by (injection H as <-; reflexivity).
  rewrite Hws, sort_wrappers_stable. unfold same_priority at 1.
  cbn [List.filter priority the_row_wrapper].
  replace (0 =? p)%Z with false by (symmetry; apply Z.eqb_neq; lia).
  replace (1 =? p)%Z with false by (symmetry; apply Z.eqb_neq; lia).
  apply same_priority_app.
Qed.

Lemma equal_priority_keeps_given_order_witness :
  exists rs cs : list Modifier,
    mapM (fun m => parse_modifier m RowSpans) (row_modifiers example_colored)
    = Ok rs
    /\ mapM (fun m => parse_modifier m ColSpans) (col_modifiers example_colored)
       = Ok cs
    /\ forall p : Z,
         (10 <= p)%Z ->
         same_priority p example_pipeline
         = (same_priority p rs ++ same_priority p cs)%list.
Proof.
  apply (equal_priority_keeps_given_order example_colored example_pipeline).
  reflexivity.
Defined.

(** ** A row that fails *)

Lemma print_row_raises_silently (row : Z) (data : Csv.pydict)
  (cols : list string) (ws : list Modifier) (tpl : template) (e : exn) :
  outcome (print_row row data cols ws tpl) = Raise e ->
  print_row row data cols ws tpl = mkRun EmptyString (Raise e).
Proof.
  unfold print_row, bind_run, lift. cbn [outcome output].
  destruct (vh <- row_cells row data cols ws ;; tpl (fst vh) (snd vh))
    as [v|e']; cbn [outcome output print].
  - discriminate.
  - now intros [= ->].
Qed.

(** X13.  Rows are written one by one: when a row cannot be rendered,
    the rows before it have been written in full, nothing of the failing
    row or of the rows after it is written, and the run ends with that
    row's exception. *)
Theorem failing_row_keeps_earlier_output :
  forall (before : list Csv.pydict) (row : Z) (bad : Csv.pydict)
         (after : list Csv.pydict) (cols : list string) (ws : list Modifier)
         (tpl : template) (e : exn),
    outcome (print_rows row before cols ws tpl) = Ok tt ->
    outcome (print_row (row + Z.of_nat (List.length before)) bad cols ws tpl)
    = Raise e ->
    print_rows row (before ++ bad :: after) cols ws tpl
    = mkRun (output (print_rows row before cols ws tpl)) (Raise e).
Proof.
  induction before as [|d before IH]; intros row bad after cols ws tpl e Hok Hbad.
  - cbn [app List.length Z.of_nat] in *. rewrite Z.add_0_r in Hbad.
    cbn [print_rows]. unfold bind_run.
    rewrite (print_row_raises_silently _ _ _ _ _ _ Hbad). reflexivity.
  - cbn [app print_rows] in Hok |- *. unfold bind_run in Hok |- *.
    destruct (outcome (print_row row d cols ws tpl)) as [[]|e'] eqn:Ed;
      cbn [outcome] in Hok; [|discriminate].
    rewrite (IH (row + 1)%Z bad after cols ws tpl e Hok).
    + reflexivity.
    + replace (row + 1 + Z.of_nat (List.length before))%Z
        with (row + Z.of_nat (List.length (d :: before)))%Z
        by (cbn [List.length]; lia).
      exact Hbad.
Qed.

(** * Properties of [prepare-data.py] *)

(** ** Months *)

Module PrepareDataFacts.

Import PrepareData.
Open Scope Z_scope.

Lemma days_in_month_ge (y m : Z) : 28 <= days_in_month y m.
Proof.
  unfold days_in_month. destruct (m =? 2); [destruct (is_leap y); lia|].
  destruct ((m =? 4) || (m =? 6) || (m =? 9) || (m =? 11)); lia.
Qed.

Lemma valid_bounds (d : date) :
  valid d = true ->
  1 <= year d <= 9999 /\ 1 <= month d <= 12
  /\ 1 <= day d <= days_in_month (year d) (month d).
Proof.
  unfold valid. intros H.
  repeat (apply andb_true_iff in H; destruct H as [H ?]).
  repeat match goal with
         | h : (_ <=? _) = true |- _ => apply Z.leb_le in h
         end. lia.
Qed.

Lemma valid_first (y m : Z) :
  1 <= y <= 9999 -> 1 <= m <= 12 -> valid (mkDate y m 1) = true.
Proof.
  intros Hy Hm. unfold valid. cbn [year month day].
  pose proof (days_in_month_ge y m).
  repeat (apply andb_true_iff; split); apply Z.leb_le; lia.
Qed.

Lemma date_leb_iff (a b : date) :
  date_leb a b = true
  <-> year a < year b
      \/ (year a = year b
          /\ (month a < month b \/ (month a = month b /\ day a <= day b))).
Proof.
  unfold date_leb.
  rewrite orb_true_iff, andb_true_iff, orb_true_iff, andb_true_iff.
  rewrite !Z.ltb_lt, !Z.eqb_eq, Z.leb_le. reflexivity.
Qed.

Lemma next_month_ok (d : date) :
  valid d = true -> month_index d < 119999 ->
  next_month d = Ok (first_of_month (month_index d + 1)).
Proof.
  intros Hv Hi. destruct (valid_bounds d Hv) as (Hy & Hm & _).
  unfold month_index in *. unfold next_month, make_date, first_of_month.
  destruct (month d =? 12) eqn:E.
  - apply Z.eqb_eq in E. rewrite valid_first by lia.
    f_equal. f_equal; Z.div_mod_to_equations; lia.
  - apply Z.eqb_neq in E. rewrite valid_first by lia.
    f_equal. f_equal; Z.div_mod_to_equations; lia.
Qed.

Lemma month_index_first (i : Z) : month_index (first_of_month i) = i.
Proof.
  unfold month_index, first_of_month. cbn [year month].
  Z.div_mod_to_equations. lia.
Qed.

Lemma valid_first_of_month (i : Z) :
  12 <= i < 120000 -> valid (first_of_month i) = true.
Proof.
  intros Hi. unfold first_of_month. apply valid_first;
    Z.div_mod_to_equations; lia.
Qed.

Lemma next_month_first (i : Z) :
  12 <= i -> i + 1 < 120000 ->
  next_month (first_of_month i) = Ok (first_of_month (i + 1)).
Proof.
  intros H1 H2. rewrite next_month_ok.
  - now rewrite month_index_first.
  - apply valid_first_of_month. lia.
  - rewrite month_index_first. lia.
Qed.

Lemma date_leb_first (i j : Z) :
  date_leb (first_of_month i) (first_of_month j) = (i <=? j).
Proof.
  apply eq_iff_eq_true. rewrite date_leb_iff, Z.leb_le.
  unfold first_of_month. cbn [year month day].
  Z.div_mod_to_equations. lia.
Qed.

Lemma months_loop_spec (f : positive) (j : Z) :
  j + 1 < 120000 ->
  forall (fuel : nat) (i : Z),
    12 <= i -> fuel = Z.to_nat (j - i + 1) ->
    months_loop fuel (first_of_month i) (first_of_month j) f
    = (map first_of_month (List.filter (on_tick f) (zrange i fuel)), None).
Proof.
  intros Hj. induction fuel as [|n IH]; intros i Hi Hfuel; [reflexivity|].
  cbn [months_loop]. rewrite date_leb_first.
  replace (i <=? j) with true by (symmetry; apply Z.leb_le; lia).
  rewrite next_month_first by lia.
  rewrite (IH (i + 1)) by lia.
  cbn [zrange List.filter]. unfold on_tick at 2.
  change (month (first_of_month i)) with (i mod 12 + 1).
  rewrite Z.add_simpl_r.
  destruct ((i mod 12) mod Z.pos f =? 0); reflexivity.
Qed.

End PrepareDataFacts.

(** X14.  [next_month] gives the first day of the month that follows:
    a valid date, strictly later than the one given.  Only for a day of
    December 9999 is there none, and [ValueError] is raised. *)
Theorem next_month_is_first_of_following :
  forall d : PrepareData.date,
    PrepareData.valid d = true ->
    if (PrepareData.month_index d <? 119999)%Z
    then PrepareData.next_month d
         = Ok (first_of_month (PrepareData.month_index d + 1))
         /\ PrepareData.valid (first_of_month (PrepareData.month_index d + 1))
            = true
         /\ PrepareData.date_leb
              (first_of_month (PrepareData.month_index d + 1)) d = false
    else PrepareData.next_month d = Raise ValueError.
Proof.
  intros d Hv.
  destruct (PrepareDataFacts.valid_bounds d Hv) as (Hy & Hm & Hd).
  destruct (PrepareData.month_index d <? 119999)%Z eqn:E.
  - apply Z.ltb_lt in E. split; [now apply PrepareDataFacts.next_month_ok|].
    unfold PrepareData.month_index in *.
    split; [apply PrepareDataFacts.valid_first_of_month; lia|].
    apply not_true_is_false. rewrite PrepareDataFacts.date_leb_iff.
    unfold first_of_month. cbn [PrepareData.year PrepareData.month PrepareData.day].
    Z.div_mod_to_equations. lia.
  - apply Z.ltb_ge in E. unfold PrepareData.month_index in E.
    assert (Hy' : PrepareData.year d = 9999%Z) by lia.
    assert (Hm' : PrepareData.month d = 12%Z) by lia.
    unfold PrepareData.next_month. rewrite Hm', Hy'. reflexivity.
Qed.

Lemma next_month_is_first_of_following_witness :
  if (PrepareData.month_index (PrepareData.mkDate 2023 12 31) <? 119999)%Z
  then PrepareData.next_month (PrepareData.mkDate 2023 12 31)
       = Ok (first_of_month
               (PrepareData.month_index (PrepareData.mkDate 2023 12 31) + 1))
       /\ PrepareData.valid
            (first_of_month
               (PrepareData.month_index (PrepareData.mkDate 2023 12 31) + 1))
          = true
       /\ PrepareData.date_leb
            (first_of_month
               (PrepareData.month_index (PrepareData.mkDate 2023 12 31) + 1))
            (PrepareData.mkDate 2023 12 31) = false
  else PrepareData.next_month (PrepareData.mkDate 2023 12 31) = Raise ValueError.
Proof.
  apply (next_month_is_first_of_following (PrepareData.mkDate 2023 12 31)).
  reflexivity.
Defined.

(** X15.  [itermonths] yields, in order, the first day of every month
    from the one after [from_date] to the one after [to_date], both
    included, whose number less one is a multiple of the frequency; it
    yields nothing when [from_date] is in a later month than [to_date]. *)
Theorem itermonths_yields_the_ticks :
  forall (from_date to_date : PrepareData.date) (frequency : positive),
    PrepareData.valid from_date = true ->
    PrepareData.valid to_date = true ->
    (PrepareData.year from_date <= 9998)%Z ->
    (PrepareData.year to_date <= 9998)%Z ->
    PrepareData.itermonths from_date to_date frequency
    = (map first_of_month
         (List.filter (on_tick frequency)
            (zrange (PrepareData.month_index from_date + 1)
               (Z.to_nat (PrepareData.month_index to_date
                          - PrepareData.month_index from_date + 1)))),
       None).
Proof.
  intros from_date to_date f Hvf Hvt Hyf Hyt.
  destruct (PrepareDataFacts.valid_bounds _ Hvf) as (Hy1 & Hm1 & _).
  destruct (PrepareDataFacts.valid_bounds _ Hvt) as (Hy2 & Hm2 & _).
  unfold PrepareData.itermonths.
  rewrite !PrepareDataFacts.next_month_ok
    by (try assumption; unfold PrepareData.month_index; lia).
  rewrite !PrepareDataFacts.month_index_first.
  rewrite PrepareDataFacts.months_loop_spec;
    unfold PrepareData.month_index in *; try lia.
  do 4 f_equal. lia.
Qed.

Lemma itermonths_yields_the_ticks_witness :
  PrepareData.itermonths (PrepareData.mkDate 2023 11 15)
    (PrepareData.mkDate 2024 2 10) 3
  = (map first_of_month
       (List.filter (on_tick 3)
          (zrange (PrepareData.month_index (PrepareData.mkDate 2023 11 15) + 1)
             (Z.to_nat (PrepareData.month_index (PrepareData.mkDate 2024 2 10)
                        - PrepareData.month_index (PrepareData.mkDate 2023 11 15)
                        + 1)))),
     None).
Proof.
  apply (itermonths_yields_the_ticks (PrepareData.mkDate 2023 11 15)
           (PrepareData.mkDate 2024 2 10) 3);
    [reflexivity|reflexivity|cbn; lia|cbn; lia].
Defined.

(** From 15 November 2023 to 10 February 2024, quarterly: the first of
    January 2024 only. *)
Lemma itermonths_example :
  PrepareData.itermonths (PrepareData.mkDate 2023 11 15)
    (PrepareData.mkDate 2024 2 10) 3
  = ([PrepareData.mkDate 2024 1 1], None).
Proof. reflexivity. Qed.

(** ** Row filters *)

Lemma split_go_no_colon (a : string) :
  Str.all_chars not_colon a = true -> Str.split_go ":" 0 a = (a, []).
Proof.
  induction a as [|c a IH]; intros H; [reflexivity|].
  simpl in H. apply andb_true_iff in H. destruct H as [Hc Hs].
  apply negb_true_iff in Hc. cbn [Str.split_go].
  rewrite prefix_cons, Hc. cbn [andb]. now rewrite (IH Hs).
Qed.

Lemma split_key_value (kv : string * string) :
  colon_free kv = true ->
  PrepareData.key_value (key_colon_value kv) = Ok kv.
Proof.
  destruct kv as [k v]. unfold colon_free, key_colon_value. cbn [fst snd].
  intros H. apply andb_true_iff in H. destruct H as [Hk Hv].
  unfold PrepareData.key_value, Str.split.
  assert (E : Str.split_go ":" 0 (k ++ ":" ++ v) = (k, [v])).
  { cbn [append].
    assert (Hv' : Str.split_go ":" 0 v = (v, [])) by now apply split_go_no_colon.
    clear - Hk Hv'. induction k as [|c k IH].
    - cbn [append Str.split_go]. rewrite prefix_cons, prefix_empty.
      cbn [Ascii.eqb Bool.eqb andb String.length Nat.sub]. now rewrite Hv'.
    - simpl in Hk. apply andb_true_iff in Hk. destruct Hk as [Hc Hs].
      apply negb_true_iff in Hc. cbn [append Str.split_go].
      rewrite prefix_cons, Hc. cbn [andb]. now rewrite (IH Hs). }
  now rewrite E.
Qed.

Lemma value_is_holds (row : Csv.pydict) (kv : string * string) :
  has_column row kv = true ->
  PrepareData.value_is row (fst kv) (snd kv) = Ok (holds row kv).
Proof.
  unfold has_column, holds, PrepareData.value_is.
  destruct (Csv.dict_get (fst kv) row) as [[x|]|]; [reflexivity|reflexivity|].
  discriminate.
Qed.

Lemma keep_excludes_spec (row : Csv.pydict) (es : list (string * string)) :
  forallb colon_free es = true -> forallb (has_column row) es = true ->
  PrepareData.keep_excludes row (map key_colon_value es)
  = Ok (forallb (fun kv => negb (holds row kv)) es).
Proof.
  induction es as [|kv es IH]; intros Hc Hh; [reflexivity|].
  cbn [forallb] in Hc, Hh. apply andb_true_iff in Hc, Hh.
  destruct Hc as [Hc Hcs]. destruct Hh as [Hh Hhs].
  cbn [map PrepareData.keep_excludes forallb].
  rewrite (split_key_value kv Hc). cbn [bind].
  rewrite (value_is_holds row kv Hh). cbn [bind].
  destruct (holds row kv); [reflexivity|]. now apply IH.
Qed.

(** X16.  With filters and excludes of the form [column:value], on
    columns the row has: a row is kept exactly when it has the value of
    every filter and the value of no exclude. *)
Theorem keeprow_all_filters_no_exclude :
  forall (row : Csv.pydict) (fs es : list (string * string)),
    forallb colon_free (fs ++ es) = true ->
    forallb (has_column row) (fs ++ es) = true ->
    PrepareData.keeprow row (map key_colon_value fs) (map key_colon_value es)
    = Ok (forallb (holds row) fs
          && forallb (fun kv => negb (holds row kv)) es).
Proof.
  intros row fs es Hc Hh. rewrite forallb_app in Hc, Hh.
  apply andb_true_iff in Hc, Hh.
  destruct Hc as [Hcf Hce]. destruct Hh as [Hhf Hhe].
  induction fs as [|kv fs IH].
  - cbn [map PrepareData.keeprow forallb andb]. now apply keep_excludes_spec.
  - cbn [forallb] in Hcf, Hhf. apply andb_true_iff in Hcf, Hhf.
    destruct Hcf as [Hc Hcs]. destruct Hhf as [Hh Hhs].
    cbn [map PrepareData.keeprow forallb].
    rewrite (split_key_value kv Hc). cbn [bind].
    rewrite (value_is_holds row kv Hh). cbn [bind].
    destruct (holds row kv); [now apply IH|reflexivity].
Qed.

Lemma keeprow_all_filters_no_exclude_witness :
  PrepareData.keeprow [("kind", Some "a"); ("year", Some "2023")]
    (map key_colon_value [("kind", "a")]) (map key_colon_value [("year", "2024")])
  = Ok (forallb (holds [("kind", Some "a"); ("year", Some "2023")]) [("kind", "a")]
        && forallb
             (fun kv => negb (holds [("kind", Some "a"); ("year", Some "2023")] kv))
             [("year", "2024")]).
Proof.
  apply (keeprow_all_filters_no_exclude
           [("kind", Some "a"); ("year", Some "2023")]
           [("kind", "a")] [("year", "2024")]); reflexivity.
Defined.



(** ** Quoting for the plot data *)

Lemma subst_char_delete (o : ascii) (p : ascii -> bool) (s : string) :
  Str.all_chars (fun c => negb (Ascii.eqb c o)) (subst_char o EmptyString s) = true
  /\ (Str.all_chars p s = true ->
      Str.all_chars p (subst_char o EmptyString s) = true).
Proof.
  induction s as [|c s [IH1 IH2]]; [split; reflexivity|].
  cbn [subst_char]. destruct (Ascii.eqb c o) eqn:E; cbn [append Str.all_chars].
  - split; [exact IH1|]. intros H. apply andb_true_iff in H. now apply IH2.
  - rewrite E, IH1. split; [reflexivity|].
    intros H. apply andb_true_iff in H. destruct H as [Hc Hs].
    now rewrite Hc, (IH2 Hs).
Qed.

Lemma delete_space_and_underscore (k : string) :
  subst_char "_" EmptyString (subst_char " " EmptyString k)
  = keep_chars header_char k.
Proof.
  induction k as [|c k IH]; [reflexivity|].
  cbn [subst_char keep_chars]. unfold header_char at 1.
  destruct (Ascii.eqb c " ") eqn:Es; cbn [append negb andb].
  - exact IH.
  - cbn [subst_char]. rewrite IH.
    now destruct (Ascii.eqb c "_").
Qed.

(** X18.  [quote_header] takes the spaces and underscores out of a
    column name and keeps every other character, in order: none of the two
    is left, and a second pass changes nothing. *)
Theorem quote_header_removes_spaces_and_underscores :
  forall k : string,
    PrepareData.quote_header k = keep_chars header_char k
    /\ Str.all_chars header_char (PrepareData.quote_header k) = true
    /\ PrepareData.quote_header (PrepareData.quote_header k)
       = PrepareData.quote_header k.
Proof.
  intros k. unfold PrepareData.quote_header. rewrite !replace_one_char.
  split; [apply delete_space_and_underscore|].
  set (t := subst_char " " EmptyString k).
  assert (Hsp : Str.all_chars (fun c => negb (Ascii.eqb c " ")) t = true)
    by apply (subst_char_delete " " (fun _ => true) k).
  destruct (subst_char_delete "_" (fun c => negb (Ascii.eqb c " ")) t)
    as [Hu Hkeep].
  specialize (Hkeep Hsp). set (u := subst_char "_" EmptyString t) in *.
  split.
  - clearbody u. clear - Hu Hkeep. induction u as [|c u IH]; [reflexivity|].
    simpl in Hu, Hkeep. apply andb_true_iff in Hu, Hkeep.
    destruct Hu as [Hu1 Hu2]. destruct Hkeep as [Hk1 Hk2].
    cbn [Str.all_chars]. unfold header_char at 1.
    now rewrite Hu1, Hk1, (IH Hu2 Hk2).
  - rewrite (subst_char_none " " _ u Hkeep). now apply subst_char_none.
Qed.

Lemma escape3_app (x y : string) : escape3 (x ++ y) = escape3 x ++ escape3 y.
Proof. unfold escape3. now rewrite !subst_char_app. Qed.

Lemma escape3_char (c : ascii) :
  tame c = true -> escape3 (String c EmptyString) = escape_char c.
Proof.
  destruct c as [[] [] [] [] [] [] [] []]; vm_compute; intros H;
    try discriminate H; reflexivity.
Qed.

Lemma tame_not_backslash (c : ascii) : tame c = true -> not_backslash c = true.
Proof.
  destruct c as [[] [] [] [] [] [] [] []]; vm_compute; intros H;
    try discriminate H; reflexivity.
Qed.

Lemma escape3_each (s : string) :
  Str.all_chars tame s = true -> escape3 s = escape_each s.
Proof.
  induction s as [|c s IH]; intros H; [reflexivity|].
  simpl in H. apply andb_true_iff in H. destruct H as [Hc Hs].
  change (String c s) with (String c EmptyString ++ s).
  rewrite escape3_app, (escape3_char c Hc), (IH Hs). reflexivity.
Qed.

(** X19.  On a text without any of [$ _ { }] and the backslash, the
    quoting of the plot data and the quoting of the tables agree. *)
Theorem quote_value_agrees_with_quote :
  forall v : string,
    Str.all_chars tame v = true -> PrepareData.quote_value v = quote v.
Proof.
  intros v H. unfold PrepareData.quote_value. rewrite !replace_one_char.
  fold (escape3 (Str.strip v)).
  rewrite (escape3_each _ (all_chars_strip tame v H)).
  symmetry. apply quote_no_backslash.
  eapply all_chars_impl; [|exact H]. apply tame_not_backslash.
Qed.

Lemma quote_value_agrees_with_quote_witness :
  PrepareData.quote_value " 50% & 3# " = quote " 50% & 3# ".
Proof. apply (quote_value_agrees_with_quote " 50% & 3# "). reflexivity. Defined.

Lemma failing_row_keeps_earlier_output_witness :
  print_rows 0 ([row_of "1.5"] ++ row_of "1.2.3" :: [row_of "2"]) ["a"]
    [example_round] default_template
  = mkRun (output (print_rows 0 [row_of "1.5"] ["a"] [example_round]
                     default_template))
          (Raise InvalidOperation).
Proof.
  apply (failing_row_keeps_earlier_output [row_of "1.5"] 0 (row_of "1.2.3")
           [row_of "2"] ["a"] [example_round] default_template InvalidOperation);
    reflexivity.
Defined.

(** * Properties of [include-content.py] *)

Module IncludeFacts.

Import IncludeContent.

Lemma rsplit_dot_none (f : string) :
  Str.all_chars not_point f = true -> rsplit_dot f = None.
Proof.
  induction f as [|c f IH]; intros H; [reflexivity|].
  simpl in H. apply andb_true_iff in H. destruct H as [Hc Hs].
  apply negb_true_iff in Hc. cbn [rsplit_dot]. now rewrite (IH Hs), Hc.
Qed.

Lemma rsplit_dot_last (name ext : string) :
  Str.all_chars not_point ext = true ->
  rsplit_dot (name ++ String "." ext) = Some (name, ext).
Proof.
  intros H. induction name as [|c name IH].
  - cbn [append rsplit_dot]. now rewrite (rsplit_dot_none ext H).
  - cbn [append rsplit_dot]. now rewrite IH.
Qed.








Lemma includes_loop_lines (directory : string) (only exclude : pattern)
  (use_include : bool) (names : list string) :
  Forall (fun f => rsplit_dot f <> None) names ->
  includes_loop directory names only exclude use_include
  = mkRun (String.concat EmptyString
             (map (include_of directory only exclude use_include) names))
          (Ok tt).
Proof.
  induction names as [|x names IH]; intros H; [reflexivity|].
  inversion H as [|? ? Hx Hn]; subst.
  cbn [includes_loop map]. unfold include_of at 1.
  destruct (rsplit_dot x) as [[name ext]|]; [|congruence].
  rewrite (IH Hn). unfold bind_run.
  set (rest := map (include_of directory only exclude use_include) names).
  assert (Hc : forall s, String.concat EmptyString (s :: rest)
                         = s ++ String.concat EmptyString rest).
  { intros s. destruct rest; cbn [String.concat];
      [now rewrite append_empty_r|reflexivity]. }
  rewrite Hc.
  destruct (skipped only exclude name); cbn [outcome output ret];
    [reflexivity|].
  destruct (String.eqb ext "tex"); reflexivity.
Qed.

End IncludeFacts.





Lemma include_of_tex_file (directory name : string) (use_include : bool) :
  nonempty directory = true ->
  Str.endswith "/" directory = false ->
  Str.startswith "/" name = false ->
  include_of directory None None use_include (name ++ ".tex")
  = "\" ++ (if use_include then "include" else "input")
    ++ "{" ++ (directory ++ "/" ++ name) ++ "}" ++ Re.nl.
Proof.
  intros Hd He Hn. unfold include_of.
  change (name ++ ".tex") with (name ++ String "." "tex").
  rewrite (IncludeFacts.rsplit_dot_last name "tex" eq_refl).
  cbn [IncludeContent.skipped orb String.eqb Ascii.eqb Bool.eqb].
  unfold IncludeContent.include_line, IncludeContent.path_join.
  rewrite Hn, He.
  replace (Str.is_empty directory) with false
    by (destruct directory; [discriminate Hd|reflexivity]).
  reflexivity.
Qed.

(** X22.  The extension of a file name is what follows its last point:
    for a directory that holds one file whose name ends in [.tex], the
    listing is the one line with the rest of the name, other points
    included, joined to the directory. *)
Theorem include_line_for_tex_file :
  forall (directory name : string) (use_include : bool),
    nonempty directory = true ->
    Str.endswith "/" directory = false ->
    Str.startswith "/" name = false ->
    IncludeContent.print_includes (Some [name ++ ".tex"]) directory None None
      use_include
    = mkRun ("\" ++ (if use_include then "include" else "input")
             ++ "{" ++ (directory ++ "/" ++ name) ++ "}" ++ Re.nl)
            (Ok tt).
Proof.
  intros directory name use_include Hd He Hn.
  cbn [IncludeContent.print_includes IncludeContent.sorted fold_right
       IncludeContent.insert_sorted].
  rewrite IncludeFacts.includes_loop_lines.
  - cbn [map String.concat].
    now rewrite (include_of_tex_file directory name use_include Hd He Hn).
  - constructor; [|constructor].
    change (name ++ ".tex") with (name ++ String "." "tex").
    now rewrite (IncludeFacts.rsplit_dot_last name "tex" eq_refl).
Qed.

Lemma include_line_for_tex_file_witness :
  IncludeContent.print_includes (Some ["a.b" ++ ".tex"]) "parts" None None true
  = mkRun ("\" ++ "include" ++ "{" ++ ("parts" ++ "/" ++ "a.b") ++ "}" ++ Re.nl)
          (Ok tt).
Proof.
  apply (include_line_for_tex_file "parts" "a.b" true); reflexivity.
Defined.

(** The example directory: the two [.tex] files, in order of their names. *)
Lemma print_includes_example :
  IncludeContent.print_includes (Some ["b.tex"; "notes.txt"; "a.b.tex"]) "parts"
    None None true
  = mkRun ("\include{parts/a.b}" ++ Re.nl ++ "\include{parts/b}" ++ Re.nl)
          (Ok tt).
Proof. reflexivity. Qed.

(** * Further properties of the modifiers and of the table *)

Lemma wrap_cell_uncovered (ws : list Modifier) (cell : coord) (v : string) :
  (forall m, In m ws -> cell_in cell (spans m) = false) ->
  wrap_cell ws cell v = Ok v.
Proof.
  induction ws as [|w ws IH]; intros H; [reflexivity|].
  cbn [wrap_cell]. unfold wrap. rewrite (H w (or_introl eq_refl)).
  cbn [bind]. apply IH. intros m Hm. apply H. now right.
Qed.

(** X23.  A cell that no modifier of the pipeline covers keeps its quoted
    text, whatever the modifiers are; none of them is applied, so none can
    fail on it. *)
Theorem uncovered_cell_is_left_alone :
  forall (ws : list Modifier) (cell : coord) (v : string),
    (forall m, In m ws -> cell_in cell (spans m) = false) ->
    wrap_cell ws cell v = Ok v
    /\ (forall row cols data rest values hv,
          cell = (Some row, Some cols) ->
          cells_loop row cols (data :: rest) ws values hv
          = cells_loop row (cols + 1)%Z rest ws (values ++ [quote_value data])%list
              (if nonempty (quote_value data) then true else hv)).
Proof.
  intros ws cell v H. split; [now apply wrap_cell_uncovered|].
  intros row cols data rest values hv ->. cbn [cells_loop].
  now rewrite (wrap_cell_uncovered ws _ _ H).
Qed.

Lemma uncovered_cell_is_left_alone_witness :
  wrap_cell [example_round; example_fg] (Some 0%Z, Some 1%Z) "1.2.3" = Ok "1.2.3"
  /\ (forall row cols data rest values hv,
        (Some 0%Z, Some 1%Z) = (Some row, Some cols) ->
        cells_loop row cols (data :: rest) [example_round; example_fg] values hv
        = cells_loop row (cols + 1)%Z rest [example_round; example_fg]
            (values ++ [quote_value data])%list
            (if nonempty (quote_value data) then true else hv)).
Proof.
  apply (uncovered_cell_is_left_alone [example_round; example_fg]
           (Some 0%Z, Some 1%Z) "1.2.3").
  intros m [<-|[<-|[]]]; reflexivity.
Defined.

Lemma rstrip_by_idem (p : ascii -> bool) (s : string) :
  Str.rstrip_by p (Str.rstrip_by p s) = Str.rstrip_by p s.
Proof.
  induction s as [|c s IH]; [reflexivity|]. cbn [Str.rstrip_by].
  destruct (Str.is_empty (Str.rstrip_by p s) && p c) eqn:E; [reflexivity|].
  cbn [Str.rstrip_by]. now rewrite IH, E.
Qed.

Lemma is_empty_app_r (a b : string) :
  Str.is_empty b = false -> Str.is_empty (a ++ b) = false.
Proof. intros H. destruct a; [exact H|reflexivity]. Qed.

Lemma rstrip_by_app (p : ascii -> bool) (a b : string) :
  Str.is_empty (Str.rstrip_by p b) = false ->
  Str.rstrip_by p (a ++ b) = a ++ Str.rstrip_by p b.
Proof.
  intros H. induction a as [|c a IH]; [reflexivity|].
  cbn [append Str.rstrip_by]. rewrite IH.
  now rewrite (is_empty_app_r a _ H).
Qed.

Lemma strip_after_directive (x s : string) :
  Str.is_empty (Str.strip s) = false ->
  Str.strip (String "\" (x ++ Str.strip s)) = String "\" (x ++ Str.strip s).
Proof.
  intros H. unfold Str.strip at 1.
  rewrite lstrip_by_first by reflexivity.
  change (String "\" (x ++ Str.strip s)) with (String "\" x ++ Str.strip s).
  unfold Str.strip in *.
  rewrite rstrip_by_app; rewrite rstrip_by_idem; [reflexivity|exact H].
Qed.

(** X24.  Two directives without braces (as [bold] and [italic] are)
    on the same cell: the second is put right before the first, and the
    space before the text is written once, or not at all when the text
    itself begins with a backslash. *)
Theorem stacked_directives_share_one_space :
  forall (s1 s2 : CellSpans) (d1 d2 : option string) (v : string),
    nonempty (Str.strip v) = true ->
    (x <- apply (Wrapper s2 d2 false) v ;; apply (Wrapper s1 d1 false) x)
    = Ok ("\" ++ Str.fmt d1 ++ "\" ++ Str.fmt d2
          ++ (if Str.startswith "\" (Str.strip v) then EmptyString else " ")
          ++ Str.strip v).
Proof.
  intros s1 s2 d1 d2 v Hv. apply negb_true_iff in Hv.
  cbn [apply bind]. unfold Wrapper_apply. rewrite Hv.
  set (sp := if Str.startswith "\" (Str.strip v) then EmptyString else " ").
  change ("\" ++ Str.fmt d2 ++ sp ++ Str.strip v)
    with (String "\" (Str.fmt d2 ++ sp ++ Str.strip v)).
  rewrite <- (append_assoc (Str.fmt d2) sp (Str.strip v)).
  rewrite (strip_after_directive _ v Hv).
  cbn [Str.is_empty]. unfold Str.startswith at 1. rewrite prefix_cons.
  rewrite prefix_empty. cbn [Ascii.eqb Bool.eqb andb].
  now rewrite (append_assoc (Str.fmt d2) sp (Str.strip v)).
Qed.

Lemma stacked_directives_share_one_space_witness :
  (x <- apply (Wrapper (cell_spans_all ColSpans) (Some "itshape") false) " total " ;;
   apply (Wrapper (cell_spans_all RowSpans) (Some "bfseries") false) x)
  = Ok ("\" ++ Str.fmt (Some "bfseries") ++ "\" ++ Str.fmt (Some "itshape")
        ++ (if Str.startswith "\" (Str.strip " total ") then EmptyString else " ")
        ++ Str.strip " total ").
Proof.
  apply (stacked_directives_share_one_space (cell_spans_all RowSpans)
           (cell_spans_all ColSpans) (Some "bfseries") (Some "itshape") " total ").
  reflexivity.
Defined.

(** X25.  [cmark-if] and [xmark-if] with different values do not disturb
    each other: in either order the cell becomes a check mark when it
    holds the first value, a cross when it holds the second, and stays as
    it is otherwise (neither value being the other's mark). *)
Theorem marks_commute :
  forall (s1 s2 : CellSpans) (a b v : string),
    a <> b -> a <> "\xmark" -> b <> "\cmark" ->
    (x <- apply (CheckmarkIfValue s1 (Some a)) v ;;
     apply (CrossmarkIfValue s2 (Some b)) x)
    = Ok (if String.eqb (Str.strip v) a then "\cmark"
          else if String.eqb (Str.strip v) b then "\xmark" else v)
    /\ (x <- apply (CrossmarkIfValue s2 (Some b)) v ;;
        apply (CheckmarkIfValue s1 (Some a)) x)
       = Ok (if String.eqb (Str.strip v) a then "\cmark"
             else if String.eqb (Str.strip v) b then "\xmark" else v).
Proof.
  intros s1 s2 a b v Hab Ha Hb. cbn [apply bind]. unfold stripped_is.
  assert (Hc : String.eqb (Str.strip "\cmark") b = false).
  { apply String.eqb_neq. intros E. apply Hb. now rewrite <- E. }
  assert (Hx : String.eqb (Str.strip "\xmark") a = false).
  { apply String.eqb_neq. intros E. apply Ha. now rewrite <- E. }
  destruct (String.eqb (Str.strip v) a) eqn:Ea;
    destruct (String.eqb (Str.strip v) b) eqn:Eb;
    [apply String.eqb_eq in Ea, Eb; congruence| | |];
    rewrite ?Hc, ?Hx, ?Ea, ?Eb; now split.
Qed.

Lemma marks_commute_witness :
  (x <- apply (CheckmarkIfValue (cell_spans_all ColSpans) (Some "yes")) " no" ;;
   apply (CrossmarkIfValue (cell_spans_all ColSpans) (Some "no")) x)
  = Ok (if String.eqb (Str.strip " no") "yes" then "\cmark"
        else if String.eqb (Str.strip " no") "no" then "\xmark" else " no")
  /\ (x <- apply (CrossmarkIfValue (cell_spans_all ColSpans) (Some "no")) " no" ;;
      apply (CheckmarkIfValue (cell_spans_all ColSpans) (Some "yes")) x)
     = Ok (if String.eqb (Str.strip " no") "yes" then "\cmark"
           else if String.eqb (Str.strip " no") "no" then "\xmark" else " no").
Proof.
  apply (marks_commute (cell_spans_all ColSpans) (cell_spans_all ColSpans)
           "yes" "no" " no"); discriminate.
Defined.

(** ** The items of a list cell *)

Lemma split_go_skip (sep t rest : string) :
  Str.split_go sep (String.length t) (t ++ rest) = Str.split_go sep 0 rest.
Proof.
  induction t as [|c t IH]; [|exact IH].
  cbn [String.length append]. reflexivity.
Qed.

Lemma split_go_plain (o : ascii) (sep x : string) :
  Str.all_chars (fun c => negb (Ascii.eqb c o)) x = true ->
  Str.split_go (String o sep) 0 x = (x, []).
Proof.
  induction x as [|c x IH]; intros H; [reflexivity|].
  simpl in H. apply andb_true_iff in H. destruct H as [Hc Hx].
  apply negb_true_iff in Hc.
  cbn [Str.split_go]. rewrite prefix_cons, Hc. cbn [andb].
  now rewrite (IH Hx).
Qed.

Lemma split_go_item (o : ascii) (sep x rest : string) :
  Str.all_chars (fun c => negb (Ascii.eqb c o)) x = true ->
  Str.split_go (String o sep) 0 (x ++ String o (sep ++ rest))
  = (x, fst (Str.split_go (String o sep) 0 rest)
        :: snd (Str.split_go (String o sep) 0 rest)).
Proof.
  induction x as [|c x IH]; intros H.
  - cbn [append Str.split_go]. rewrite prefix_cons, Ascii.eqb_refl.
    cbn [andb].
    assert (Hp : forall s t, prefix s (s ++ t) = true).
    { induction s as [|d s IHs]; intros t; [apply prefix_empty|].
      cbn [append]. now rewrite prefix_cons, Ascii.eqb_refl, IHs. }
    rewrite Hp.
    replace (String.length (String o sep) - 1)%nat with (String.length sep)
      by (cbn [String.length]; lia).
    rewrite split_go_skip.
    now destruct (Str.split_go (String o sep) 0 rest).
  - simpl in H. apply andb_true_iff in H. destruct H as [Hc Hx].
    apply negb_true_iff in Hc.
    cbn [append Str.split_go]. rewrite prefix_cons, Hc. cbn [andb].
    now rewrite (IH Hx).
Qed.

Lemma split_join (o : ascii) (sep : string) (items : list string) :
  items <> [] ->
  Forall (fun x => Str.all_chars (fun c => negb (Ascii.eqb c o)) x = true) items ->
  Str.split (String o sep) (Str.join (String o sep) items) = items.
Proof.
  intros Hne H. induction H as [|x l Hx Hl IH]; [congruence|].
  unfold Str.split, Str.join in *. destruct l as [|y l].
  - cbn [String.concat]. now rewrite (split_go_plain o sep x Hx).
  - change (String.concat (String o sep) (x :: y :: l))
      with (x ++ String o (sep ++ String.concat (String o sep) (y :: l))).
    rewrite (split_go_item o sep x _ Hx).
    specialize (IH ltac:(discriminate)).
    destruct (Str.split_go (String o sep) 0
                (String.concat (String o sep) (y :: l))) as [p ps].
    cbn [fst snd]. now rewrite IH.
Qed.

Lemma last_char_app (a b : string) :
  Str.is_empty b = false -> last_char (a ++ b) = last_char b.
Proof.
  intros H. induction a as [|c a IH]; [reflexivity|].
  cbn [append last_char]. rewrite IH.
  destruct (a ++ b) eqn:E; [|reflexivity].
  destruct a; [cbn in E; subst b; discriminate H|discriminate E].
Qed.

Lemma rstrip_by_last (p : ascii -> bool) (s : string) (c : ascii) :
  last_char s = Some c -> p c = false -> Str.rstrip_by p s = s.
Proof.
  induction s as [|a s IH]; intros H Hp; [discriminate H|].
  destruct s as [|b s].
  - injection H as ->. cbn [Str.rstrip_by Str.is_empty]. now rewrite Hp.
  - change (last_char (String a (String b s))) with (last_char (String b s)) in H.
    cbn [Str.rstrip_by] in *. rewrite (IH H Hp).
    reflexivity.
Qed.

Lemma plain_end_some (o : option ascii) :
  plain_end o = true -> exists c, o = Some c /\ dash_or_space c = false.
Proof.
  destruct o as [c|]; [|discriminate]. intros H. exists c.
  split; [reflexivity|]. now apply negb_true_iff.
Qed.

Lemma join_last (sep : string) (items : list string) :
  items <> [] -> forallb is_item items = true ->
  plain_end (last_char (Str.join sep items)) = true.
Proof.
  intros Hne H. induction items as [|x l IH]; [congruence|].
  cbn [forallb] in H. apply andb_true_iff in H. destruct H as [Hx Hl].
  unfold Str.join in *. destruct l as [|y l].
  - cbn [String.concat]. unfold is_item in Hx.
    apply andb_true_iff in Hx. now destruct Hx as [_ Hx].
  - change (String.concat sep (x :: y :: l))
      with (x ++ sep ++ String.concat sep (y :: l)).
    specialize (IH ltac:(discriminate) Hl).
    assert (Hn : Str.is_empty (String.concat sep (y :: l)) = false).
    { destruct (String.concat sep (y :: l)); [discriminate IH|reflexivity]. }
    rewrite last_char_app; [|now apply is_empty_app_r].
    now rewrite last_char_app.
Qed.

Lemma join_first (sep : string) (x : string) (l : list string) :
  plain_end (first_char x) = true ->
  first_char (Str.join sep (x :: l)) = first_char x.
Proof.
  intros H. unfold Str.join. destruct x as [|c x]; [discriminate H|].
  destruct l; reflexivity.
Qed.

(** X26.  A list cell is read back item by item: the text that gives
    each item on its own line after a dash becomes the environment with
    one [\item] line for each of them, in order. *)
Theorem list_cell_gives_its_items :
  forall (s : CellSpans) (a : option string) (items : list string),
    items <> [] -> forallb is_item items = true ->
    apply (List_ s a) (list_text items) = Ok (list_markup items).
Proof.
  intros s a items Hne H. cbn [apply]. f_equal. unfold List_apply.
  assert (Hb : Str.is_empty (Str.strip (list_text items)) = false).
  { unfold list_text, Str.strip. cbn [append]. rewrite lstrip_by_first by reflexivity.
    cbn [Str.rstrip_by]. change (Str.isspace "-") with false.
    now rewrite andb_false_r. }
  rewrite Hb. unfold list_markup. do 3 f_equal.
  set (sep := (Re.nl ++ "- ")%string).
  assert (Hs : Str.strip_chars "- " (list_text items) = Str.join sep items).
  { unfold Str.strip_chars, list_text. fold sep. fold dash_or_space.
    destruct (plain_end_some _ (join_last sep items Hne H)) as [c [Hc Hd]].
    destruct items as [|x l]; [congruence|].
    assert (Hx : plain_end (first_char x) = true).
    { cbn [forallb] in H. apply andb_true_iff in H. destruct H as [Hx _].
      unfold is_item in Hx. apply andb_true_iff in Hx. destruct Hx as [Hx _].
      apply andb_true_iff in Hx. now destruct Hx. }
    pose proof (join_first sep x l Hx) as Hf. rewrite <- Hf in Hx.
    destruct (plain_end_some _ Hx) as [d [Hd1 Hd2]].
    destruct (Str.join sep (x :: l)) as [|d' J] eqn:EJ; [discriminate Hd1|].
    injection Hd1 as ->.
    cbn [append Str.lstrip_by].
    change (dash_or_space "-") with true. change (dash_or_space " ") with true.
    cbn iota. rewrite Hd2.
    now apply (rstrip_by_last dash_or_space _ c). }
  rewrite Hs. subst sep.
  change (Re.nl ++ "- ")%string with (String "010" "- ").
  rewrite (split_join "010" "- " items Hne); [reflexivity|].
  rewrite Forall_forall. intros x Hx.
  rewrite forallb_forall in H. specialize (H x Hx). unfold is_item in H.
  apply andb_true_iff in H. destruct H as [H _].
  apply andb_true_iff in H. now destruct H.
Qed.

Lemma list_cell_gives_its_items_witness :
  apply (List_ (cell_spans_all ColSpans) None) (list_text ["one"; "two - three"])
  = Ok (list_markup ["one"; "two - three"]).
Proof.
  apply (list_cell_gives_its_items (cell_spans_all ColSpans) None
           ["one"; "two - three"]); [discriminate|reflexivity].
Defined.

(** ** The header row and the first records *)

Lemma dict_get_set_same (k : string) (v : option string) (d : Csv.pydict) :
  Csv.dict_get k (Csv.dict_set k v d) = Ok v.
Proof.
  induction d as [|[k' v'] d IH]; cbn [Csv.dict_set Csv.dict_get].
  - now rewrite String.eqb_refl.
  - destruct (String.eqb k k') eqn:E; cbn [Csv.dict_get].
    + now rewrite String.eqb_refl.
    + now rewrite E.
Qed.

Lemma dict_get_set_other (k k' : string) (v : option string) (d : Csv.pydict) :
  k <> k' -> Csv.dict_get k (Csv.dict_set k' v d) = Csv.dict_get k d.
Proof.
  intros Hk. apply String.eqb_neq in Hk.
  induction d as [|[k2 v2] d IH]; cbn [Csv.dict_set Csv.dict_get].
  - now rewrite Hk.
  - destruct (String.eqb k' k2) eqn:E; cbn [Csv.dict_get].
    + apply String.eqb_eq in E. subst k2. now rewrite Hk.
    + now rewrite IH.
Qed.

Lemma header_dict_get (cols : list string) :
  forall (d : Csv.pydict) (k : string),
    (In k cols -> Csv.dict_get k (Csv.zip_row cols cols d) = Ok (Some k))
    /\ (~ In k cols -> Csv.dict_get k (Csv.zip_row cols cols d) = Csv.dict_get k d).
Proof.
  induction cols as [|n ns IH]; intros d k; cbn [Csv.zip_row].
  - split; [intros []|reflexivity].
  - destruct (IH (Csv.dict_set n (Some n) d) k) as [IHin IHout].
    destruct (in_dec string_dec k ns) as [Hin|Hout].
    + split; [intros _; now apply IHin|]. intros Hn. exfalso. apply Hn. now right.
    + rewrite (IHout Hout). split.
      * intros [->|Hin]; [apply dict_get_set_same|contradiction].
      * intros Hn. apply dict_get_set_other. intros ->. apply Hn. now left.
Qed.

Lemma mapM_all_ok {A B} (f : A -> result B) (g : A -> B) (l : list A) :
  (forall a, In a l -> f a = Ok (g a)) -> mapM f l = Ok (map g l).
Proof.
  induction l as [|a l IH]; intros H; [reflexivity|].
  cbn [mapM map]. rewrite (H a (or_introl eq_refl)). cbn [bind].
  rewrite IH; [reflexivity|]. intros b Hb. apply H. now right.
Qed.

(** X27.  The header row that [print_table] makes when the headers are
    not skipped gives every selected column its own name as value, also
    when a name occurs more than once: reading it never raises
    [KeyError]. *)
Theorem header_row_shows_column_names :
  forall cols : list string,
    mapM (fun k => Csv.dict_get k (Csv.zip_row cols cols [])) cols
    = Ok (map Some cols).
Proof.
  intros cols. apply mapM_all_ok. intros k Hk.
  now apply (header_dict_get cols [] k).
Qed.

Lemma skip_records_skipn (n : nat) :
  forall (recs : list (list string)) (e : option exn),
    (n <= List.length recs)%nat ->
    skip_records n (recs, e) = Ok (skipn n recs, e).
Proof.
  induction n as [|n IH]; intros recs e H; [reflexivity|].
  destruct recs as [|r recs]; [cbn in H; lia|].
  cbn [skip_records Csv.next bind snd skipn]. apply IH.
  cbn [List.length] in H. lia.
Qed.

Lemma skip_records_short (n : nat) :
  forall recs : list (list string),
    (List.length recs < n)%nat ->
    skip_records n (recs, None) = Raise StopIteration.
Proof.
  induction n as [|n IH]; intros recs H; [lia|].
  destruct recs as [|r recs]; [reflexivity|].
  cbn [skip_records Csv.next bind snd]. apply IH.
  cbn [List.length] in H. lia.
Qed.

(** A field that has reached the size limit takes no further character:
    the reader raises its error. *)
Lemma field_at_limit_raises (delimiter ch : ascii) (p : Csv.parser) :
  Csv.st p = Csv.IN_FIELD ->
  (Csv.field_limit <= N.of_nat (String.length (Csv.field p)))%N ->
  Csv.is_newline ch = false -> Ascii.eqb ch delimiter = false ->
  Csv.process_char delimiter p (Some ch) = Raise CsvError.
Proof.
  intros Hst Hlen Hn Hd. unfold Csv.process_char. rewrite Hst, Hn, Hd.
  unfold Csv.add_char. apply N.leb_le in Hlen. now rewrite Hlen.
Qed.

(** X28.  When the file has no more records than [start_at] skips, and
    reading them meets no error, nothing is printed: with fewer records
    the run ends with [StopIteration], and with exactly that many there
    are no field names and it ends with [TypeError]. *)
Theorem start_at_beyond_the_file :
  forall (name text : string) (rows cols : Spans.t) (start_at : Z)
         (skip_headers : bool) (skip_cols : list string)
         (wrappers : list Modifier) (row_template : template),
    snd (Csv.open_reader (delimiter_of name) text) = None ->
    (List.length (fst (Csv.open_reader (delimiter_of name) text))
     <= Z.to_nat start_at)%nat ->
    print_table name text rows cols start_at skip_headers skip_cols wrappers
      row_template
    = mkRun EmptyString
        (Raise (if (List.length (fst (Csv.open_reader (delimiter_of name) text))
                    =? Z.to_nat start_at)%nat
                then TypeError else StopIteration)).
Proof.
  intros name text rows cols start_at skip_headers skip_cols wrappers
    row_template He Hn.
  unfold print_table. fold (delimiter_of name).
  destruct (Csv.open_reader (delimiter_of name) text) as [recs e].
  cbn [fst snd] in He, Hn. subst e. cbn [fst].
  destruct (Nat.eqb_spec (List.length recs) (Z.to_nat start_at)) as [E|E].
  - rewrite <- E. rewrite skip_records_skipn by lia.
    rewrite skipn_all. reflexivity.
  - rewrite skip_records_short by lia. reflexivity.
Qed.

Lemma start_at_beyond_the_file_witness :
  print_table "data.csv" ("a,b" ++ Re.nl) Spans.all Spans.all 2 true [] []
    (fun values has_value => Ok (simple_row values has_value))
  = mkRun EmptyString
      (Raise (if (List.length
                    (fst (Csv.open_reader (delimiter_of "data.csv") ("a,b" ++ Re.nl)))
                  =? Z.to_nat 2)%nat
              then TypeError else StopIteration)).
Proof.
  apply (start_at_beyond_the_file "data.csv" ("a,b" ++ Re.nl) Spans.all Spans.all 2
           true [] [] (fun values has_value => Ok (simple_row values has_value)));
    [reflexivity|vm_compute; lia].
Defined.

(** ** The rows [prepare-data.py] keeps *)

(** X29.  [iterrows] yields, in their order, the rows that [keeprow]
    keeps; a row on which [keeprow] raises ends it with that exception,
    after the rows kept before it. *)
Theorem iterrows_yields_kept_rows :
  forall (before : list Csv.pydict) (filters excludes : list string),
    Forall (fun r => is_ok (PrepareData.keeprow r filters excludes) = true) before ->
    PrepareData.iterrows before filters excludes
    = (filter (keeps filters excludes) before, None)
    /\ (forall (bad : Csv.pydict) (after : list Csv.pydict) (e : exn),
          PrepareData.keeprow bad filters excludes = Raise e ->
          PrepareData.iterrows (before ++ bad :: after) filters excludes
          = (filter (keeps filters excludes) before, Some e)).
Proof.
  intros before filters excludes H. induction H as [|r rs Hr Hrs [IH1 IH2]].
  - split; [reflexivity|]. intros bad after e Hb.
    cbn [app PrepareData.iterrows]. now rewrite Hb.
  - unfold keeps. cbn [filter].
    destruct (PrepareData.keeprow r filters excludes) as [b|x] eqn:E;
      [|discriminate Hr].
    split.
    + cbn [PrepareData.iterrows]. rewrite E, IH1. now destruct b.
    + intros bad after e Hb. cbn [app PrepareData.iterrows].
      rewrite E, (IH2 bad after e Hb). now destruct b.
Qed.

Lemma iterrows_yields_kept_rows_witness :
  PrepareData.iterrows [[("kind", Some "a")]; [("kind", Some "b")]] ["kind:a"] []
  = (filter (keeps ["kind:a"] []) [[("kind", Some "a")]; [("kind", Some "b")]], None)
  /\ (forall (bad : Csv.pydict) (after : list Csv.pydict) (e : exn),
        PrepareData.keeprow bad ["kind:a"] [] = Raise e ->
        PrepareData.iterrows
          ([[("kind", Some "a")]; [("kind", Some "b")]] ++ bad :: after) ["kind:a"] []
        = (filter (keeps ["kind:a"] []) [[("kind", Some "a")]; [("kind", Some "b")]],
           Some e)).
Proof.
  apply (iterrows_yields_kept_rows [[("kind", Some "a")]; [("kind", Some "b")]]
           ["kind:a"] []).
  repeat constructor.
Defined.
